(** * Event-driven backtester: events, portfolio ledger, simulation loop

    A shallow embedding of the Python sources

      - [Backtester/event.py]        (the four event classes),
      - [Strategies/hft_data.py]     ([HistoricCSVDataHandlerHFT]),
      - [Strategies/hft_portfolio.py] ([PortfolioHFT]),
      - [backtest.py]                ([Backtest._run_backtest]),
      - [performance.py]             ([create_drawdowns]),

    followed by the properties of the specification, each stated over these
    definitions.

    Conventions of the embedding.
      - Python [dict]s with string keys are [gmap string _]; a failed
        subscript raises [KeyError].
      - Python [int]s are [Z].  Python [float]s are exact rationals [Q]:
        rounding is not modelled, and the missing value [NaN] of a pandas
        series is [None] in an [option Q].  The statements about floats
        give results as the expressions the code evaluates, in its order,
        and use no identity of exact arithmetic that rounding breaks; where
        the specification asks for such an identity, the arithmetic of the
        function is given a second time on binary64 numbers
        ([update_holdings_from_fill_binary64]).
      - [datetime] values are integers (any totally ordered time axis).
      - Exceptions are the [Raise] results of the error monad [result]. *)

From Stdlib Require Import ZArith QArith Qminmax Qabs Lia Lqa.
From Stdlib Require Import PrimFloat Uint63.
From Stdlib Require Import Relation_Operators Wellfounded.
From stdpp Require Import base tactics option list strings gmap fin_maps.

Local Open Scope string_scope.
Local Open Scope list_scope.
Local Open Scope Z_scope.

(** ** Exceptions and the error monad *)

Inductive pyerror : Type :=
| KeyError
| IndexError
| AttributeError
| TypeError.

Inductive result (A : Type) : Type :=
| Ok (a : A)
| Raise (e : pyerror).
Arguments Ok {A} a.
Arguments Raise {A} e.

Definition result_bind {A B : Type} (m : result A) (k : A -> result B) : result B :=
  match m with
  | Ok a => k a
  | Raise e => Raise e
  end.

Notation "x <-- m ;; k" := (result_bind m (fun x => k))
  (at level 100, m at next level, right associativity,
   format "'[v' x  <--  m  ;;  '/' k ']'").

(** Comparisons of floats as the booleans Python computes. *)
Definition Qgt_bool (x y : Q) : bool := negb (Qle_bool x y).

(** [d[k]] on a dictionary. *)
Definition subscript {V : Type} (d : gmap string V) (k : string) : result V :=
  match d !! k with
  | Some v => Ok v
  | None => Raise KeyError
  end.

(** [l[-1]] on a list. *)
Definition last_item {A : Type} (l : list A) : result A :=
  match last l with
  | Some a => Ok a
  | None => Raise IndexError
  end.

(** [l[0]] on a list. *)
Definition first_item {A : Type} (l : list A) : result A :=
  match l with
  | a :: _ => Ok a
  | [] => Raise IndexError
  end.

(** ** Event model ([Backtester/event.py]) *)

Definition timestamp : Type := Z.

Record SignalEvent : Type := mkSignalEvent {
  sig_strategy_id : Z;
  sig_symbol : string;
  sig_datetime : timestamp;
  sig_signal_type : string;
  sig_strength : Q
}.

Record OrderEvent : Type := mkOrderEvent {
  ord_symbol : string;
  ord_order_type : string;
  ord_quantity : Z;
  ord_direction : string
}.

Record FillEvent : Type := mkFillEvent {
  fill_timeindex : timestamp;
  fill_symbol : string;
  fill_exchange : string;
  fill_quantity : Z;
  fill_direction : string;
  fill_fill_cost : option Q;
  fill_commission : Q
}.

(** [FillEvent.calculate_commission]: 0.005 per share, at least 1.00. *)
Definition calculate_commission (quantity : Z) : Q :=
  if Qgt_bool (inject_Z quantity * (5 # 1000)) 1
  then inject_Z quantity * (5 # 1000)
  else 1.

(** [FillEvent.__init__]; [commission = None] is the default argument. *)
Definition FillEvent_init (timeindex : timestamp) (symbol exchange : string)
    (quantity : Z) (direction : string) (fill_cost : option Q)
    (commission : option Q) : FillEvent :=
  {| fill_timeindex := timeindex;
     fill_symbol := symbol;
     fill_exchange := exchange;
     fill_quantity := quantity;
     fill_direction := direction;
     fill_fill_cost := fill_cost;
     fill_commission :=
       match commission with
       | None => calculate_commission quantity
       | Some c => c
       end |}.

(** An object taken from the event queue.  The four classes of [event.py]
    carry the fixed [type] tags; [OtherEvent ty] stands for any other object
    whose [type] attribute is [ty] and which has no further attributes. *)
Inductive event : Type :=
| Market
| Signal (s : SignalEvent)
| Order (o : OrderEvent)
| Fill (f : FillEvent)
| OtherEvent (ty : string).

Definition event_type (e : event) : string :=
  match e with
  | Market => "MARKET"
  | Signal _ => "SIGNAL"
  | Order _ => "ORDER"
  | Fill _ => "FILL"
  | OtherEvent ty => ty
  end.

(** ** The event queue ([queue.Queue], used without blocking)

    [put] appends at the tail; [get(False)] removes the head or raises
    [queue.Empty], here [None].  The queue also receives the Python value
    [None], hence the element type. *)

Abbreviation Queue := (list (option event)).

Definition put (x : option event) (q : Queue) : Queue := q ++ [x].

Definition get (q : Queue) : option (option event * Queue) :=
  match q with
  | [] => None
  | x :: rest => Some (x, rest)
  end.

(** ** Market data ([Strategies/hft_data.py]) *)

(** One row of a symbol's frame, as produced by [iterrows]: the index value
    and the columns named in [_open_convert_csv_files]. *)
Record bar_row : Type := mkBarRow {
  row_open : Q;
  row_high : Q;
  row_low : Q;
  row_close : Q;
  row_volume : Q
}.

Definition bar : Type := (timestamp * bar_row)%type.

(** [getattr(row, val_type)] for the column names of the frame.  The
    attributes pandas itself gives a row (such as [size] or [name]) are not
    modelled; the statements read the five columns only. *)
Definition getattr_row (r : bar_row) (val_type : string) : result Q :=
  if String.eqb val_type "open" then Ok (row_open r)
  else if String.eqb val_type "high" then Ok (row_high r)
  else if String.eqb val_type "low" then Ok (row_low r)
  else if String.eqb val_type "close" then Ok (row_close r)
  else if String.eqb val_type "volume" then Ok (row_volume r)
  else Raise AttributeError.

(** State of a [HistoricCSVDataHandlerHFT] once the files are loaded:
    [symbol_data] holds, per symbol, the rows its iterator has not produced
    yet; [latest_symbol_data] the rows already released. *)
Record DataHandler : Type := mkDataHandler {
  symbol_list : list string;
  symbol_data : gmap string (list bar);
  latest_symbol_data : gmap string (list bar);
  continue_backtest : bool
}.

(** The state left by [__init__] for frames that are already read and
    re-indexed (reading the CSV files is outside the model:
    [_open_convert_csv_files] sorts each frame by time, re-indexes it on
    the index of the first symbol, and fails on a symbol listed twice).
    The statements are for any frames, over distinct symbols where that
    matters. *)
Definition DataHandler_init (symbols : list string)
    (frames : gmap string (list bar)) : DataHandler :=
  {| symbol_list := symbols;
     symbol_data := frames;
     latest_symbol_data := foldl (fun d s => <[s := []]> d) ∅ symbols;
     continue_backtest := true |}.

Definition get_latest_bar (dh : DataHandler) (symbol : string) : result bar :=
  bars_list <-- subscript (latest_symbol_data dh) symbol ;;
  last_item bars_list.

Definition get_latest_bar_datetime (dh : DataHandler) (symbol : string)
    : result timestamp :=
  bars_list <-- subscript (latest_symbol_data dh) symbol ;;
  b <-- last_item bars_list ;;
  Ok (fst b).

Definition get_latest_bar_value (dh : DataHandler) (symbol val_type : string)
    : result Q :=
  bars_list <-- subscript (latest_symbol_data dh) symbol ;;
  b <-- last_item bars_list ;;
  getattr_row (snd b) val_type.

(** One iteration of the loop of [update_bars]: [next] on the symbol's
    iterator, [StopIteration] clearing [continue_backtest]. *)
Definition update_bars_symbol (dh : DataHandler) (symbol : string)
    : result DataHandler :=
  rows <-- subscript (symbol_data dh) symbol ;;
  match rows with
  | [] =>
      Ok {| symbol_list := symbol_list dh;
            symbol_data := symbol_data dh;
            latest_symbol_data := latest_symbol_data dh;
            continue_backtest := false |}
  | b :: rest =>
      released <-- subscript (latest_symbol_data dh) symbol ;;
      Ok {| symbol_list := symbol_list dh;
            symbol_data := <[symbol := rest]> (symbol_data dh);
            latest_symbol_data :=
              <[symbol := released ++ [b]]> (latest_symbol_data dh);
            continue_backtest := continue_backtest dh |}
  end.

(** [for x in xs: st = body(st, x)] in the error monad. *)
Fixpoint for_each {S A : Type} (body : S -> A -> result S) (xs : list A)
    (st : S) : result S :=
  match xs with
  | [] => Ok st
  | x :: rest => st' <-- body st x ;; for_each body rest st'
  end.

(** [update_bars]: the [MarketEvent] is put whether or not a bar arrived. *)
Definition update_bars (dh : DataHandler) (events : Queue)
    : result (DataHandler * Queue) :=
  dh' <-- for_each update_bars_symbol (symbol_list dh) dh ;;
  Ok (dh', put (Some Market) events).

(** ** Portfolio ledger ([Strategies/hft_portfolio.py]) *)

(** Values stored in the records of the two histories. *)
Inductive pyval : Type :=
| VInt (z : Z)
| VFloat (q : Q)
| VTime (t : timestamp).

(** [v + x] for a float [x]. *)
Definition pyval_add_float (v : pyval) (x : Q) : result pyval :=
  match v with
  | VInt z => Ok (VFloat (inject_Z z + x))
  | VFloat q => Ok (VFloat (q + x))
  | VTime _ => Raise TypeError
  end.

(** [dict((k, v) for k, v in [(s, v0) for s in symbols])]. *)
Definition dict_of_symbols {V : Type} (v0 : V) (symbols : list string)
    : gmap string V :=
  foldl (fun d s => <[s := v0]> d) ∅ symbols.

Record Portfolio : Type := mkPortfolio {
  pf_symbol_list : list string;
  start_date : timestamp;
  initial_capital : Q;
  all_positions : list (gmap string pyval);
  current_positions : gmap string Z;
  all_holdings : list (gmap string pyval);
  current_holdings : gmap string Q
}.

Definition construct_all_positions (symbols : list string) (start : timestamp)
    : list (gmap string pyval) :=
  let d := dict_of_symbols (VInt 0) symbols in
  let d := <["datetime" := VTime start]> d in
  [d].

Definition construct_all_holdings (symbols : list string) (start : timestamp)
    (capital : Q) : list (gmap string pyval) :=
  let d := dict_of_symbols (VInt 0) symbols in
  let d := <["datetime" := VTime start]> d in
  let d := <["cash" := VFloat capital]> d in
  let d := <["commission" := VFloat 0]> d in
  let d := <["total" := VFloat capital]> d in
  [d].

Definition construct_current_holdings (symbols : list string) (capital : Q)
    : gmap string Q :=
  let d := dict_of_symbols 0%Q symbols in
  let d := <["cash" := capital]> d in
  let d := <["commission" := 0%Q]> d in
  let d := <["total" := capital]> d in
  d.

(** [PortfolioHFT.__init__]. *)
Definition Portfolio_init (bars : DataHandler) (start : timestamp)
    (capital : Q) : Portfolio :=
  {| pf_symbol_list := symbol_list bars;
     start_date := start;
     initial_capital := capital;
     all_positions := construct_all_positions (symbol_list bars) start;
     current_positions := dict_of_symbols 0 (symbol_list bars);
     all_holdings := construct_all_holdings (symbol_list bars) start capital;
     current_holdings := construct_current_holdings (symbol_list bars) capital |}.

Definition set_histories (p : Portfolio)
    (ap ah : list (gmap string pyval)) : Portfolio :=
  {| pf_symbol_list := pf_symbol_list p;
     start_date := start_date p;
     initial_capital := initial_capital p;
     all_positions := ap;
     current_positions := current_positions p;
     all_holdings := ah;
     current_holdings := current_holdings p |}.

Definition set_current_positions (p : Portfolio) (cp : gmap string Z)
    : Portfolio :=
  {| pf_symbol_list := pf_symbol_list p;
     start_date := start_date p;
     initial_capital := initial_capital p;
     all_positions := all_positions p;
     current_positions := cp;
     all_holdings := all_holdings p;
     current_holdings := current_holdings p |}.

Definition set_current_holdings (p : Portfolio) (ch : gmap string Q)
    : Portfolio :=
  {| pf_symbol_list := pf_symbol_list p;
     start_date := start_date p;
     initial_capital := initial_capital p;
     all_positions := all_positions p;
     current_positions := current_positions p;
     all_holdings := all_holdings p;
     current_holdings := ch |}.

(** First loop of [update_timeindex]: [dp[s] = self.current_positions[s]]. *)
Definition positions_row_step (p : Portfolio) (dp : gmap string pyval)
    (s : string) : result (gmap string pyval) :=
  q <-- subscript (current_positions p) s ;;
  Ok (<[s := VInt q]> dp).

(** Second loop of [update_timeindex]: the market value of [s] is stored
    under [s] and added to [dh['total']]. *)
Definition holdings_row_step (bars : DataHandler) (p : Portfolio)
    (dh : gmap string pyval) (s : string) : result (gmap string pyval) :=
  q <-- subscript (current_positions p) s ;;
  close <-- get_latest_bar_value bars s "close" ;;
  let market_value := (inject_Z q * close)%Q in
  let dh := <[s := VFloat market_value]> dh in
  total <-- subscript dh "total" ;;
  total' <-- pyval_add_float total market_value ;;
  Ok (<["total" := total']> dh).

(** [update_timeindex]; its [event] argument is not used by the source. *)
Definition update_timeindex (bars : DataHandler) (p : Portfolio)
    : result Portfolio :=
  s0 <-- first_item (pf_symbol_list p) ;;
  latest_datetime <-- get_latest_bar_datetime bars s0 ;;
  let dp := dict_of_symbols (VInt 0) (pf_symbol_list p) in
  let dp := <["datetime" := VTime latest_datetime]> dp in
  dp <-- for_each (positions_row_step p) (pf_symbol_list p) dp ;;
  let ap := all_positions p ++ [dp] in
  let dh := dict_of_symbols (VInt 0) (pf_symbol_list p) in
  let dh := <["datetime" := VTime latest_datetime]> dh in
  cash <-- subscript (current_holdings p) "cash" ;;
  let dh := <["cash" := VFloat cash]> dh in
  commission <-- subscript (current_holdings p) "commission" ;;
  let dh := <["commission" := VFloat commission]> dh in
  cash' <-- subscript (current_holdings p) "cash" ;;
  let dh := <["total" := VFloat cash']> dh in
  dh <-- for_each (holdings_row_step bars p) (pf_symbol_list p) dh ;;
  Ok (set_histories p ap (all_holdings p ++ [dh])).

(** The sign computed at the top of both fill handlers. *)
Definition fill_dir (direction : string) : Z :=
  let d := 0 in
  let d := if String.eqb direction "BUY" then 1 else d in
  let d := if String.eqb direction "SELL" then -1 else d in
  d.

Definition update_positions_from_fill (p : Portfolio) (fill : FillEvent)
    : result Portfolio :=
  let dir := fill_dir (fill_direction fill) in
  cur <-- subscript (current_positions p) (fill_symbol fill) ;;
  Ok (set_current_positions p
        (<[fill_symbol fill := cur + dir * fill_quantity fill]>
           (current_positions p))).

Definition update_holdings_from_fill (bars : DataHandler) (p : Portfolio)
    (fill : FillEvent) : result Portfolio :=
  let dir := fill_dir (fill_direction fill) in
  fill_cost <-- get_latest_bar_value bars (fill_symbol fill) "close" ;;
  let cost := (inject_Z dir * fill_cost * inject_Z (fill_quantity fill))%Q in
  let h := current_holdings p in
  held <-- subscript h (fill_symbol fill) ;;
  let h := <[fill_symbol fill := (held + cost)%Q]> h in
  commission <-- subscript h "commission" ;;
  let h := <["commission" := (commission + fill_commission fill)%Q]> h in
  cash <-- subscript h "cash" ;;
  let h := <["cash" := (cash - (cost + fill_commission fill))%Q]> h in
  total <-- subscript h "total" ;;
  let h := <["total" := (total - (cost + fill_commission fill))%Q]> h in
  Ok (set_current_holdings p h).

(** [update_fill]: an object tagged ['FILL'] that is not a [FillEvent] has
    none of the attributes the handlers read. *)
Definition update_fill (bars : DataHandler) (p : Portfolio) (e : event)
    : result Portfolio :=
  if String.eqb (event_type e) "FILL" then
    match e with
    | Fill fill =>
        p <-- update_positions_from_fill p fill ;;
        update_holdings_from_fill bars p fill
    | _ => Raise AttributeError
    end
  else Ok p.

(** *** The arithmetic of a fill on binary64 numbers

    The same function with its floats as the binary64 numbers the
    interpreter computes with, each operation rounded, in the order of the
    source.  The fill is given by the attributes the function reads;
    [fill_cost] is the latest close [get_latest_bar_value] has returned. *)

(** The conversion of an [int] operand of [int * float]. *)
Definition float_of_int (z : Z) : float :=
  if z <? 0 then PrimFloat.opp (PrimFloat.of_uint63 (Uint63.of_Z (- z)))
  else PrimFloat.of_uint63 (Uint63.of_Z z).

Definition update_holdings_from_fill_binary64
    (current_holdings : gmap string float) (symbol direction : string)
    (quantity : Z) (commission fill_cost : float)
    : result (gmap string float) :=
  let dir := fill_dir direction in
  let cost := (float_of_int dir * fill_cost * float_of_int quantity)%float in
  let h := current_holdings in
  held <-- subscript h symbol ;;
  let h := <[symbol := (held + cost)%float]> h in
  paid <-- subscript h "commission" ;;
  let h := <["commission" := (paid + commission)%float]> h in
  cash <-- subscript h "cash" ;;
  let h := <["cash" := (cash - (cost + commission))%float]> h in
  total <-- subscript h "total" ;;
  let h := <["total" := (total - (cost + commission))%float]> h in
  Ok h.

(** [generate_naive_order]: the four guarded assignments in source order. *)
Definition generate_naive_order (p : Portfolio) (signal : SignalEvent)
    : result (option event) :=
  let order : option event := None in
  let symbol := sig_symbol signal in
  let direction := sig_signal_type signal in
  let mkt_quantity := 100 in
  cur_quantity <-- subscript (current_positions p) symbol ;;
  let order_type := "MKT" in
  let order :=
    if String.eqb direction "LONG" && (cur_quantity =? 0)
    then Some (Order (mkOrderEvent symbol order_type mkt_quantity "BUY"))
    else order in
  let order :=
    if String.eqb direction "SHORT" && (cur_quantity =? 0)
    then Some (Order (mkOrderEvent symbol order_type mkt_quantity "SELL"))
    else order in
  let order :=
    if String.eqb direction "EXIT" && (0 <? cur_quantity)
    then Some (Order (mkOrderEvent symbol order_type (Z.abs cur_quantity) "SELL"))
    else order in
  let order :=
    if String.eqb direction "EXIT" && (cur_quantity <? 0)
    then Some (Order (mkOrderEvent symbol order_type (Z.abs cur_quantity) "BUY"))
    else order in
  Ok order.

(** [update_signal]: whatever [generate_naive_order] returns is put on the
    queue, [None] included. *)
Definition update_signal (p : Portfolio) (events : Queue) (e : event)
    : result Queue :=
  if String.eqb (event_type e) "SIGNAL" then
    match e with
    | Signal signal =>
        order_event <-- generate_naive_order p signal ;;
        Ok (put order_event events)
    | _ => Raise AttributeError
    end
  else Ok events.

(** ** The simulation loop ([backtest.py])

    The strategy and the execution handler are the collaborators of the
    loop.  Each is a state of its own and a handler which reads the market
    data and puts objects on the queue; the list a handler returns is what it
    puts, in order. *)

Inductive outcome (A : Type) : Type :=
| Finished (a : A)
| Aborted (e : pyerror)
| OutOfFuel.
Arguments Finished {A} a.
Arguments Aborted {A} e.
Arguments OutOfFuel {A}.

Section Backtest.

Context {StrategyState ExecutionState : Type}.

Variable calculate_signals :
  StrategyState -> DataHandler -> event ->
  result (StrategyState * list (option event)).

Variable execute_order :
  ExecutionState -> event -> result (ExecutionState * list (option event)).

Record Backtest : Type := mkBacktest {
  events : Queue;
  signals : Z;
  orders : Z;
  fills : Z;
  data_handler : DataHandler;
  strategy : StrategyState;
  portfolio : Portfolio;
  execution_handler : ExecutionState
}.

Definition set_events (bt : Backtest) (q : Queue) : Backtest :=
  {| events := q;
     signals := signals bt;
     orders := orders bt;
     fills := fills bt;
     data_handler := data_handler bt;
     strategy := strategy bt;
     portfolio := portfolio bt;
     execution_handler := execution_handler bt |}.

(** The [if]/[elif] chain on [event.type], for an event that is not
    [None].  There is no final [else]. *)
Definition dispatch (bt : Backtest) (e : event) : result Backtest :=
  if String.eqb (event_type e) "MARKET" then
    r <-- calculate_signals (strategy bt) (data_handler bt) e ;;
    p <-- update_timeindex (data_handler bt) (portfolio bt) ;;
    Ok {| events := events bt ++ snd r;
          signals := signals bt;
          orders := orders bt;
          fills := fills bt;
          data_handler := data_handler bt;
          strategy := fst r;
          portfolio := p;
          execution_handler := execution_handler bt |}
  else if String.eqb (event_type e) "SIGNAL" then
    q <-- update_signal (portfolio bt) (events bt) e ;;
    Ok {| events := q;
          signals := signals bt + 1;
          orders := orders bt;
          fills := fills bt;
          data_handler := data_handler bt;
          strategy := strategy bt;
          portfolio := portfolio bt;
          execution_handler := execution_handler bt |}
  else if String.eqb (event_type e) "ORDER" then
    r <-- execute_order (execution_handler bt) e ;;
    Ok {| events := events bt ++ snd r;
          signals := signals bt;
          orders := orders bt + 1;
          fills := fills bt;
          data_handler := data_handler bt;
          strategy := strategy bt;
          portfolio := portfolio bt;
          execution_handler := fst r |}
  else if String.eqb (event_type e) "FILL" then
    p <-- update_fill (data_handler bt) (portfolio bt) e ;;
    Ok {| events := events bt;
          signals := signals bt;
          orders := orders bt;
          fills := fills bt + 1;
          data_handler := data_handler bt;
          strategy := strategy bt;
          portfolio := p;
          execution_handler := execution_handler bt |}
  else Ok bt.

(** The body of the inner loop after a successful [get]: the
    [event is not None] guard, then the dispatch. *)
Definition handle (bt : Backtest) (x : option event) : result Backtest :=
  match x with
  | None => Ok bt
  | Some e => dispatch bt e
  end.

(** What one iteration of the inner loop has added to the queue: the
    part of the queue after the items that were waiting before it. *)
Definition enqueued_by (waiting : Queue) (bt' : Backtest) : Queue :=
  drop (length waiting) (events bt').

(** The inner [while True] loop, the Drain phase.  Besides the state in
    which it leaves the loop it returns the items it has taken from the
    queue and the items put on the queue meanwhile, both in order. *)
Fixpoint drain (fuel : nat) (bt : Backtest)
    : outcome (Backtest * (Queue * Queue)) :=
  match fuel with
  | O => OutOfFuel
  | S fuel =>
      match get (events bt) with
      | None => Finished (bt, ([], []))
      | Some (x, rest) =>
          match handle (set_events bt rest) x with
          | Raise err => Aborted err
          | Ok bt' =>
              match drain fuel bt' with
              | Finished (bt'', (taken, added)) =>
                  Finished (bt'', (x :: taken, enqueued_by rest bt' ++ added))
              | Aborted err => Aborted err
              | OutOfFuel => OutOfFuel
              end
          end
      end
  end.

(** The Advance phase: [update_bars] on the shared queue. *)
Definition advance (bt : Backtest) : result Backtest :=
  r <-- update_bars (data_handler bt) (events bt) ;;
  Ok {| events := snd r;
        signals := signals bt;
        orders := orders bt;
        fills := fills bt;
        data_handler := fst r;
        strategy := strategy bt;
        portfolio := portfolio bt;
        execution_handler := execution_handler bt |}.

(** [_run_backtest]: the outer [while True] loop.  [time.sleep] has no
    effect on the state.  The same fuel bounds the outer iterations and
    each Drain. *)
Fixpoint run_backtest (fuel : nat) (bt : Backtest) : outcome Backtest :=
  match fuel with
  | O => OutOfFuel
  | S fuel' =>
      if continue_backtest (data_handler bt) then
        match advance bt with
        | Raise err => Aborted err
        | Ok bt1 =>
            match drain fuel bt1 with
            | Finished (bt2, _) => run_backtest fuel' bt2
            | Aborted err => Aborted err
            | OutOfFuel => OutOfFuel
            end
        end
      else Finished bt
  end.

(** [Backtest.__init__] with [_generate_trading_instances]. *)
Definition Backtest_init (symbols : list string)
    (frames : gmap string (list bar)) (capital : Q) (start : timestamp)
    (strategy0 : StrategyState) (execution0 : ExecutionState) : Backtest :=
  let dh := DataHandler_init symbols frames in
  {| events := [];
     signals := 0;
     orders := 0;
     fills := 0;
     data_handler := dh;
     strategy := strategy0;
     portfolio := Portfolio_init dh start capital;
     execution_handler := execution0 |}.

End Backtest.

Arguments Backtest : clear implicits.

(** ** Equity curve and drawdowns
       ([create_equity_curve_dataframe], [performance.py])

    A pandas series of floats is a list of [option Q], [None] being [NaN].
    Arithmetic propagates [NaN].  A division by zero gives an infinity or a
    [NaN] in Python; the model has no infinities and gives [None] for both,
    so the statements below are about histories without a zero total. *)

Abbreviation Series := (list (option Q)).

Definition fadd (a b : option Q) : option Q :=
  match a, b with
  | Some x, Some y => Some (x + y)%Q
  | _, _ => None
  end.

Definition fsub (a b : option Q) : option Q :=
  match a, b with
  | Some x, Some y => Some (x - y)%Q
  | _, _ => None
  end.

Definition fdiv (a b : option Q) : option Q :=
  match a, b with
  | Some x, Some y => if Qeq_bool y 0 then None else Some (x / y)%Q
  | _, _ => None
  end.

(** [Series.pct_change()]: [data / data.shift(1) - 1]. *)
Fixpoint pct_change_from (prev : option Q) (xs : Series) : Series :=
  match xs with
  | [] => []
  | x :: rest => fsub (fdiv x prev) (Some 1%Q) :: pct_change_from x rest
  end.

Definition pct_change (xs : Series) : Series := pct_change_from None xs.

(** [Series.cumprod()] with the default [skipna=True]: a [NaN] stays in
    place and does not enter the running product. *)
Fixpoint cumprod_from (acc : Q) (xs : Series) : Series :=
  match xs with
  | [] => []
  | None :: rest => None :: cumprod_from acc rest
  | Some x :: rest => Some (acc * x)%Q :: cumprod_from (acc * x)%Q rest
  end.

Definition cumprod (xs : Series) : Series :=
  match xs with
  | [] => []
  | None :: rest => None :: cumprod_from 1 rest
  | Some x :: rest => Some x :: cumprod_from x rest
  end.

(** [Series.max()] with the default [skipna=True]. *)
Definition max_skipna (acc x : option Q) : option Q :=
  match acc, x with
  | None, _ => x
  | Some a, None => Some a
  | Some a, Some b => Some (if Qgt_bool b a then b else a)
  end.

Definition series_max (xs : Series) : option Q := foldl max_skipna None xs.

(** The column of a frame built from a list of dictionaries. *)
Definition column_value (name : string) (d : gmap string pyval)
    : result (option Q) :=
  match d !! name with
  | None => Ok None
  | Some (VFloat q) => Ok (Some q)
  | Some (VInt z) => Ok (Some (inject_Z z))
  | Some (VTime _) => Raise TypeError
  end.

Fixpoint column (name : string) (records : list (gmap string pyval))
    : result Series :=
  match records with
  | [] => Ok []
  | d :: rest =>
      x <-- column_value name d ;;
      xs <-- column name rest ;;
      Ok (x :: xs)
  end.

(** The columns of [self.equity_curve] that the statistics read. *)
Record EquityCurve : Type := mkEquityCurve {
  curve_total : Series;
  curve_returns : Series;
  curve_equity_curve : Series
}.

Definition equity_curve_of_totals (totals : Series) : EquityCurve :=
  let returns := pct_change totals in
  {| curve_total := totals;
     curve_returns := returns;
     curve_equity_curve := cumprod (map (fadd (Some 1%Q)) returns) |}.

(** Whether the frame built from [records] has the column [name]: the
    columns of [pd.DataFrame(records)] are the keys of the records. *)
Definition has_column (name : string) (records : list (gmap string pyval))
    : bool :=
  existsb (fun d => match d !! name with
                    | Some _ => true
                    | None => false
                    end) records.

(** [frame[name]]: [KeyError] when the frame has no such column. *)
Definition frame_column (name : string) (records : list (gmap string pyval))
    : result Series :=
  if has_column name records then column name records else Raise KeyError.

(** [create_equity_curve_dataframe]: [set_index('datetime')] raises
    [KeyError] when no record has the key, so also for an empty history;
    the index itself is not read afterwards. *)
Definition create_equity_curve_dataframe (p : Portfolio) : result EquityCurve :=
  let records := all_holdings p in
  if has_column "datetime" records then
    totals <-- frame_column "total" records ;;
    Ok (equity_curve_of_totals totals)
  else Raise KeyError.

(** The builtin [max(a, b)] for a number [a] and a float [b]: [b] is
    returned only when [b > a] holds, which a [NaN] never satisfies. *)
Definition py_max (a : Q) (b : option Q) : Q :=
  match b with
  | Some y => if Qgt_bool y a then y else a
  | None => a
  end.

(** [drawdown.iloc[t] == 0]. *)
Definition is_zero (x : option Q) : bool :=
  match x with
  | Some d => Qeq_bool d 0
  | None => false
  end.

(** The body of the loop of [create_drawdowns] from index [t] on, given
    [hwm[t-1]] and [duration.iloc[t-1]]; it returns the entries of [hwm],
    [drawdown] and [duration] from index [t] on. *)
Fixpoint drawdown_loop (hwm_prev : Q) (duration_prev : option Q)
    (pnl : Series) : list Q * Series * Series :=
  match pnl with
  | [] => ([], [], [])
  | x :: rest =>
      let hwm_t := py_max hwm_prev x in
      let drawdown_t := fsub (Some hwm_t) x in
      let duration_t :=
        if is_zero drawdown_t then Some 0%Q
        else fadd duration_prev (Some 1%Q) in
      let '(hs, dds, durs) := drawdown_loop hwm_t duration_t rest in
      (hwm_t :: hs, drawdown_t :: dds, duration_t :: durs)
  end.

(** The three lists at the end of the loop: [hwm] starts as [[0]], the two
    series start all-[NaN] and index 0 is never assigned. *)
Definition drawdown_series (pnl : Series) : list Q * Series * Series :=
  match pnl with
  | [] => ([0%Q], [], [])
  | _ :: rest =>
      let '(hs, dds, durs) := drawdown_loop 0 None rest in
      (0%Q :: hs, None :: dds, None :: durs)
  end.

(** [create_drawdowns]: the drawdown series, its maximum and the maximum of
    the duration series. *)
Definition create_drawdowns (pnl : Series) : Series * option Q * option Q :=
  let '(_, drawdown, duration) := drawdown_series pnl in
  (drawdown, series_max drawdown, series_max duration).

(** The drawdown figures of [output_summary_stats], before formatting
    (the Sharpe ratio and the string formats are not modelled). *)
Definition output_summary_stats (curve : EquityCurve) : option Q * option Q :=
  let pnl := curve_equity_curve curve in
  let '(_, max_dd, dd_duration) := create_drawdowns pnl in
  (max_dd, dd_duration).

(** ** Vocabulary of the statements *)

(** The sign the specification attaches to a fill direction. *)
Definition direction_sign (direction : string) : Z :=
  if String.eqb direction "BUY" then 1 else -1.

(** The [datetime] entry of a history record. *)
Definition record_time (d : gmap string pyval) : option timestamp :=
  match d !! "datetime" with
  | Some (VTime t) => Some t
  | _ => None
  end.

(** The times of the records of a history, in order. *)
Definition timestamps (history : list (gmap string pyval))
    : list (option timestamp) :=
  map record_time history.

Definition strictly_increasing (ts : list (option timestamp)) : Prop :=
  forall (i j : nat) (a b : timestamp),
    (i < j)%nat -> ts !! i = Some (Some a) -> ts !! j = Some (Some b) -> a < b.

(** The market value the specification gives a symbol in a snapshot: the
    position held times the latest close. *)
Definition market_value (bars : DataHandler) (p : Portfolio) (s : string) : Q :=
  match current_positions p !! s, get_latest_bar_value bars s "close" with
  | Some q, Ok close => (inject_Z q * close)%Q
  | _, _ => 0%Q
  end.

Definition Qsum (xs : list Q) : Q := fold_right Qplus 0%Q xs.


(** Calls on the ledger, each with the feed (or the queue) as it is at the
    time of the call. *)
Inductive ledger_call : Type :=
| CallTimeindex (bars : DataHandler)
| CallSignal (events : Queue) (e : event)
| CallFill (bars : DataHandler) (e : event).

Definition ledger_step (p : Portfolio) (c : ledger_call) : result Portfolio :=
  match c with
  | CallTimeindex bars => update_timeindex bars p
  | CallSignal events e => _ <-- update_signal p events e ;; Ok p
  | CallFill bars e => update_fill bars p e
  end.

(** The bar times stamped by the [update_timeindex] calls among [calls]. *)
Fixpoint stamped_times (symbols : list string) (calls : list ledger_call)
    : list (option timestamp) :=
  match calls with
  | [] => []
  | CallTimeindex bars :: rest =>
      match first_item symbols with
      | Ok s0 =>
          match get_latest_bar_datetime bars s0 with
          | Ok t => Some t
          | Raise _ => None
          end
      | Raise _ => None
      end :: stamped_times symbols rest
  | _ :: rest => stamped_times symbols rest
  end.

Definition non_decreasing (ts : list (option timestamp)) : Prop :=
  forall (i j : nat) (a b : timestamp),
    (i < j)%nat -> ts !! i = Some (Some a) -> ts !! j = Some (Some b) -> a <= b.

(** The bar times a run stamps on the records it appends, when the feed
    holds the bars [released] and [remaining] of the first symbol and the
    shortest remaining frame has [m] rows: the times of the next [m + 1]
    bars of the first symbol, or, when it has only [m] left, the times of
    these and the time of the last one once more. *)
Definition stamps_of_run (released remaining : list bar) (m : nat)
    : list timestamp :=
  map fst (take (S m) remaining)
  ++ (if decide (length remaining = m)
      then match last (released ++ remaining) with
           | Some b => [fst b]
           | None => []
           end
      else []).

(** An item that is an [OrderEvent]. *)
Definition is_order (x : option event) : bool :=
  match x with
  | Some (Order _) => true
  | _ => false
  end.

(** The number of [OrderEvent]s among some items put on the queue. *)
Definition count_orders (xs : list (option event)) : nat :=
  length (List.filter is_order xs).

(** The number of events of a queue whose [type] is [ty]. *)
Definition count_type (ty : string) (q : Queue) : Z :=
  Z.of_nat (length (List.filter
                      (fun x => match x with
                                | Some e => String.eqb (event_type e) ty
                                | None => false
                                end) q)).

(** The contracts of the collaborators: a strategy puts only
    [SignalEvent]s, an execution handler only [FillEvent]s (or [None]). *)
Definition puts_only_signals {StrategyState : Type}
    (calculate_signals :
       StrategyState -> DataHandler -> event ->
       result (StrategyState * list (option event))) : Prop :=
  forall st bars e st' puts,
    calculate_signals st bars e = Ok (st', puts) ->
    Forall (fun x => exists s, x = Some (Signal s)) puts.

Definition puts_only_fills {ExecutionState : Type}
    (execute_order :
       ExecutionState -> event ->
       result (ExecutionState * list (option event))) : Prop :=
  forall st e st' puts,
    execute_order st e = Ok (st', puts) ->
    Forall (fun x => x = None \/ exists f, x = Some (Fill f)) puts.

(** The stage of an item in the pipeline market, signal, order, fill,
    counted down: what the handling of an item puts on the queue is of a
    later stage, so of a smaller number. *)
Definition stage (x : option event) : nat :=
  match x with
  | None => 0
  | Some e =>
      if String.eqb (event_type e) "MARKET" then 3
      else if String.eqb (event_type e) "SIGNAL" then 2
      else if String.eqb (event_type e) "ORDER" then 1
      else 0
  end.

Definition count_stage (n : nat) (q : Queue) : nat :=
  length (List.filter (fun x => Nat.eqb (stage x) n) q).

(** The work left in a queue, ordered lexicographically. *)
Definition workload (q : Queue) : nat * (nat * (nat * nat)) :=
  (count_stage 3 q, (count_stage 2 q, (count_stage 1 q, length q))).

Definition workload_lt : relation (nat * (nat * (nat * nat))) :=
  slexprod _ _ lt (slexprod _ _ lt (slexprod _ _ lt lt)).

(** The specification's series, by index [t] over the totals of a history:
    [return(t) = total(t) / total(t-1) - 1], the equity curve as the product
    of [1 + return(i)] for [i <= t] with base 1.0 at [t0], and the
    high-water mark as the running maximum of the equity curve. *)
Definition spec_return (totals : list Q) (t : nat) : Q :=
  (nth t totals 0 / nth (t - 1) totals 0 - 1)%Q.

Fixpoint spec_equity_curve (totals : list Q) (t : nat) : Q :=
  match t with
  | O => 1%Q
  | S t' => (spec_equity_curve totals t' * (1 + spec_return totals t))%Q
  end.

Fixpoint spec_hwm (totals : list Q) (t : nat) : Q :=
  match t with
  | O => spec_equity_curve totals 0
  | S t' => Qmax (spec_hwm totals t') (spec_equity_curve totals t)
  end.

Definition spec_drawdown (totals : list Q) (t : nat) : Q :=
  (spec_hwm totals t - spec_equity_curve totals t)%Q.

(** ** Collaborators and data used in the examples *)

(** A collaborator that replays a script of arbitrary items: at each call
    it puts the next group of its script. *)
Definition scripted_signals (script : list (list (option event)))
    (bars : DataHandler) (e : event)
    : result (list (list (option event)) * list (option event)) :=
  match script with
  | [] => Ok ([], [])
  | items :: rest => Ok (rest, items)
  end.

(** A strategy that replays a script of signals: at each call it puts the
    next group of [SignalEvent]s. *)
Definition replay_signals (script : list (list SignalEvent))
    (bars : DataHandler) (e : event)
    : result (list (list SignalEvent) * list (option event)) :=
  match script with
  | [] => Ok ([], [])
  | group :: rest => Ok (rest, map (fun s => Some (Signal s)) group)
  end.

(** Modelled from the spec: [ExecutionSimulator.execute_order], whose
    source file is not among the repository files.  It puts exactly one
    [FillEvent] per order: the order's symbol, quantity and direction, no
    fill cost, the default commission. *)
Definition simulated_execute_order (st : unit) (e : event)
    : result (unit * list (option event)) :=
  match e with
  | Order o =>
      Ok (tt, [Some (Fill (FillEvent_init 0 (ord_symbol o) "ARCA"
                             (ord_quantity o) (ord_direction o) None None))])
  | _ => Raise AttributeError
  end.

Definition flat_bar (t : timestamp) (price : Q) : bar :=
  (t, mkBarRow price price price price 0).

Definition sample_frames : gmap string (list bar) :=
  {[ "AAPL" := [flat_bar 1 10; flat_bar 2 10; flat_bar 3 10] ]}.

Definition long_signal (s : string) : SignalEvent :=
  mkSignalEvent 1 s 0 "LONG" 1.

Definition exit_signal (s : string) : SignalEvent :=
  mkSignalEvent 1 s 0 "EXIT" 1.

(** A feed for ["AAPL"] that has released its first bar, and the ledger
    built on it. *)
Definition sample_bars : DataHandler :=
  {| symbol_list := ["AAPL"];
     symbol_data := {[ "AAPL" := [flat_bar 2 10; flat_bar 3 10] ]};
     latest_symbol_data := {[ "AAPL" := [flat_bar 1 10] ]};
     continue_backtest := true |}.

Definition sample_portfolio : Portfolio := Portfolio_init sample_bars 0 100000.

Definition sample_fill : FillEvent :=
  FillEvent_init 0 "AAPL" "ARCA" 100 "BUY" None None.

(** The run of the specification's scenario: three bars of one symbol, a
    LONG signal at the second bar and an EXIT signal at the third. *)
Definition scenario_backtest : Backtest (list (list SignalEvent)) unit :=
  Backtest_init ["AAPL"] sample_frames 100000 0
    [[]; [long_signal "AAPL"]; [exit_signal "AAPL"]] tt.

(** The state in which the second Drain of the scenario starts. *)
Definition scenario_second_bar : Backtest (list (list SignalEvent)) unit :=
  {| events := [Some Market];
     signals := 0;
     orders := 0;
     fills := 0;
     data_handler :=
       {| symbol_list := ["AAPL"];
          symbol_data := {[ "AAPL" := [flat_bar 3 10] ]};
          latest_symbol_data := {[ "AAPL" := [flat_bar 1 10; flat_bar 2 10] ]};
          continue_backtest := true |};
     strategy := [[long_signal "AAPL"]; [exit_signal "AAPL"]];
     portfolio := sample_portfolio;
     execution_handler := tt |}.

(** A run whose strategy puts an object with an unknown [type] before a
    LONG signal. *)
Definition heartbeat_backtest : Backtest (list (list (option event))) unit :=
  Backtest_init ["AAPL"] sample_frames 100000 0
    [[Some (OtherEvent "HEARTBEAT"); Some (Signal (long_signal "AAPL"))]] tt.

(** A state of the loop in which a [None] waits at the head of the queue and
    ["AAPL"] is long. *)
Definition sample_rejected_backtest
    : Backtest (list (list (option event))) unit :=
  {| events := [None; Some Market];
     signals := 0;
     orders := 0;
     fills := 0;
     data_handler := sample_bars;
     strategy := [];
     portfolio :=
       set_current_positions sample_portfolio {[ "AAPL" := 100 ]};
     execution_handler := tt |}.


(** A feed for ["AAPL"] whose latest bar, at time [t], closes at [price]. *)
Definition priced_feed (t : timestamp) (price : Q) : DataHandler :=
  {| symbol_list := ["AAPL"];
     symbol_data := {[ "AAPL" := [] ]};
     latest_symbol_data := {[ "AAPL" := [flat_bar t price] ]};
     continue_backtest := true |}.

(** Calls on a ledger that buys 100 shares at 10 before its first snapshot
    and is then valued at a close of 9 and at a close of 10. *)
Definition early_fill_calls : list ledger_call :=
  [CallFill (priced_feed 1 10) (Fill sample_fill);
   CallTimeindex (priced_feed 2 9);
   CallTimeindex (priced_feed 3 10)].

(** The current holdings of a ledger built on ["AAPL"] with the capital
    100000.0, as binary64 numbers. *)
Definition sample_holdings_binary64 : gmap string float :=
  {[ "AAPL" := 0%float; "cash" := 100000%float; "commission" := 0%float;
     "total" := 100000%float ]}.

(** * Further parts of the sources *)

(** ** Windows on the released bars ([Strategies/hft_data.py]) *)

(** The slice [l[-n:]] for any integer [n]: the last [n] items (all of them
    when there are fewer) for a positive [n], the whole list for [n = 0],
    and [l[k:]] for [n = -k < 0]. *)
Definition slice_last {A : Type} (n : Z) (l : list A) : list A :=
  if 0 <? n then drop (length l - Z.to_nat n) l
  else drop (Z.to_nat (- n)) l.

(** [get_latest_bars(symbol, N)]. *)
Definition get_latest_bars (dh : DataHandler) (symbol : string) (N : Z)
    : result (list bar) :=
  bars_list <-- subscript (latest_symbol_data dh) symbol ;;
  Ok (slice_last N bars_list).

(** [[f(b) for b in bars]] in the error monad. *)
Fixpoint map_result {A B : Type} (f : A -> result B) (xs : list A)
    : result (list B) :=
  match xs with
  | [] => Ok []
  | x :: rest =>
      y <-- f x ;;
      ys <-- map_result f rest ;;
      Ok (y :: ys)
  end.

(** [get_latest_bars_values(symbol, val_type, N)]: the array of the chosen
    column over the last [N] bars. *)
Definition get_latest_bars_values (dh : DataHandler) (symbol val_type : string)
    (N : Z) : result (list Q) :=
  bars_list <-- get_latest_bars dh symbol N ;;
  map_result (fun b : bar => getattr_row (snd b) val_type) bars_list.

(** All the bars of a symbol, released or not, in feed order. *)
Definition bars_of (dh : DataHandler) (s : string) : list bar :=
  default [] (latest_symbol_data dh !! s) ++ default [] (symbol_data dh !! s).

(** ** Moving average crossover ([Strategies/mac.py]) *)

(** [np.mean] of an array: [NaN] for an empty one.  The mean is the exact
    one; the rounded mean of the code can differ from it in the last place,
    and the statements do not rest on how the means of two different
    windows compare. *)
Definition np_mean (xs : list Q) : option Q :=
  match xs with
  | [] => None
  | _ => Some (Qsum xs / inject_Z (Z.of_nat (length xs)))%Q
  end.

(** [a > b] on floats; false when either is [NaN]. *)
Definition fgt (a b : option Q) : bool :=
  match a, b with
  | Some x, Some y => Qgt_bool x y
  | _, _ => false
  end.

(** State of a [MovingAverageCrossStrategy].  [mac_clock_reads] counts the
    readings of the wall clock ([datetime.now]) made so far; the clock itself
    is a parameter of the handler. *)
Record MovingAverageCross : Type := mkMovingAverageCross {
  mac_symbol_list : list string;
  mac_short_window : Z;
  mac_long_window : Z;
  mac_bought : gmap string string;
  mac_clock_reads : nat
}.

(** [_calculate_initial_bought]. *)
Definition calculate_initial_bought (symbols : list string)
    : gmap string string :=
  foldl (fun bought s => <[s := "OUT"]> bought) ∅ symbols.

(** [MovingAverageCrossStrategy.__init__]. *)
Definition MovingAverageCross_init (bars : DataHandler)
    (short_window long_window : Z) : MovingAverageCross :=
  {| mac_symbol_list := symbol_list bars;
     mac_short_window := short_window;
     mac_long_window := long_window;
     mac_bought := calculate_initial_bought (symbol_list bars);
     mac_clock_reads := 0 |}.

(** The body of the loop over the symbols in [calculate_signals]; the
    second component of the state is what has been put on the queue.  The
    conjunctions are Python's: [self.bought[s]] is read only when the
    comparison before it holds. *)
Definition mac_symbol_step (clock : nat -> timestamp) (bars : DataHandler)
    (st : MovingAverageCross * list (option event)) (s : string)
    : result (MovingAverageCross * list (option event)) :=
  let strat := fst st in
  values <-- get_latest_bars_values bars s "close" (mac_long_window strat) ;;
  bar_date <-- get_latest_bar_datetime bars s ;;
  let short_sma := np_mean (slice_last (mac_short_window strat) values) in
  let long_sma := np_mean (slice_last (mac_long_window strat) values) in
  let dt := clock (mac_clock_reads strat) in
  let strat :=
    {| mac_symbol_list := mac_symbol_list strat;
       mac_short_window := mac_short_window strat;
       mac_long_window := mac_long_window strat;
       mac_bought := mac_bought strat;
       mac_clock_reads := S (mac_clock_reads strat) |} in
  enter <-- (if fgt short_sma long_sma
             then b <-- subscript (mac_bought strat) s ;; Ok (String.eqb b "OUT")
             else Ok false) ;;
  if enter : bool then
    Ok ({| mac_symbol_list := mac_symbol_list strat;
           mac_short_window := mac_short_window strat;
           mac_long_window := mac_long_window strat;
           mac_bought := <[s := "LONG"]> (mac_bought strat);
           mac_clock_reads := mac_clock_reads strat |},
        snd st ++ [Some (Signal (mkSignalEvent 1 s dt "LONG" 1))])
  else
    leave <-- (if fgt long_sma short_sma
               then b <-- subscript (mac_bought strat) s ;;
                    Ok (String.eqb b "LONG")
               else Ok false) ;;
    if leave : bool then
      Ok ({| mac_symbol_list := mac_symbol_list strat;
             mac_short_window := mac_short_window strat;
             mac_long_window := mac_long_window strat;
             mac_bought := <[s := "OUT"]> (mac_bought strat);
             mac_clock_reads := mac_clock_reads strat |},
          snd st ++ [Some (Signal (mkSignalEvent 1 s dt "EXIT" 1))])
    else Ok (strat, snd st).

(** [MovingAverageCrossStrategy.calculate_signals]. *)
Definition mac_calculate_signals (clock : nat -> timestamp)
    (strat : MovingAverageCross) (bars : DataHandler) (e : event)
    : result (MovingAverageCross * list (option event)) :=
  if String.eqb (event_type e) "MARKET" then
    for_each (mac_symbol_step clock bars) (mac_symbol_list strat) (strat, [])
  else Ok (strat, []).

(** ** Pairs signals ([Strategies/intraday_mr.py]) *)

(** The fields of an [IntradayOLSMRStrategy] that [calculate_xy_signals]
    reads or writes.  [hedge_ratio] is an attribute only once
    [calculate_signals_for_pairs] has set it. *)
Record IntradayOLSMR : Type := mkIntradayOLSMR {
  mr_zscore_low : Q;
  mr_zscore_high : Q;
  mr_pair : string * string;
  mr_datetime : timestamp;
  mr_long_market : bool;
  mr_short_market : bool;
  mr_hedge_ratio : option Q
}.

Definition set_markets (st : IntradayOLSMR) (long_market short_market : bool)
    : IntradayOLSMR :=
  {| mr_zscore_low := mr_zscore_low st;
     mr_zscore_high := mr_zscore_high st;
     mr_pair := mr_pair st;
     mr_datetime := mr_datetime st;
     mr_long_market := long_market;
     mr_short_market := short_market;
     mr_hedge_ratio := mr_hedge_ratio st |}.

(** [a <= b] on floats; false when [a] is [NaN]. *)
Definition fle (a : option Q) (b : Q) : bool :=
  match a with
  | Some x => Qle_bool x b
  | None => false
  end.

(** [a >= b] on floats; false when [a] is [NaN]. *)
Definition fge (a : option Q) (b : Q) : bool :=
  match a with
  | Some x => Qle_bool b x
  | None => false
  end.

(** [abs] on floats. *)
Definition fabs (a : option Q) : option Q := option_map Qabs a.

(** [calculate_xy_signals(zscore_last)]: the four guarded blocks in source
    order, each reading the flags as the blocks before it left them. *)
Definition calculate_xy_signals (st : IntradayOLSMR) (zscore_last : option Q)
    : result (IntradayOLSMR * (option SignalEvent * option SignalEvent)) :=
  let y_signal : option SignalEvent := None in
  let x_signal : option SignalEvent := None in
  let p0 := fst (mr_pair st) in
  let p1 := snd (mr_pair st) in
  let dt := mr_datetime st in
  match mr_hedge_ratio st with
  | None => Raise AttributeError
  | Some hedge_ratio =>
      let hr := Qabs hedge_ratio in
      let '(st, y_signal, x_signal) :=
        if fle zscore_last (- mr_zscore_high st) && negb (mr_long_market st)
        then (set_markets st true (mr_short_market st),
              Some (mkSignalEvent 1 p0 dt "LONG" 1),
              Some (mkSignalEvent 1 p1 dt "SHORT" hr))
        else (st, y_signal, x_signal) in
      let '(st, y_signal, x_signal) :=
        if fle (fabs zscore_last) (mr_zscore_low st) && mr_long_market st
        then (set_markets st false (mr_short_market st),
              Some (mkSignalEvent 1 p0 dt "EXIT" 1),
              Some (mkSignalEvent 1 p1 dt "EXIT" 1))
        else (st, y_signal, x_signal) in
      let '(st, y_signal, x_signal) :=
        if fge zscore_last (mr_zscore_high st) && negb (mr_short_market st)
        then (set_markets st (mr_long_market st) true,
              Some (mkSignalEvent 1 p0 dt "SHORT" 1),
              Some (mkSignalEvent 1 p1 dt "LONG" hr))
        else (st, y_signal, x_signal) in
      let '(st, y_signal, x_signal) :=
        if fle (fabs zscore_last) (mr_zscore_low st) && mr_short_market st
        then (set_markets st (mr_long_market st) false,
              Some (mkSignalEvent 1 p0 dt "EXIT" 1),
              Some (mkSignalEvent 1 p1 dt "EXIT" 1))
        else (st, y_signal, x_signal) in
      Ok (st, (y_signal, x_signal))
  end.

(** ** Further vocabulary *)


(** The signals for one symbol among the items a strategy has put, in
    order. *)
Definition signals_for (s : string) (puts : list (option event))
    : list SignalEvent :=
  flat_map (fun x => match x with
                     | Some (Signal sg) =>
                         if String.eqb (sig_symbol sg) s then [sg] else []
                     | _ => []
                     end) puts.

(** An intraday strategy with the default thresholds, a hedge ratio set
    and no open position. *)
Definition sample_pairs_strategy : IntradayOLSMR :=
  {| mr_zscore_low := 1 # 2;
     mr_zscore_high := 3;
     mr_pair := ("SPY", "QQQ");
     mr_datetime := 0;
     mr_long_market := false;
     mr_short_market := false;
     mr_hedge_ratio := Some (- (3 # 2))%Q |}.

(** A feed for ["AAPL"] that has released three bars, the last one
    higher, and a moving-average strategy on it with windows 1 and 3. *)
Definition rising_bars : DataHandler :=
  {| symbol_list := ["AAPL"];
     symbol_data := {[ "AAPL" := [] ]};
     latest_symbol_data :=
       {[ "AAPL" := [flat_bar 1 10; flat_bar 2 10; flat_bar 3 20] ]};
     continue_backtest := true |}.

Definition rising_strategy : MovingAverageCross :=
  MovingAverageCross_init rising_bars 1 3.

(** A wall clock that always reads the same instant. *)
Definition still_clock (reads : nat) : timestamp := 0.

(** * Properties *)

(** ** Basic facts *)

Ltac bind_inversion H :=
  unfold result_bind in H;
  repeat match type of H with
         | match ?m with Ok _ => _ | Raise _ => _ end = Ok _ =>
             let E := fresh "E" in destruct m eqn:E; [|discriminate H]
         end.

Lemma Qgt_bool_true (x y : Q) : Qgt_bool x y = true <-> (y < x)%Q.
Proof.
  unfold Qgt_bool. rewrite negb_true_iff.
  split.
  - intros H. apply Qnot_le_lt. intros Hle.
    apply Qle_bool_iff in Hle. congruence.
  - intros H. destruct (Qle_bool x y) eqn:E; [|reflexivity].
    apply Qle_bool_iff in E. exfalso. apply (Qlt_not_le _ _ H E).
Qed.

Lemma Qgt_bool_false (x y : Q) : Qgt_bool x y = false <-> (x <= y)%Q.
Proof.
  unfold Qgt_bool. rewrite negb_false_iff. apply Qle_bool_iff.
Qed.

Lemma subscript_Ok {V : Type} (d : gmap string V) (k : string) (v : V) :
  subscript d k = Ok v <-> d !! k = Some v.
Proof.
  unfold subscript. destruct (d !! k); split; intros H; congruence.
Qed.

Lemma fill_dir_sign (d : string) :
  d = "BUY" \/ d = "SELL" -> fill_dir d = direction_sign d.
Proof. intros [-> | ->]; reflexivity. Qed.

(** ** Commission of a fill *)

(** C7: a [FillEvent] built without a commission stores
    [max(quantity * 0.005, 1.00)]; a commission that is supplied is stored
    as it is. *)
Theorem FillEvent_commission_default :
  forall (timeindex : timestamp) (symbol exchange : string) (quantity : Z)
         (direction : string) (fill_cost : option Q),
    (fill_commission
       (FillEvent_init timeindex symbol exchange quantity direction fill_cost None)
     == Qmax (inject_Z quantity * (5 # 1000)) 1)%Q
    /\ forall c : Q,
        fill_commission
          (FillEvent_init timeindex symbol exchange quantity direction fill_cost
             (Some c)) = c.
Proof.
  intros timeindex symbol exchange quantity direction fill_cost.
  split; [|reflexivity].
  cbn [FillEvent_init fill_commission]. unfold calculate_commission.
  destruct (Qgt_bool (inject_Z quantity * (5 # 1000)) 1) eqn:E.
  - apply Qgt_bool_true in E. symmetry. apply Q.max_l. apply Qlt_le_weak, E.
  - apply Qgt_bool_false in E. symmetry. apply Q.max_r. exact E.
Qed.

(** C8, as the specification has it, fails for 50 shares: the commission is
    the floor 1.00, since [50 * 0.005 = 0.25]. *)
Lemma commission_of_50_is_not_1_25 :
  ~ Qeq (fill_commission (FillEvent_init 0 "AAPL" "ARCA" 50 "BUY" None None))
         (125 # 100).
Proof. vm_compute. discriminate. Qed.

(** C8 (amended): without an explicit commission, 50 shares and 100 shares
    both cost the floor 1.00, and 300 shares cost 1.50. *)
Theorem commission_examples :
  forall (timeindex : timestamp) (symbol exchange direction : string)
         (fill_cost : option Q),
    Qeq (fill_commission
           (FillEvent_init timeindex symbol exchange 50 direction fill_cost None))
        1
    /\ Qeq (fill_commission
             (FillEvent_init timeindex symbol exchange 100 direction fill_cost None))
          1
    /\ Qeq (fill_commission
             (FillEvent_init timeindex symbol exchange 300 direction fill_cost None))
          (15 # 10).
Proof. intros. split; [|split]; vm_compute; reflexivity. Qed.

(** ** Cash accounting *)

Lemma update_timeindex_keeps_current (bars : DataHandler) (p p' : Portfolio) :
  update_timeindex bars p = Ok p' ->
  current_holdings p' = current_holdings p
  /\ current_positions p' = current_positions p
  /\ pf_symbol_list p' = pf_symbol_list p.
Proof.
  unfold update_timeindex, result_bind. intros H.
  repeat match type of H with
         | match ?m with Ok _ => _ | Raise _ => _ end = Ok _ =>
             destruct m; [|discriminate]
         end.
  injection H as <-. auto.
Qed.

Lemma update_holdings_from_fill_cash (bars : DataHandler) (p : Portfolio)
    (f : FillEvent) (price held cash0 : Q) :
  fill_symbol f <> "cash" ->
  get_latest_bar_value bars (fill_symbol f) "close" = Ok price ->
  current_holdings p !! fill_symbol f = Some held ->
  current_holdings p !! "cash" = Some cash0 ->
  is_Some (current_holdings p !! "commission") ->
  is_Some (current_holdings p !! "total") ->
  exists p',
    update_holdings_from_fill bars p f = Ok p'
    /\ current_holdings p' !! "cash" =
       Some (cash0 - (inject_Z (fill_dir (fill_direction f)) * price
                      * inject_Z (fill_quantity f) + fill_commission f))%Q
    /\ current_positions p' = current_positions p.
Proof.
  intros Hsym Hprice Hheld Hcash [c0 Hc] [t0 Ht].
  unfold update_holdings_from_fill. rewrite Hprice. cbn [result_bind].
  rewrite (proj2 (subscript_Ok _ _ _) Hheld). cbn [result_bind].
  set (cost := (inject_Z (fill_dir (fill_direction f)) * price
                * inject_Z (fill_quantity f))%Q).
  set (h1 := <[fill_symbol f := (held + cost)%Q]> (current_holdings p)).
  assert (H1cash : h1 !! "cash" = Some cash0).
  { unfold h1. rewrite lookup_insert_ne; [exact Hcash | exact Hsym]. }
  assert (H1c : exists c1, h1 !! "commission" = Some c1).
  { unfold h1. destruct (decide (fill_symbol f = "commission")) as [E|E].
    - rewrite E, lookup_insert_eq. eauto.
    - rewrite lookup_insert_ne by exact E. eauto. }
  assert (H1t : exists t1, h1 !! "total" = Some t1).
  { unfold h1. destruct (decide (fill_symbol f = "total")) as [E|E].
    - rewrite E, lookup_insert_eq. eauto.
    - rewrite lookup_insert_ne by exact E. eauto. }
  destruct H1c as [c1 H1c]. destruct H1t as [t1 H1t].
  rewrite (proj2 (subscript_Ok _ _ _) H1c). cbn [result_bind].
  set (h2 := <["commission" := (c1 + fill_commission f)%Q]> h1).
  assert (H2cash : h2 !! "cash" = Some cash0).
  { unfold h2. rewrite lookup_insert_ne by discriminate. exact H1cash. }
  rewrite (proj2 (subscript_Ok _ _ _) H2cash). cbn [result_bind].
  set (h3 := <["cash" := (cash0 - (cost + fill_commission f))%Q]> h2).
  assert (H3t : h3 !! "total" = Some t1).
  { unfold h3, h2. rewrite !lookup_insert_ne by discriminate. exact H1t. }
  rewrite (proj2 (subscript_Ok _ _ _) H3t). cbn [result_bind].
  eexists. split; [reflexivity|]. split; [|reflexivity].
  cbn [set_current_holdings current_holdings].
  rewrite lookup_insert_ne by discriminate.
  unfold h3. apply lookup_insert_eq.
Qed.

(** C1, as the specification has it, fails in the arithmetic of the
    program: for the first BUY of 100 shares at a close of 10.03, with the
    default commission 1.0, on a cash of 100000.0, the new cash is 98996.0,
    so [cash_after - cash_before] is -1004.0, and [-(cost + commission)] is
    -1003.9999999999999. *)
Lemma cash_difference_is_rounded :
  exists (h1 : gmap string float) (cash1 : float),
    update_holdings_from_fill_binary64 sample_holdings_binary64
      "AAPL" "BUY" 100 1%float 10.03%float = Ok h1
    /\ h1 !! "cash" = Some cash1
    /\ cash1 = 98996%float
    /\ (cash1 - 100000)%float = (-1004)%float
    /\ (- (1 * 10.03 * 100 + 1))%float = (-1003.9999999999999)%float
    /\ (cash1 - 100000 =? - (1 * 10.03 * 100 + 1))%float = false.
Proof.
  eexists _, _. split; [vm_compute; reflexivity|].
  split; [vm_compute; reflexivity|].
  repeat split; vm_compute; reflexivity.
Qed.

(** C1 (amended): a BUY or SELL fill applied through [update_fill] sets the
    cash to [cash - (direction_sign * close * quantity + commission)], the
    close being the latest one of the fill's symbol: the product, the sum
    and the subtraction the code evaluates, in that order (the difference
    of the two cash values is this amount only up to rounding);
    [update_timeindex] leaves the current holdings, and so the cash, as
    they are, and so does the dispatch of every event that is not a fill
    ([update_signal] included).  The fill's symbol is one the ledger holds
    and the feed prices, and is not the key ["cash"] itself. *)
Theorem cash_changes_only_on_fill :
  (forall (bars : DataHandler) (p : Portfolio) (f : FillEvent)
          (position : Z) (price held cash0 : Q),
      fill_direction f = "BUY" \/ fill_direction f = "SELL" ->
      fill_symbol f <> "cash" ->
      current_positions p !! fill_symbol f = Some position ->
      get_latest_bar_value bars (fill_symbol f) "close" = Ok price ->
      current_holdings p !! fill_symbol f = Some held ->
      current_holdings p !! "cash" = Some cash0 ->
      is_Some (current_holdings p !! "commission") ->
      is_Some (current_holdings p !! "total") ->
      exists (p' : Portfolio) (cash1 : Q),
        update_fill bars p (Fill f) = Ok p'
        /\ current_holdings p' !! "cash" = Some cash1
        /\ cash1 =
           (cash0 - (inject_Z (direction_sign (fill_direction f)) * price
                     * inject_Z (fill_quantity f) + fill_commission f))%Q)
  /\ (forall (bars : DataHandler) (p p' : Portfolio),
        update_timeindex bars p = Ok p' ->
        current_holdings p' = current_holdings p)
  /\ (forall (StrategyState ExecutionState : Type)
             (calculate_signals :
                StrategyState -> DataHandler -> event ->
                result (StrategyState * list (option event)))
             (execute_order :
                ExecutionState -> event ->
                result (ExecutionState * list (option event)))
             (bt bt' : Backtest StrategyState ExecutionState) (e : event),
        event_type e <> "FILL" ->
        dispatch calculate_signals execute_order bt e = Ok bt' ->
        current_holdings (portfolio bt') = current_holdings (portfolio bt)).
Proof.
  split; [|split].
  - intros bars p f position price held cash0 Hdir Hsym Hpos Hprice Hheld
           Hcash Hc Ht.
    unfold update_fill. cbn [event_type]. 
    replace (String.eqb "FILL" "FILL") with true by reflexivity.
    unfold update_positions_from_fill.
    rewrite (proj2 (subscript_Ok _ _ _) Hpos). cbn [result_bind].
    destruct (update_holdings_from_fill_cash bars
                (set_current_positions p
                   (<[fill_symbol f :=
                        position + fill_dir (fill_direction f) * fill_quantity f]>
                      (current_positions p)))
                f price held cash0 Hsym Hprice Hheld Hcash Hc Ht)
      as (p' & Hrun & Hcash' & _).
    rewrite (fill_dir_sign _ Hdir) in Hcash'.
    eexists p', _. split; [exact Hrun|]. split; [exact Hcash'|].
    reflexivity.
  - intros bars p p' H. apply (update_timeindex_keeps_current _ _ _ H).
  - intros SS ES cs eo bt bt' e Hty. unfold dispatch.
    destruct (String.eqb (event_type e) "MARKET").
    { unfold result_bind.
      destruct (cs _ _ _); [|discriminate].
      destruct (update_timeindex _ _) eqn:E; [|discriminate].
      intros [= <-]. cbn. apply (update_timeindex_keeps_current _ _ _ E). }
    destruct (String.eqb (event_type e) "SIGNAL").
    { unfold result_bind. destruct (update_signal _ _ _); [|discriminate].
      intros [= <-]. reflexivity. }
    destruct (String.eqb (event_type e) "ORDER").
    { unfold result_bind. destruct (eo _ _); [|discriminate].
      intros [= <-]. reflexivity. }
    destruct (String.eqb (event_type e) "FILL") eqn:E.
    { apply String.eqb_eq in E. contradiction. }
    intros [= <-]. reflexivity.
Qed.

Lemma cash_changes_only_on_fill_witness :
  exists (p' : Portfolio) (cash1 : Q),
    update_fill sample_bars sample_portfolio (Fill sample_fill) = Ok p'
    /\ current_holdings p' !! "cash" = Some cash1
    /\ cash1 = (100000 - (inject_Z 1 * 10 * inject_Z 100 + 1))%Q.
Proof.
  destruct (proj1 cash_changes_only_on_fill sample_bars sample_portfolio
              sample_fill 0 10%Q 0%Q 100000%Q)
    as (p' & cash1 & H1 & H2 & H3).
  - left. reflexivity.
  - discriminate.
  - reflexivity.
  - reflexivity.
  - reflexivity.
  - reflexivity.
  - exists 0%Q. reflexivity.
  - exists 100000%Q. reflexivity.
  - exists p', cash1. split; [exact H1|]. split; [exact H2|]. exact H3.
Defined.

(** ** Sizing of orders *)

Lemma update_holdings_from_fill_positions (bars : DataHandler)
    (p p' : Portfolio) (f : FillEvent) :
  update_holdings_from_fill bars p f = Ok p' ->
  current_positions p' = current_positions p.
Proof.
  unfold update_holdings_from_fill. intros H. bind_inversion H.
  injection H as <-. reflexivity.
Qed.

Lemma update_fill_position (bars : DataHandler) (p p' : Portfolio)
    (f : FillEvent) (cur : Z) :
  current_positions p !! fill_symbol f = Some cur ->
  update_fill bars p (Fill f) = Ok p' ->
  current_positions p' !! fill_symbol f =
  Some (cur + fill_dir (fill_direction f) * fill_quantity f).
Proof.
  intros Hcur. unfold update_fill. cbn [event_type].
  replace (String.eqb "FILL" "FILL") with true by reflexivity.
  unfold update_positions_from_fill.
  rewrite (proj2 (subscript_Ok _ _ _) Hcur). cbn [result_bind].
  intros H. apply update_holdings_from_fill_positions in H.
  rewrite H. cbn [set_current_positions current_positions].
  apply lookup_insert_eq.
Qed.

Lemma generate_naive_order_cases (p : Portfolio) (s : SignalEvent) (cur : Z) :
  current_positions p !! sig_symbol s = Some cur ->
  exists o : option event,
    generate_naive_order p s = Ok o
    /\ (sig_signal_type s = "LONG" ->
        (cur = 0 ->
         o = Some (Order (mkOrderEvent (sig_symbol s) "MKT" 100 "BUY")))
        /\ (cur <> 0 -> o = None))
    /\ (sig_signal_type s = "SHORT" ->
        (cur = 0 ->
         o = Some (Order (mkOrderEvent (sig_symbol s) "MKT" 100 "SELL")))
        /\ (cur <> 0 -> o = None))
    /\ (sig_signal_type s = "EXIT" ->
        (0 < cur ->
         o = Some (Order (mkOrderEvent (sig_symbol s) "MKT" (Z.abs cur) "SELL")))
        /\ (cur < 0 ->
            o = Some (Order (mkOrderEvent (sig_symbol s) "MKT" (Z.abs cur) "BUY")))
        /\ (cur = 0 -> o = None))
    /\ (sig_signal_type s <> "LONG" -> sig_signal_type s <> "SHORT" ->
        sig_signal_type s <> "EXIT" -> o = None).
Proof.
  intros Hcur. unfold generate_naive_order.
  rewrite (proj2 (subscript_Ok _ _ _) Hcur). cbn [result_bind].
  eexists. split; [reflexivity|].
  destruct (String.eqb_spec (sig_signal_type s) "LONG") as [EL|EL];
    destruct (String.eqb_spec (sig_signal_type s) "SHORT") as [ES|ES];
    destruct (String.eqb_spec (sig_signal_type s) "EXIT") as [EX|EX];
    try (rewrite EL in ES; discriminate ES);
    try (rewrite EL in EX; discriminate EX);
    try (rewrite ES in EX; discriminate EX);
    destruct (Z.eqb_spec cur 0) as [E0|E0];
    destruct (Z.ltb_spec 0 cur) as [Ep|Ep];
    destruct (Z.ltb_spec cur 0) as [En|En];
    try lia; cbn [andb];
    repeat split; intros; try reflexivity; try congruence; try lia.
Qed.

Lemma update_signal_puts (p : Portfolio) (q : Queue) (s : SignalEvent)
    (o : option event) :
  generate_naive_order p s = Ok o ->
  update_signal p q (Signal s) = Ok (q ++ [o]).
Proof.
  intros Hgen. unfold update_signal.
  cbn [event_type String.eqb Ascii.eqb Bool.eqb].
  rewrite Hgen. reflexivity.
Qed.

(** C4: a LONG (SHORT) signal yields one market order to BUY (SELL) 100
    exactly when the symbol is flat; an EXIT signal yields one order closing
    the whole position (SELL for a long one, BUY for a short one) exactly
    when the position is not zero; every other signal yields no order; what
    [update_signal] puts on the queue is that one result.  So of two
    consecutive LONG signals, the first on a flat symbol and the second
    after the fill of the first order, exactly one yields an order. *)
Theorem naive_order_sizing :
  forall (p : Portfolio) (s : SignalEvent) (cur : Z),
    current_positions p !! sig_symbol s = Some cur ->
    (exists o : option event,
        generate_naive_order p s = Ok o
        /\ (forall q : Queue, update_signal p q (Signal s) = Ok (q ++ [o]))
        /\ (sig_signal_type s = "LONG" ->
            (cur = 0 ->
             o = Some (Order (mkOrderEvent (sig_symbol s) "MKT" 100 "BUY")))
            /\ (cur <> 0 -> o = None))
        /\ (sig_signal_type s = "SHORT" ->
            (cur = 0 ->
             o = Some (Order (mkOrderEvent (sig_symbol s) "MKT" 100 "SELL")))
            /\ (cur <> 0 -> o = None))
        /\ (sig_signal_type s = "EXIT" ->
            (0 < cur ->
             o = Some (Order (mkOrderEvent (sig_symbol s) "MKT" (Z.abs cur)
                                "SELL")))
            /\ (cur < 0 ->
                o = Some (Order (mkOrderEvent (sig_symbol s) "MKT" (Z.abs cur)
                                   "BUY")))
            /\ (cur = 0 -> o = None))
        /\ (sig_signal_type s <> "LONG" -> sig_signal_type s <> "SHORT" ->
            sig_signal_type s <> "EXIT" -> o = None))
    /\ (sig_signal_type s = "LONG" -> cur = 0 ->
        forall (bars : DataHandler) (f : FillEvent) (p1 : Portfolio),
          fill_symbol f = sig_symbol s ->
          fill_direction f = "BUY" ->
          fill_quantity f = 100 ->
          update_fill bars p (Fill f) = Ok p1 ->
          exists o1 o2 : option event,
            generate_naive_order p s = Ok o1
            /\ generate_naive_order p1 s = Ok o2
            /\ count_orders [o1; o2] = 1%nat).
Proof.
  intros p s cur Hcur. split.
  - destruct (generate_naive_order_cases p s cur Hcur)
      as (o & Hgen & HL & HS & HX & HO).
    exists o. split; [exact Hgen|]. split; [|auto].
    intros q. apply update_signal_puts, Hgen.
  - intros HL H0 bars f p1 Hsym Hdir Hqty Hfill.
    destruct (generate_naive_order_cases p s cur Hcur)
      as (o1 & Hgen1 & HL1 & _).
    assert (Hcur1 : current_positions p1 !! sig_symbol s = Some 100).
    { rewrite <- Hsym in Hcur |- *.
      rewrite (update_fill_position bars p p1 f cur Hcur Hfill).
      rewrite Hdir, Hqty, H0. reflexivity. }
    destruct (generate_naive_order_cases p1 s 100 Hcur1)
      as (o2 & Hgen2 & HL2 & _).
    exists o1, o2. split; [exact Hgen1|]. split; [exact Hgen2|].
    rewrite (proj1 (HL1 HL) H0).
    rewrite (proj2 (HL2 HL)) by discriminate. reflexivity.
Qed.

Lemma naive_order_sizing_witness :
  (exists o : option event,
      generate_naive_order sample_portfolio (long_signal "AAPL") = Ok o
      /\ o = Some (Order (mkOrderEvent "AAPL" "MKT" 100 "BUY")))
  /\ exists (p1 : Portfolio) (o1 o2 : option event),
      update_fill sample_bars sample_portfolio (Fill sample_fill) = Ok p1
      /\ generate_naive_order sample_portfolio (long_signal "AAPL") = Ok o1
      /\ generate_naive_order p1 (long_signal "AAPL") = Ok o2
      /\ count_orders [o1; o2] = 1%nat.
Proof.
  pose proof (naive_order_sizing sample_portfolio (long_signal "AAPL") 0
                eq_refl) as [Hone Htwo].
  split.
  - destruct Hone as (o & Hgen & _ & HL & _).
    exists o. split; [exact Hgen|]. exact (proj1 (HL eq_refl) eq_refl).
  - destruct (update_fill sample_bars sample_portfolio (Fill sample_fill))
      as [p1|] eqn:E; [|vm_compute in E; discriminate E].
    destruct (Htwo eq_refl eq_refl sample_bars sample_fill p1
                eq_refl eq_refl eq_refl E) as (o1 & o2 & H1 & H2 & H3).
    exists p1, o1, o2. auto.
Defined.

(** ** The Drain phase *)

Section DrainFacts.

Context {StrategyState ExecutionState : Type}.

Variable calculate_signals :
  StrategyState -> DataHandler -> event ->
  result (StrategyState * list (option event)).

Variable execute_order :
  ExecutionState -> event -> result (ExecutionState * list (option event)).

Local Abbreviation BT := (Backtest StrategyState ExecutionState).
Local Abbreviation dispatch_ := (dispatch calculate_signals execute_order).
Local Abbreviation handle_ := (handle calculate_signals execute_order).
Local Abbreviation drain_ := (drain calculate_signals execute_order).

Lemma enqueued_by_app (rest new : Queue) (bt' : BT) :
  events bt' = rest ++ new -> enqueued_by rest bt' = new.
Proof.
  intros H. unfold enqueued_by. rewrite H. apply drop_app_length.
Qed.

(** An item that [handle] leaves alone is just removed from the queue. *)
Lemma drain_skip (bt : BT) (x : option event) (rest : Queue) (fuel : nat) :
  events bt = x :: rest ->
  handle_ (set_events bt rest) x = Ok (set_events bt rest) ->
  drain_ (S fuel) bt =
  match drain_ fuel (set_events bt rest) with
  | Finished (bt', (taken, added)) => Finished (bt', (x :: taken, added))
  | Aborted err => Aborted err
  | OutOfFuel => OutOfFuel
  end.
Proof.
  intros Hq Hh. cbn [drain]. rewrite Hq. cbn [get]. rewrite Hh.
  rewrite (enqueued_by_app rest [] (set_events bt rest))
    by (cbn; symmetry; apply app_nil_r).
  reflexivity.
Qed.

Lemma dispatch_unknown (bt : BT) (e : event) :
  event_type e <> "MARKET" -> event_type e <> "SIGNAL" ->
  event_type e <> "ORDER" -> event_type e <> "FILL" ->
  dispatch_ bt e = Ok bt.
Proof.
  intros HM HS HO HF. unfold dispatch.
  destruct (String.eqb_spec (event_type e) "MARKET"); [contradiction|].
  destruct (String.eqb_spec (event_type e) "SIGNAL"); [contradiction|].
  destruct (String.eqb_spec (event_type e) "ORDER"); [contradiction|].
  destruct (String.eqb_spec (event_type e) "FILL"); [contradiction|].
  reflexivity.
Qed.

Lemma count_type_single (ty : string) (x : option event) :
  count_type ty [x] =
  match x with
  | Some e => if String.eqb (event_type e) ty then 1 else 0
  | None => 0
  end.
Proof.
  unfold count_type. cbn [List.filter].
  destruct x as [e|]; [|reflexivity].
  destruct (String.eqb (event_type e) ty); reflexivity.
Qed.

(** Whatever [handle] does, the queue only grows at its tail; a SIGNAL
    event is counted once, and nothing else is. *)
Lemma handle_appends (bt bt' : BT) (x : option event) :
  handle_ bt x = Ok bt' ->
  (exists new : Queue, events bt' = events bt ++ new)
  /\ signals bt' = signals bt + count_type "SIGNAL" [x].
Proof.
  rewrite count_type_single.
  destruct x as [e|]; cbn [handle].
  2:{ intros [= <-]. split; [exists []; symmetry; apply app_nil_r|lia]. }
  unfold dispatch.
  destruct (String.eqb_spec (event_type e) "MARKET") as [EM|EM].
  { rewrite EM. cbn [String.eqb Ascii.eqb Bool.eqb].
    intros H. bind_inversion H. injection H as <-.
    cbn [events signals]. split; [eauto|lia]. }
  destruct (String.eqb_spec (event_type e) "SIGNAL") as [ES|ES].
  { intros H. bind_inversion H. injection H as <-.
    cbn [events signals]. split; [|lia].
    unfold update_signal in E. rewrite ES in E.
    cbn [String.eqb Ascii.eqb Bool.eqb] in E.
    destruct e; try discriminate E. bind_inversion E.
    injection E as <-. unfold put. eauto. }
  destruct (String.eqb_spec (event_type e) "ORDER") as [EO|EO].
  { intros H. bind_inversion H. injection H as <-.
    cbn [events signals]. split; [eauto|lia]. }
  destruct (String.eqb_spec (event_type e) "FILL") as [EF|EF].
  { intros H. bind_inversion H. injection H as <-.
    cbn [events signals]. split; [exists []; symmetry; apply app_nil_r|lia]. }
  intros [= <-]. split; [exists []; symmetry; apply app_nil_r|lia].
Qed.

Lemma count_type_app (ty : string) (q1 q2 : Queue) :
  count_type ty (q1 ++ q2) = count_type ty q1 + count_type ty q2.
Proof.
  unfold count_type. rewrite List.filter_app, length_app. lia.
Qed.

(** A Drain that finishes has taken, in this order, the items waiting at
    its start and then the items put meanwhile. *)
Lemma drain_finished (fuel : nat) :
  forall (bt bt' : BT) (taken added : Queue),
    drain_ fuel bt = Finished (bt', (taken, added)) ->
    events bt' = []
    /\ taken = events bt ++ added
    /\ signals bt' = signals bt + count_type "SIGNAL" taken.
Proof.
  induction fuel as [|fuel IH]; intros bt bt' taken added H; [discriminate|].
  cbn [drain] in H.
  destruct (events bt) as [|x rest] eqn:Hq; cbn [get] in H.
  { injection H as <- <- <-. rewrite Hq. split; [reflexivity|].
    split; [reflexivity|]. unfold count_type. cbn. lia. }
  destruct (handle_ (set_events bt rest) x) as [bt1|] eqn:Hh; [|discriminate].
  destruct (drain_ fuel bt1) as [[bt2 [tk ad]]| |] eqn:Hd; try discriminate.
  injection H as <- <- <-.
  destruct (handle_appends _ _ _ Hh) as [[new Hnew] Hsig].
  cbn [set_events events signals] in Hnew, Hsig.
  destruct (IH _ _ _ _ Hd) as (Hempty & Htaken & Hcount).
  split; [exact Hempty|].
  rewrite (enqueued_by_app rest new bt1 Hnew).
  split.
  - rewrite Htaken, Hnew. cbn. now rewrite <- app_assoc.
  - rewrite Hcount, Hsig.
    change (x :: tk) with ([x] ++ tk). rewrite count_type_app. lia.
Qed.

(** More fuel does not change the result of a Drain that ended. *)
Lemma drain_fuel_mono (fuel : nat) :
  forall (bt : BT) (extra : nat),
    drain_ fuel bt <> OutOfFuel ->
    drain_ (fuel + extra) bt = drain_ fuel bt.
Proof.
  induction fuel as [|fuel IH]; intros bt extra H; [contradiction|].
  cbn [drain Nat.add] in H |- *.
  destruct (get (events bt)) as [[x rest]|]; [|reflexivity].
  destruct (handle_ (set_events bt rest) x) as [bt1|]; [|reflexivity].
  rewrite IH; [reflexivity|].
  intros Hd. rewrite Hd in H. contradiction.
Qed.

End DrainFacts.

(** ** Items the Drain phase does not dispatch *)

Section SkippedItems.

Context {StrategyState ExecutionState : Type}.

Variable calculate_signals :
  StrategyState -> DataHandler -> event ->
  result (StrategyState * list (option event)).

Variable execute_order :
  ExecutionState -> event -> result (ExecutionState * list (option event)).

Local Abbreviation BT := (Backtest StrategyState ExecutionState).
Local Abbreviation dispatch_ := (dispatch calculate_signals execute_order).
Local Abbreviation handle_ := (handle calculate_signals execute_order).
Local Abbreviation drain_ := (drain calculate_signals execute_order).

(** C10: a signal whose sizing preconditions fail (LONG or SHORT on a
    symbol that is not flat, EXIT on a flat symbol) makes [update_signal]
    put [None] on the queue; its dispatch counts the signal and touches
    nothing else.  When the Drain phase takes a [None] from the queue it
    does not dispatch it: the state stays as it is (counters, ledger,
    collaborators) and the loop goes on with the rest of the queue. *)
Theorem rejected_signal_puts_None :
  forall (bt : BT) (s : SignalEvent) (cur : Z),
    current_positions (portfolio bt) !! sig_symbol s = Some cur ->
    ((sig_signal_type s = "LONG" \/ sig_signal_type s = "SHORT") /\ cur <> 0)
    \/ (sig_signal_type s = "EXIT" /\ cur = 0) ->
    (forall q : Queue,
        update_signal (portfolio bt) q (Signal s) = Ok (q ++ [None]))
    /\ dispatch_ bt (Signal s) =
       Ok {| events := events bt ++ [None];
             signals := signals bt + 1;
             orders := orders bt;
             fills := fills bt;
             data_handler := data_handler bt;
             strategy := strategy bt;
             portfolio := portfolio bt;
             execution_handler := execution_handler bt |}
    /\ (forall (bt0 : BT) (rest : Queue),
           events bt0 = None :: rest ->
           handle_ (set_events bt0 rest) None = Ok (set_events bt0 rest)
           /\ forall fuel : nat,
               drain_ (S fuel) bt0 =
               match drain_ fuel (set_events bt0 rest) with
               | Finished (bt', (taken, added)) =>
                   Finished (bt', (None :: taken, added))
               | Aborted err => Aborted err
               | OutOfFuel => OutOfFuel
               end).
Proof.
  intros bt s cur Hcur Hpre.
  destruct (generate_naive_order_cases (portfolio bt) s cur Hcur)
    as (o & Hgen & HL & HS & HX & _).
  pose proof (fun q => update_signal_puts (portfolio bt) q s o Hgen) as Hput.
  assert (Ho : o = None).
  { destruct Hpre as [[[E|E] Hne]|[E H0]].
    - exact (proj2 (HL E) Hne).
    - exact (proj2 (HS E) Hne).
    - exact (proj2 (proj2 (HX E)) H0). }
  subst o. split; [exact Hput|]. split.
  - unfold dispatch. cbn [event_type String.eqb Ascii.eqb Bool.eqb].
    rewrite Hput. reflexivity.
  - intros bt0 rest Hq. split; [reflexivity|].
    intros fuel. apply drain_skip; [exact Hq|reflexivity].
Qed.

(** C9 (amended): an event whose [type] is none of ['MARKET'], ['SIGNAL'],
    ['ORDER'], ['FILL'] falls through the dispatch chain: no handler runs,
    no counter moves, no error is raised, and the Drain phase continues
    with the next item of the queue. *)
Theorem unknown_event_is_skipped :
  forall (bt : BT) (e : event) (rest : Queue),
    event_type e <> "MARKET" -> event_type e <> "SIGNAL" ->
    event_type e <> "ORDER" -> event_type e <> "FILL" ->
    dispatch_ bt e = Ok bt
    /\ (events bt = Some e :: rest ->
        forall fuel : nat,
          drain_ (S fuel) bt =
          match drain_ fuel (set_events bt rest) with
          | Finished (bt', (taken, added)) =>
              Finished (bt', (Some e :: taken, added))
          | Aborted err => Aborted err
          | OutOfFuel => OutOfFuel
          end).
Proof.
  intros bt e rest HM HS HO HF. split.
  - apply dispatch_unknown; assumption.
  - intros Hq fuel. apply drain_skip; [exact Hq|].
    cbn [handle]. apply dispatch_unknown; assumption.
Qed.

End SkippedItems.

(** C9, as the specification has it, fails: a run whose queue receives an
    object of type ['HEARTBEAT'] is not aborted; it ends normally, and the
    LONG signal queued behind that object is counted, sized and filled. *)
Lemma unknown_event_does_not_abort :
  match run_backtest scripted_signals simulated_execute_order 10
          heartbeat_backtest with
  | Finished bt => signals bt = 1 /\ orders bt = 1 /\ fills bt = 1
  | Aborted _ => False
  | OutOfFuel => False
  end.
Proof. vm_compute. auto. Qed.

Lemma rejected_signal_puts_None_witness :
  update_signal (portfolio sample_rejected_backtest) []
    (Signal (long_signal "AAPL")) = Ok [None]
  /\ handle scripted_signals simulated_execute_order
       (set_events sample_rejected_backtest [Some Market]) None
     = Ok (set_events sample_rejected_backtest [Some Market]).
Proof.
  destruct (rejected_signal_puts_None scripted_signals
              simulated_execute_order sample_rejected_backtest
              (long_signal "AAPL") 100) as (Hput & _ & Hnone).
  - reflexivity.
  - left. split; [left; reflexivity | discriminate].
  - split; [exact (Hput []) |].
    exact (proj1 (Hnone sample_rejected_backtest [Some Market] eq_refl)).
Defined.

Lemma unknown_event_is_skipped_witness :
  dispatch scripted_signals simulated_execute_order sample_rejected_backtest
    (OtherEvent "HEARTBEAT") = Ok sample_rejected_backtest.
Proof.
  refine (proj1 (unknown_event_is_skipped scripted_signals
                   simulated_execute_order sample_rejected_backtest
                   (OtherEvent "HEARTBEAT") [] _ _ _ _));
    discriminate.
Defined.

(** ** Order of dispatch and termination of the Drain phase *)

Lemma workload_lt_wf : well_founded workload_lt.
Proof.
  unfold workload_lt.
  repeat (apply wf_slexprod; [apply lt_wf|]). apply lt_wf.
Qed.

Lemma count_stage_app (n : nat) (q1 q2 : Queue) :
  count_stage n (q1 ++ q2) = (count_stage n q1 + count_stage n q2)%nat.
Proof. unfold count_stage. now rewrite List.filter_app, length_app. Qed.

Lemma count_stage_cons (n : nat) (x : option event) (q : Queue) :
  count_stage n (x :: q) =
  ((if Nat.eqb (stage x) n then 1 else 0) + count_stage n q)%nat.
Proof.
  unfold count_stage. cbn [List.filter].
  destruct (Nat.eqb (stage x) n); reflexivity.
Qed.

Lemma count_stage_below (n : nat) (x : option event) (new : Queue) :
  Forall (fun y => (stage y < stage x)%nat) new ->
  (stage x <= n)%nat ->
  count_stage n new = 0%nat.
Proof.
  intros Hall Hle. induction Hall as [|y new Hy _ IH]; [reflexivity|].
  rewrite count_stage_cons, IH.
  destruct (Nat.eqb_spec (stage y) n); [lia|reflexivity].
Qed.

Lemma stage_le_3 (x : option event) : (stage x <= 3)%nat.
Proof.
  destruct x as [e|]; cbn [stage]; [|lia].
  repeat match goal with
         | |- context [String.eqb ?a ?b] => destruct (String.eqb a b)
         end; lia.
Qed.

(** Handling the head of the queue strictly reduces the workload when what
    is put is of a later stage. *)
Lemma workload_decreases (x : option event) (rest new : Queue) :
  Forall (fun y => (stage y < stage x)%nat) new ->
  workload_lt (workload (rest ++ new)) (workload (x :: rest)).
Proof.
  intros Hnew. unfold workload, workload_lt.
  rewrite !count_stage_app, !count_stage_cons.
  pose proof (stage_le_3 x) as H3.
  destruct (Nat.eqb_spec (stage x) 3) as [E3|E3].
  { apply left_slex.
    rewrite (count_stage_below 3 x new Hnew) by lia. lia. }
  rewrite (count_stage_below 3 x new Hnew) by lia.
  rewrite Nat.add_0_r. cbn [Nat.add]. apply right_slex.
  destruct (Nat.eqb_spec (stage x) 2) as [E2|E2].
  { apply left_slex.
    rewrite (count_stage_below 2 x new Hnew) by lia. lia. }
  rewrite (count_stage_below 2 x new Hnew) by lia.
  rewrite Nat.add_0_r. cbn [Nat.add]. apply right_slex.
  destruct (Nat.eqb_spec (stage x) 1) as [E1|E1].
  { apply left_slex.
    rewrite (count_stage_below 1 x new Hnew) by lia. lia. }
  rewrite (count_stage_below 1 x new Hnew) by lia.
  rewrite Nat.add_0_r. cbn [Nat.add]. apply right_slex.
  assert (E0 : stage x = 0%nat) by lia.
  rewrite E0 in Hnew.
  destruct Hnew as [|y new Hy _]; [|lia].
  rewrite app_nil_r. cbn [length]. lia.
Qed.

Section DrainTermination.

Context {StrategyState ExecutionState : Type}.

Variable calculate_signals :
  StrategyState -> DataHandler -> event ->
  result (StrategyState * list (option event)).

Variable execute_order :
  ExecutionState -> event -> result (ExecutionState * list (option event)).

Hypothesis strategy_contract : puts_only_signals calculate_signals.
Hypothesis execution_contract : puts_only_fills execute_order.

Local Abbreviation BT := (Backtest StrategyState ExecutionState).
Local Abbreviation handle_ := (handle calculate_signals execute_order).
Local Abbreviation drain_ := (drain calculate_signals execute_order).

Lemma handle_puts_later_stage (bt bt' : BT) (x : option event) :
  handle_ bt x = Ok bt' ->
  exists new : Queue,
    events bt' = events bt ++ new
    /\ Forall (fun y => (stage y < stage x)%nat) new.
Proof.
  destruct x as [e|]; cbn [handle].
  2:{ intros [= <-]. exists []. split; [symmetry; apply app_nil_r|constructor]. }
  unfold dispatch. cbn [stage].
  destruct (String.eqb_spec (event_type e) "MARKET") as [EM|EM].
  { intros H. bind_inversion H. injection H as <-. cbn [events].
    destruct a as [st' puts]. exists puts. split; [reflexivity|].
    apply strategy_contract in E.
    eapply Forall_impl; [exact E|].
    intros y [s ->]. cbn. lia. }
  destruct (String.eqb_spec (event_type e) "SIGNAL") as [ES|ES].
  { intros H. bind_inversion H. injection H as <-. cbn [events].
    unfold update_signal in E. rewrite ES in E.
    cbn [String.eqb Ascii.eqb Bool.eqb] in E.
    destruct e; try discriminate E. bind_inversion E.
    injection E as <-. unfold put. eexists. split; [reflexivity|].
    constructor; [|constructor].
    unfold generate_naive_order in E0. bind_inversion E0.
    injection E0 as <-.
    repeat match goal with
           | |- context [if ?b then _ else _] => destruct b
           end; cbn; lia. }
  destruct (String.eqb_spec (event_type e) "ORDER") as [EO|EO].
  { intros H. bind_inversion H. injection H as <-. cbn [events].
    destruct a as [st' puts]. exists puts. split; [reflexivity|].
    apply execution_contract in E.
    eapply Forall_impl; [exact E|].
    intros y [-> | [f ->]]; cbn; lia. }
  destruct (String.eqb_spec (event_type e) "FILL") as [EF|EF].
  { intros H. bind_inversion H. injection H as <-. cbn [events].
    exists []. split; [symmetry; apply app_nil_r|constructor]. }
  intros [= <-]. exists []. split; [symmetry; apply app_nil_r|constructor].
Qed.

(** With collaborators that keep their contracts every Drain ends: it
    empties the queue or it is aborted by an exception. *)
Lemma drain_terminates (bt : BT) :
  exists fuel : nat, drain_ fuel bt <> OutOfFuel.
Proof.
  remember (workload (events bt)) as w eqn:Hw.
  revert bt Hw.
  induction (workload_lt_wf w) as [w _ IH]. intros bt ->.
  destruct (events bt) as [|x rest] eqn:Hq.
  { exists 1%nat. cbn [drain]. rewrite Hq. discriminate. }
  destruct (handle_ (set_events bt rest) x) as [bt1|err] eqn:Hh.
  2:{ exists 1%nat. cbn [drain]. rewrite Hq. cbn [get]. rewrite Hh.
      discriminate. }
  destruct (handle_puts_later_stage _ _ _ Hh) as (new & Hnew & Hstage).
  cbn [set_events events] in Hnew.
  destruct (IH (workload (events bt1))) with (bt := bt1) as [fuel Hfuel].
  { rewrite Hnew. apply workload_decreases, Hstage. }
  { reflexivity. }
  exists (S fuel). cbn [drain]. rewrite Hq. cbn [get]. rewrite Hh.
  destruct (drain_ fuel bt1) as [[bt2 [tk ad]]| |]; try discriminate.
  contradiction.
Qed.

End DrainTermination.

Lemma replay_signals_contract : puts_only_signals replay_signals.
Proof.
  intros st bars e st' puts. unfold replay_signals.
  destruct st as [|group rest]; intros [= <- <-]; [constructor|].
  induction group as [|s group IH]; cbn [map]; constructor; eauto.
Qed.

Lemma simulated_execute_order_contract : puts_only_fills simulated_execute_order.
Proof.
  intros st e st' puts. unfold simulated_execute_order.
  destruct e; try discriminate. intros [= <- <-].
  constructor; [right; eauto | constructor].
Qed.

(** C5: a Drain that empties the queue has taken the items in exactly the
    order of their arrival: first those waiting at its start, then those put
    while it ran, each group in the order of the puts; so an item put while
    a [MarketEvent] is handled, a [SignalEvent] in particular, is taken and
    dispatched in the same pass, and every SIGNAL item taken is counted.
    With collaborators that keep their contracts a Drain always ends (by
    emptying the queue or by an exception), and extra fuel does not change
    how.  The outer loop starts the next Advance only from the state in
    which the Drain left the queue empty. *)
Theorem drain_is_fifo :
  forall (StrategyState ExecutionState : Type)
         (calculate_signals :
            StrategyState -> DataHandler -> event ->
            result (StrategyState * list (option event)))
         (execute_order :
            ExecutionState -> event ->
            result (ExecutionState * list (option event))),
    (forall (fuel : nat) (bt bt' : Backtest StrategyState ExecutionState)
            (taken added : Queue),
        drain calculate_signals execute_order fuel bt
        = Finished (bt', (taken, added)) ->
        events bt' = []
        /\ taken = events bt ++ added
        /\ (forall x, x ∈ added -> x ∈ taken)
        /\ signals bt' = signals bt + count_type "SIGNAL" taken)
    /\ (puts_only_signals calculate_signals ->
        puts_only_fills execute_order ->
        forall bt : Backtest StrategyState ExecutionState,
        exists fuel : nat,
          drain calculate_signals execute_order fuel bt <> OutOfFuel
          /\ forall extra : nat,
              drain calculate_signals execute_order (fuel + extra) bt
              = drain calculate_signals execute_order fuel bt)
    /\ (forall (fuel : nat) (bt bt1 bt2 : Backtest StrategyState ExecutionState)
               (taken added : Queue),
          continue_backtest (data_handler bt) = true ->
          advance bt = Ok bt1 ->
          drain calculate_signals execute_order (S fuel) bt1
          = Finished (bt2, (taken, added)) ->
          run_backtest calculate_signals execute_order (S fuel) bt
          = run_backtest calculate_signals execute_order fuel bt2
          /\ events bt2 = []).
Proof.
  intros SS ES cs eo. split; [|split].
  - intros fuel bt bt' taken added H.
    destruct (drain_finished cs eo fuel bt bt' taken added H)
      as (Hempty & Htaken & Hcount).
    split; [exact Hempty|]. split; [exact Htaken|]. split; [|exact Hcount].
    intros x Hx. rewrite Htaken. apply elem_of_app. right. exact Hx.
  - intros Hs He bt.
    destruct (drain_terminates cs eo Hs He bt) as [fuel Hfuel].
    exists fuel. split; [exact Hfuel|].
    intros extra. apply drain_fuel_mono, Hfuel.
  - intros fuel bt bt1 bt2 taken added Hcont Hadv Hdrain.
    split.
    + cbn [run_backtest]. rewrite Hcont, Hadv, Hdrain. reflexivity.
    + apply (drain_finished cs eo _ _ _ _ _ Hdrain).
Qed.

Lemma drain_is_fifo_witness :
  match drain replay_signals simulated_execute_order 10 scenario_second_bar with
  | Finished (bt', (taken, added)) =>
      taken = Some Market :: added /\ events bt' = [] /\ signals bt' = 1
  | Aborted _ => False
  | OutOfFuel => False
  end
  /\ exists fuel : nat,
      drain replay_signals simulated_execute_order fuel scenario_second_bar
      <> OutOfFuel.
Proof.
  pose proof (drain_is_fifo _ _ replay_signals simulated_execute_order)
    as (Hfifo & Hterm & _).
  split.
  - specialize (Hfifo 10%nat scenario_second_bar).
    destruct (drain replay_signals simulated_execute_order 10
                scenario_second_bar) as [[bt' [taken added]]|err|] eqn:E.
    + destruct (Hfifo bt' taken added eq_refl) as (H1 & H2 & _ & H4).
      split; [exact H2|]. split; [exact H1|].
      rewrite H4. vm_compute in E. injection E as <- <- <-. reflexivity.
    + vm_compute in E. discriminate E.
    + vm_compute in E. discriminate E.
  - destruct (Hterm replay_signals_contract simulated_execute_order_contract
                scenario_second_bar) as (fuel & Hfuel & _).
    exists fuel. exact Hfuel.
Defined.

(** ** Snapshots of [update_timeindex] *)

Lemma dict_of_symbols_lookup_other {V : Type} (v0 : V) (symbols : list string)
    (k : string) :
  k ∉ symbols -> dict_of_symbols v0 symbols !! k = None.
Proof.
  unfold dict_of_symbols.
  assert (G : forall d : gmap string V,
             k ∉ symbols ->
             foldl (fun d s => <[s := v0]> d) d symbols !! k = d !! k).
  { induction symbols as [|s symbols IH]; intros d Hk; [reflexivity|].
    cbn [foldl]. rewrite IH by (intros H; apply Hk; now right).
    apply lookup_insert_ne. intros ->. apply Hk. now left. }
  intros Hk. rewrite G by exact Hk. apply lookup_empty.
Qed.







(** ** Growth of the two histories *)

Lemma positions_rows_frame (p : Portfolio) (symbols : list string) :
  forall dp dp' : gmap string pyval,
    for_each (positions_row_step p) symbols dp = Ok dp' ->
    forall k, k ∉ symbols -> dp' !! k = dp !! k.
Proof.
  induction symbols as [|s symbols IH]; intros dp dp' H k Hk.
  { injection H as <-. reflexivity. }
  cbn [for_each] in H. bind_inversion H.
  unfold positions_row_step in E. bind_inversion E. injection E as <-.
  rewrite (IH _ _ H) by (intros Hin; apply Hk; now right).
  apply lookup_insert_ne. intros ->. apply Hk. now left.
Qed.

Lemma holdings_rows_frame (bars : DataHandler) (p : Portfolio)
    (symbols : list string) :
  forall dh dh' : gmap string pyval,
    for_each (holdings_row_step bars p) symbols dh = Ok dh' ->
    forall k, k ∉ symbols -> k <> "total" -> dh' !! k = dh !! k.
Proof.
  induction symbols as [|s symbols IH]; intros dh dh' H k Hk Hkt.
  { injection H as <-. reflexivity. }
  cbn [for_each] in H. bind_inversion H.
  unfold holdings_row_step in E. bind_inversion E. injection E as <-.
  rewrite (IH _ _ H) by (try assumption; intros Hin; apply Hk; now right).
  rewrite lookup_insert_ne by congruence.
  apply lookup_insert_ne. intros ->. apply Hk. now left.
Qed.

Lemma update_timeindex_stamp (bars : DataHandler) (p p' : Portfolio) :
  update_timeindex bars p = Ok p' ->
  "datetime" ∉ pf_symbol_list p ->
  exists (dp dh : gmap string pyval),
    all_positions p' = all_positions p ++ [dp]
    /\ all_holdings p' = all_holdings p ++ [dh]
    /\ timestamps [dp] = stamped_times (pf_symbol_list p) [CallTimeindex bars]
    /\ timestamps [dh] = stamped_times (pf_symbol_list p) [CallTimeindex bars].
Proof.
  intros H Hdt. unfold update_timeindex in H. bind_inversion H.
  injection H as <-. cbn [set_histories all_positions all_holdings].
  eexists _, _. split; [reflexivity|]. split; [reflexivity|].
  cbn [stamped_times timestamps map]. rewrite E, E0.
  unfold record_time.
  match goal with
  | Hp : for_each (positions_row_step _) _ _ = Ok _ |- _ =>
      rewrite (positions_rows_frame _ _ _ _ Hp _ Hdt), lookup_insert_eq
  end.
  match goal with
  | Hh : for_each (holdings_row_step _ _) _ _ = Ok _ |- _ =>
      rewrite (holdings_rows_frame _ _ _ _ _ Hh _ Hdt) by discriminate
  end.
  rewrite !lookup_insert_ne by discriminate.
  rewrite lookup_insert_eq. auto.
Qed.

Lemma update_fill_keeps_histories (bars : DataHandler) (p p' : Portfolio)
    (e : event) :
  update_fill bars p e = Ok p' ->
  all_positions p' = all_positions p
  /\ all_holdings p' = all_holdings p
  /\ pf_symbol_list p' = pf_symbol_list p.
Proof.
  unfold update_fill.
  destruct (String.eqb (event_type e) "FILL"); [|intros [= <-]; auto].
  destruct e; try discriminate. intros H. bind_inversion H.
  unfold update_positions_from_fill in E. bind_inversion E.
  injection E as <-.
  unfold update_holdings_from_fill in H. bind_inversion H.
  injection H as <-. auto.
Qed.

Lemma ledger_calls_stamps (calls : list ledger_call) :
  forall p p' : Portfolio,
    "datetime" ∉ pf_symbol_list p ->
    for_each ledger_step calls p = Ok p' ->
    timestamps (all_positions p')
    = timestamps (all_positions p) ++ stamped_times (pf_symbol_list p) calls
    /\ timestamps (all_holdings p')
       = timestamps (all_holdings p) ++ stamped_times (pf_symbol_list p) calls.
Proof.
  induction calls as [|c calls IH]; intros p p' Hdt H.
  { injection H as <-. cbn [stamped_times]. now rewrite !app_nil_r. }
  cbn [for_each] in H. bind_inversion H.
  destruct c as [bars|q e|bars e]; cbn [ledger_step] in E.
  - destruct (update_timeindex_stamp _ _ _ E Hdt)
      as (dp & dh & Hap & Hah & Htp & Hth).
    destruct (update_timeindex_keeps_current _ _ _ E) as (_ & _ & Hsym).
    rewrite <- Hsym in Hdt. destruct (IH _ _ Hdt H) as [IHp IHh].
    rewrite IHp, IHh, Hap, Hah, Hsym. unfold timestamps in *.
    rewrite !map_app, <- !app_assoc.
    change (stamped_times (pf_symbol_list p) (CallTimeindex bars :: calls))
      with (stamped_times (pf_symbol_list p) [CallTimeindex bars]
            ++ stamped_times (pf_symbol_list p) calls).
    rewrite Htp, Hth. auto.
  - bind_inversion E. injection E as <-. apply (IH _ _ Hdt H).
  - destruct (update_fill_keeps_histories _ _ _ _ E) as (Hap & Hah & Hsym).
    rewrite <- Hsym in Hdt. destruct (IH _ _ Hdt H) as [IHp IHh].
    rewrite IHp, IHh, Hap, Hah, Hsym. auto.
Qed.

(** C2, as the specification has it, fails: in the run of the scenario
    (bars at times 1, 2, 3, start date 0) the last two records carry the
    same time, since the [MarketEvent] put when the feed is exhausted is
    stamped with the last bar again. *)
Lemma timestamps_not_strictly_increasing :
  exists bt,
    run_backtest replay_signals simulated_execute_order 10 scenario_backtest
    = Finished bt
    /\ timestamps (all_holdings (portfolio bt))
       = [Some 0; Some 1; Some 2; Some 3; Some 3]
    /\ ~ strictly_increasing (timestamps (all_holdings (portfolio bt)))
    /\ ~ strictly_increasing (timestamps (all_positions (portfolio bt))).
Proof.
  destruct (run_backtest replay_signals simulated_execute_order 10
              scenario_backtest) as [bt| |] eqn:E;
    [|vm_compute in E; discriminate E ..].
  exists bt. split; [reflexivity|].
  assert (Hh : timestamps (all_holdings (portfolio bt))
               = [Some 0; Some 1; Some 2; Some 3; Some 3]).
  { vm_compute in E. injection E as <-. reflexivity. }
  assert (Hp : timestamps (all_positions (portfolio bt))
               = [Some 0; Some 1; Some 2; Some 3; Some 3]).
  { vm_compute in E. injection E as <-. reflexivity. }
  split; [exact Hh|]. rewrite Hh, Hp.
  split; intros H;
    pose proof (H 3%nat 4%nat 3 3 ltac:(lia) eq_refl eq_refl); lia.
Qed.

Lemma update_timeindex_appends_one (bars : DataHandler) (p p' : Portfolio) :
  update_timeindex bars p = Ok p' ->
  length (all_positions p') = S (length (all_positions p))
  /\ length (all_holdings p') = S (length (all_holdings p)).
Proof.
  intros H. unfold update_timeindex in H. bind_inversion H.
  injection H as <-. cbn [set_histories all_positions all_holdings].
  rewrite !length_app. cbn [length]. lia.
Qed.

Lemma ledger_calls_lengths (symbols : list string) (calls : list ledger_call) :
  forall p p' : Portfolio,
    for_each ledger_step calls p = Ok p' ->
    length (all_positions p')
    = (length (all_positions p) + length (stamped_times symbols calls))%nat
    /\ length (all_holdings p')
       = (length (all_holdings p) + length (stamped_times symbols calls))%nat.
Proof.
  induction calls as [|c calls IH]; intros p p' H.
  { injection H as <-. cbn [stamped_times length]. lia. }
  cbn [for_each] in H. bind_inversion H.
  destruct (IH _ _ H) as [IHp IHh].
  destruct c as [bars|q e|bars e]; cbn [ledger_step] in E;
    cbn [stamped_times length].
  - destruct (update_timeindex_appends_one _ _ _ E) as [Hp Hh]. lia.
  - bind_inversion E. injection E as <-. lia.
  - destruct (update_fill_keeps_histories _ _ _ _ E) as (Hp & Hh & _).
    rewrite Hp, Hh in *. lia.
Qed.


(** ** Equity curve and drawdowns *)

Lemma pct_change_from_lookup (xs : Series) :
  forall (prev : option Q) (i : nat) (x : option Q),
    xs !! i = Some x ->
    pct_change_from prev xs !! i =
    Some (fsub (fdiv x (match i with
                        | O => prev
                        | S j => default None (xs !! j)
                        end)) (Some 1%Q)).
Proof.
  induction xs as [|y xs IH]; intros prev i x Hx; [discriminate|].
  destruct i as [|i]; cbn [pct_change_from].
  - injection Hx as ->. reflexivity.
  - change ((y :: xs) !! S i) with (xs !! i) in Hx.
    change ((fsub (fdiv y prev) (Some 1%Q) :: pct_change_from y xs) !! S i)
      with (pct_change_from y xs !! i).
    rewrite (IH y i x Hx).
    destruct i as [|i]; reflexivity.
Qed.


Lemma cumprod_from_lookup (xs : Series) :
  forall (acc : Q) (i : nat) (x : Q),
    (forall j, (j <= i)%nat -> exists y, xs !! j = Some (Some y)) ->
    xs !! i = Some (Some x) ->
    exists e_prev : Q,
      match i with
      | O => e_prev = acc
      | S j => cumprod_from acc xs !! j = Some (Some e_prev)
      end
      /\ cumprod_from acc xs !! i = Some (Some (e_prev * x)%Q).
Proof.
  induction xs as [|y xs IH]; intros acc i x Hall Hx; [discriminate|].
  destruct (Hall 0%nat ltac:(lia)) as [y0 Hy0]. injection Hy0 as ->.
  cbn [cumprod_from].
  destruct i as [|i].
  - injection Hx as <-. exists acc. split; reflexivity.
  - cbn in Hx. destruct (IH (acc * y0)%Q i x) as (e & Hprev & Hcur).
    { intros j Hj. apply (Hall (S j)). lia. }
    { exact Hx. }
    destruct i as [|i].
    + subst e. exists (acc * y0)%Q. split; [reflexivity|]. exact Hcur.
    + exists e. split; [exact Hprev|exact Hcur].
Qed.

Lemma py_max_Qmax (a y : Q) : (py_max a (Some y) == Qmax a y)%Q.
Proof.
  cbn [py_max]. destruct (Qgt_bool y a) eqn:E.
  - apply Qgt_bool_true in E. symmetry. apply Q.max_r. now apply Qlt_le_weak.
  - apply Qgt_bool_false in E. symmetry. now apply Q.max_l.
Qed.

Lemma drawdown_loop_lookup (pnl : Series) :
  forall (h0 : Q) (d0 : option Q) (hs : list Q) (dds durs : Series)
         (i : nat) (x : option Q),
    drawdown_loop h0 d0 pnl = (hs, dds, durs) ->
    pnl !! i = Some x ->
    exists (h_prev : Q) (d_prev : option Q),
      match i with
      | O => h_prev = h0 /\ d_prev = d0
      | S j => hs !! j = Some h_prev /\ durs !! j = Some d_prev
      end
      /\ hs !! i = Some (py_max h_prev x)
      /\ dds !! i = Some (fsub (Some (py_max h_prev x)) x)
      /\ durs !! i =
         Some (if is_zero (fsub (Some (py_max h_prev x)) x) then Some 0%Q
               else fadd d_prev (Some 1%Q)).
Proof.
  induction pnl as [|y pnl IH]; intros h0 d0 hs dds durs i x H Hx;
    [discriminate|].
  cbn [drawdown_loop] in H.
  destruct (drawdown_loop (py_max h0 y)
              (if is_zero (fsub (Some (py_max h0 y)) y) then Some 0%Q
               else fadd d0 (Some 1%Q)) pnl)
    as [[hs' dds'] durs'] eqn:E.
  injection H as <- <- <-.
  destruct i as [|i].
  - injection Hx as <-. exists h0, d0. repeat split; reflexivity.
  - cbn in Hx.
    destruct (IH _ _ _ _ _ i x E Hx) as (hp & dp & Hprev & Hh & Hd & Hu).
    destruct i as [|i].
    + destruct Hprev as [-> ->].
      eexists _, _. split; [split; reflexivity|]. auto.
    + exists hp, dp. split; [exact Hprev|]. auto.
Qed.

Lemma drawdown_series_lookup (pnl : Series) (hwm : list Q)
    (drawdown duration : Series) (t : nat) (x : option Q) :
  drawdown_series pnl = (hwm, drawdown, duration) ->
  (1 <= t)%nat ->
  pnl !! t = Some x ->
  exists (h_prev : Q) (d_prev : option Q),
    hwm !! (t - 1)%nat = Some h_prev
    /\ duration !! (t - 1)%nat = Some d_prev
    /\ hwm !! t = Some (py_max h_prev x)
    /\ drawdown !! t = Some (fsub (Some (py_max h_prev x)) x)
    /\ duration !! t =
       Some (if is_zero (fsub (Some (py_max h_prev x)) x) then Some 0%Q
             else fadd d_prev (Some 1%Q)).
Proof.
  intros H Ht Hx. destruct pnl as [|x0 pnl]; [discriminate|].
  cbn [drawdown_series] in H.
  destruct (drawdown_loop 0 None pnl) as [[hs dds] durs] eqn:E.
  injection H as <- <- <-.
  destruct t as [|i]; [lia|]. cbn in Hx.
  replace (S i - 1)%nat with i by lia.
  destruct (drawdown_loop_lookup _ _ _ _ _ _ i x E Hx)
    as (hp & dp & Hprev & Hh & Hd & Hu).
  exists hp, dp. cbn [lookup list_lookup].
  destruct i as [|i].
  - destruct Hprev as [-> ->]. auto.
  - destruct Hprev as [H1 H2]. auto.
Qed.

Lemma max_skipna_fold (xs : Series) :
  forall acc : option Q,
    (forall a, acc = Some a ->
               exists m, foldl max_skipna acc xs = Some m /\ (a <= m)%Q)
    /\ (forall i d, xs !! i = Some (Some d) ->
                    exists m, foldl max_skipna acc xs = Some m /\ (d <= m)%Q)
    /\ (forall m, foldl max_skipna acc xs = Some m ->
                  acc = Some m \/ exists i, xs !! i = Some (Some m)).
Proof.
  induction xs as [|x xs IH]; intros acc.
  { split; [|split].
    - intros a ->. exists a. split; [reflexivity|apply Qle_refl].
    - intros i d H. discriminate.
    - intros m H. left. exact H. }
  cbn [foldl]. destruct (IH (max_skipna acc x)) as (IHa & IHx & IHm).
  split; [|split].
  - intros a ->. destruct x as [b|]; cbn [max_skipna].
    + destruct (IHa _ eq_refl) as (m & Hm & Hle).
      exists m. split; [exact Hm|].
      destruct (Qgt_bool b a) eqn:E; [|exact Hle].
      apply Qgt_bool_true in E. apply Qlt_le_weak in E.
      eapply Qle_trans; eassumption.
    + apply (IHa a). reflexivity.
  - intros i d Hd. destruct i as [|i]; [|apply (IHx i d Hd)].
    injection Hd as ->. destruct acc as [a|]; cbn [max_skipna].
    + destruct (IHa _ eq_refl) as (m & Hm & Hle).
      exists m. split; [exact Hm|].
      destruct (Qgt_bool d a) eqn:E; [exact Hle|].
      apply Qgt_bool_false in E. eapply Qle_trans; eassumption.
    + apply (IHa d). reflexivity.
  - intros m Hm. destruct (IHm m Hm) as [Hacc | [i Hi]].
    + destruct acc as [a|], x as [b|]; cbn [max_skipna] in Hacc.
      * destruct (Qgt_bool b a); injection Hacc as <-;
          [right; exists 0%nat; reflexivity | left; reflexivity].
      * left. exact Hacc.
      * right. exists 0%nat. cbn. now rewrite Hacc.
      * discriminate.
    + right. exists (S i). exact Hi.
Qed.

(** The maximum pandas reports for a series: an upper bound of the entries
    that are not [NaN], and one of them. *)
Lemma series_max_is_maximum (xs : Series) :
  (forall i d, xs !! i = Some (Some d) ->
               exists m, series_max xs = Some m /\ (d <= m)%Q)
  /\ (forall m, series_max xs = Some m -> exists i, xs !! i = Some (Some m)).
Proof.
  unfold series_max. destruct (max_skipna_fold xs None) as (_ & Hub & Hat).
  split; [exact Hub|].
  intros m Hm. destruct (Hat m Hm) as [H|H]; [discriminate|exact H].
Qed.

Lemma lookup_map {A B : Type} (f : A -> B) (l : list A) :
  forall i : nat, map f l !! i = option_map f (l !! i).
Proof.
  induction l as [|x l IH]; intros [|i]; try reflexivity. apply IH.
Qed.

Lemma returns_lookup (ts : list Q) (t : nat) :
  Forall (fun q => ~ (q == 0)%Q) ts ->
  (1 <= t < length ts)%nat ->
  pct_change (map Some ts) !! t = Some (Some (spec_return ts t)).
Proof.
  intros Hnz [H1 Hlt].
  destruct (lookup_lt_is_Some_2 ts t Hlt) as [a Ha].
  destruct (lookup_lt_is_Some_2 ts (t - 1)%nat ltac:(lia)) as [b Hb].
  assert (Hbnz : ~ (b == 0)%Q).
  { rewrite Forall_forall in Hnz. apply Hnz.
    apply list_elem_of_lookup. eauto. }
  unfold pct_change.
  rewrite (pct_change_from_lookup (map Some ts) None t (Some a))
    by (rewrite lookup_map, Ha; reflexivity).
  destruct t as [|i]; [lia|]. replace (S i - 1)%nat with i in Hb by lia.
  rewrite lookup_map, Hb.
  destruct (Qeq_bool b 0) eqn:E; [apply Qeq_bool_iff in E; contradiction|].
  cbn [option_map default from_option id fdiv]. rewrite E.
  cbn [fsub]. unfold spec_return.
  rewrite (nth_lookup_Some ts (S i) 0%Q a Ha).
  replace (S i - 1)%nat with i by lia.
  rewrite (nth_lookup_Some ts i 0%Q b Hb). reflexivity.
Qed.

Lemma equity_curve_lookup (ts : list Q) :
  Forall (fun q => ~ (q == 0)%Q) ts ->
  forall t : nat,
    (1 <= t < length ts)%nat ->
    exists e : Q,
      curve_equity_curve (equity_curve_of_totals (map Some ts)) !! t
      = Some (Some e)
      /\ (e == spec_equity_curve ts t)%Q.
Proof.
  intros Hnz. cbn [equity_curve_of_totals curve_equity_curve].
  set (gross := map (fadd (Some 1%Q)) (pct_change (map Some ts))).
  assert (Hgross : forall t, (1 <= t < length ts)%nat ->
                     gross !! t = Some (Some (1 + spec_return ts t)%Q)).
  { intros t Ht. unfold gross.
    rewrite lookup_map, (returns_lookup ts t Hnz Ht). reflexivity. }
  destruct ts as [|t0 ts']; [intros t Ht; cbn in Ht; lia|].
  assert (Hhead : exists g', gross = None :: g') by (eexists; reflexivity).
  destruct Hhead as [g' Hg']. rewrite Hg'. cbn [cumprod].
  assert (Hg : forall i, (S i < length (t0 :: ts'))%nat ->
                 g' !! i = Some (Some (1 + spec_return (t0 :: ts') (S i))%Q)).
  { intros i Hi. rewrite <- (Hgross (S i)) by lia. now rewrite Hg'. }
  intros t [H1 Hlt]. destruct t as [|i]; [lia|].
  change ((None :: cumprod_from 1 g') !! S i) with (cumprod_from 1 g' !! i).
  clear H1 Hg' Hgross gross. induction i as [|i IH].
  - destruct (cumprod_from_lookup g' 1 0 _
                ltac:(intros j Hj; replace j with 0%nat by lia;
                      rewrite Hg by exact Hlt; eauto)
                (Hg 0%nat Hlt)) as (e & -> & Hcur).
    eexists. split; [exact Hcur|]. reflexivity.
  - destruct IH as (e_i & He_i & Heq); [lia|].
    destruct (cumprod_from_lookup g' 1 (S i) _
                ltac:(intros j Hj; rewrite Hg by lia; eauto)
                (Hg (S i) Hlt)) as (e & Hprev & Hcur).
    rewrite He_i in Hprev. injection Hprev as <-.
    eexists. split; [exact Hcur|].
    change (spec_equity_curve (t0 :: ts') (S (S i)))
      with (spec_equity_curve (t0 :: ts') (S i)
            * (1 + spec_return (t0 :: ts') (S (S i))))%Q.
    now rewrite Heq.
Qed.

Lemma column_is_a_column (name : string) (records : list (gmap string pyval))
    (ts : list Q) :
  records <> [] ->
  column name records = Ok (map Some ts) ->
  has_column name records = true.
Proof.
  intros Hne H. destruct records as [|d rest]; [contradiction|].
  cbn [column] in H. bind_inversion H. injection H as H.
  destruct ts as [|t ts]; [discriminate H|]. injection H as -> _.
  unfold column_value in E. cbn [has_column existsb].
  destruct (d !! name) as [v|]; [reflexivity|discriminate E].
Qed.

Lemma has_column_nonempty (name : string) (records : list (gmap string pyval)) :
  has_column name records = true -> records <> [].
Proof. intros H ->. discriminate H. Qed.

(** C6: the code at the failing inputs.  In the run of the scenario the
    first entry of the equity curve is [NaN], not the base 1.0 of the
    specification and of the docstring ("initial size equal to 1").  The
    high-water mark starts from 0 and the first entry is never read: for a
    ledger that is down from 100000 to 99899 at its first snapshot and back
    at 99999 at the second, the reported largest drawdown is 0, where the
    fall from the base 1.0 is 0.00101. *)
Lemma equity_curve_has_no_base_entry :
  (exists (bt : Backtest (list (list SignalEvent)) unit) (curve : EquityCurve),
      run_backtest replay_signals simulated_execute_order 10 scenario_backtest
      = Finished bt
      /\ create_equity_curve_dataframe (portfolio bt) = Ok curve
      /\ curve_equity_curve curve !! 0%nat = Some None
      /\ spec_equity_curve [100000; 100000; 99999; 99998; 99998]%Q 0 = 1%Q)
  /\ (exists (p : Portfolio) (curve : EquityCurve),
        for_each ledger_step early_fill_calls
          (Portfolio_init (priced_feed 1 10) 0 100000) = Ok p
        /\ column "total" (all_holdings p)
           = Ok (map Some [100000; 99899; 99999]%Q)
        /\ create_equity_curve_dataframe p = Ok curve
        /\ curve_equity_curve curve !! 0%nat = Some None
        /\ match fst (output_summary_stats curve) with
           | Some max_dd => (max_dd == 0)%Q
           | None => False
           end
        /\ (spec_drawdown [100000; 99899; 99999]%Q 1 == 101 # 100000)%Q).
Proof.
  split.
  - destruct (run_backtest replay_signals simulated_execute_order 10
                scenario_backtest) as [bt| |] eqn:E;
      [|vm_compute in E; discriminate E ..].
    destruct (create_equity_curve_dataframe (portfolio bt)) as [curve|] eqn:C.
    + exists bt, curve. split; [reflexivity|]. split; [exact C|].
      split; [|reflexivity].
      vm_compute in E. injection E as <-. vm_compute in C.
      injection C as <-. reflexivity.
    + vm_compute in E. injection E as <-. vm_compute in C. discriminate C.
  - destruct (for_each ledger_step early_fill_calls
                (Portfolio_init (priced_feed 1 10) 0 100000)) as [p|] eqn:E;
      [|vm_compute in E; discriminate E].
    vm_compute in E. injection E as <-.
    eexists _, _. split; [reflexivity|].
    split; [vm_compute; reflexivity|].
    split; [vm_compute; reflexivity|].
    split; [reflexivity|]. split; vm_compute; reflexivity.
Qed.

(** X27: what the finalization computes from the second record on.  For a
    history with a ['datetime'] column whose totals are not zero and every
    index [t >= 1], the return is [total(t) / total(t-1) - 1] and the equity
    curve is the product of [1 + return(i)] over [1 <= i <= t]; the
    high-water mark starts at 0 and is the maximum of its previous value
    and the equity curve; the drawdown is the high-water mark minus the
    equity curve; the duration is 0 when the drawdown is 0 and the previous
    duration plus one otherwise.  At [t0] the return, the equity curve, the
    drawdown and the duration are [NaN].  The two reported figures are the
    maxima of the entries of the drawdown and duration series that are not
    [NaN]. *)
Theorem equity_curve_and_drawdowns :
  forall (p : Portfolio) (ts : list Q),
    has_column "datetime" (all_holdings p) = true ->
    column "total" (all_holdings p) = Ok (map Some ts) ->
    Forall (fun q => ~ (q == 0)%Q) ts ->
    exists (curve : EquityCurve) (hwm : list Q) (drawdown duration : Series),
      create_equity_curve_dataframe p = Ok curve
      /\ drawdown_series (curve_equity_curve curve) = (hwm, drawdown, duration)
      /\ output_summary_stats curve = (series_max drawdown, series_max duration)
      /\ hwm !! 0%nat = Some 0%Q
      /\ (ts <> [] ->
          curve_returns curve !! 0%nat = Some None
          /\ curve_equity_curve curve !! 0%nat = Some None
          /\ drawdown !! 0%nat = Some None
          /\ duration !! 0%nat = Some None)
      /\ (forall t : nat,
             (1 <= t < length ts)%nat ->
             exists (e h_prev h d : Q) (d_prev : option Q),
               curve_returns curve !! t = Some (Some (spec_return ts t))
               /\ curve_equity_curve curve !! t = Some (Some e)
               /\ (e == spec_equity_curve ts t)%Q
               /\ hwm !! (t - 1)%nat = Some h_prev
               /\ hwm !! t = Some h
               /\ (h == Qmax h_prev e)%Q
               /\ drawdown !! t = Some (Some d)
               /\ d = (h - e)%Q
               /\ duration !! (t - 1)%nat = Some d_prev
               /\ duration !! t =
                  Some (if Qeq_bool d 0 then Some 0%Q
                        else fadd d_prev (Some 1%Q)))
      /\ (forall (t : nat) (d : Q),
             drawdown !! t = Some (Some d) ->
             exists m, series_max drawdown = Some m /\ (d <= m)%Q)
      /\ (forall m : Q,
             series_max drawdown = Some m ->
             exists t, drawdown !! t = Some (Some m))
      /\ (forall (t : nat) (d : Q),
             duration !! t = Some (Some d) ->
             exists m, series_max duration = Some m /\ (d <= m)%Q)
      /\ (forall m : Q,
             series_max duration = Some m ->
             exists t, duration !! t = Some (Some m)).
Proof.
  intros p ts Hdt Hcol Hnz.
  unfold create_equity_curve_dataframe, frame_column. cbv zeta. rewrite Hdt.
  rewrite (column_is_a_column "total" _ ts (has_column_nonempty _ _ Hdt) Hcol).
  rewrite Hcol. cbn [result_bind].
  set (curve := equity_curve_of_totals (map Some ts)).
  destruct (drawdown_series (curve_equity_curve curve))
    as [[hwm drawdown] duration] eqn:Hseries.
  exists curve, hwm, drawdown, duration.
  split; [reflexivity|]. split; [exact Hseries|]. split.
  { unfold output_summary_stats, create_drawdowns. now rewrite Hseries. }
  split.
  { unfold drawdown_series in Hseries.
    destruct (curve_equity_curve curve) as [|x0 pnl].
    - injection Hseries as <- <- <-. reflexivity.
    - destruct (drawdown_loop 0 None pnl) as [[hs dds] durs].
      injection Hseries as <- <- <-. reflexivity. }
  split.
  { intros Hne. destruct ts as [|t0 ts']; [contradiction|].
    unfold curve in *. cbn in Hseries |- *.
    destruct (drawdown_loop 0 None _) as [[hs dds] durs].
    injection Hseries as <- <- <-. auto. }
  split.
  { intros t Ht.
    destruct (equity_curve_lookup ts Hnz t Ht) as (e & He & Heq).
    fold curve in He.
    destruct (drawdown_series_lookup _ _ _ _ t (Some e) Hseries
                ltac:(lia) He) as (hp & dp & Hhp & Hdp & Hh & Hd & Hu).
    exists e, hp, (py_max hp (Some e)), (py_max hp (Some e) - e)%Q, dp.
    split; [apply (returns_lookup ts t Hnz Ht)|].
    split; [exact He|]. split; [exact Heq|]. split; [exact Hhp|].
    split; [exact Hh|]. split; [apply py_max_Qmax|].
    split; [exact Hd|]. split; [reflexivity|]. split; [exact Hdp|].
    exact Hu. }
  destruct (series_max_is_maximum drawdown) as [Hub Hat].
  destruct (series_max_is_maximum duration) as [Hub' Hat'].
  auto.
Qed.

Lemma equity_curve_and_drawdowns_witness :
  exists (p : Portfolio) (curve : EquityCurve),
    for_each ledger_step early_fill_calls
      (Portfolio_init (priced_feed 1 10) 0 100000) = Ok p
    /\ create_equity_curve_dataframe p = Ok curve
    /\ exists m, fst (output_summary_stats curve) = Some m.
Proof.
  destruct (for_each ledger_step early_fill_calls
              (Portfolio_init (priced_feed 1 10) 0 100000)) as [p|] eqn:E;
    [|vm_compute in E; discriminate E].
  destruct (equity_curve_and_drawdowns p [100000; 99899; 99999]%Q)
    as (curve & hwm & drawdown & duration & H1 & H2 & H3 & _ & _ & H6 & H7 & _).
  - vm_compute in E. injection E as <-. reflexivity.
  - vm_compute in E. injection E as <-. vm_compute. reflexivity.
  - repeat constructor; discriminate.
  - exists p, curve. split; [reflexivity|]. split; [exact H1|].
    rewrite H3. cbn [fst].
    destruct (H6 1%nat ltac:(cbn; lia))
      as (e & hp & h & d & dp & _ & _ & _ & _ & _ & _ & Hd & _).
    destruct (H7 1%nat d Hd) as (m & Hm & _). exists m. exact Hm.
Defined.

(** ** Ledgers reached from a fresh one

    The entries the statements above ask of a ledger are there in every
    ledger reached from [Portfolio_init] by calls that return. *)

Lemma dict_of_symbols_lookup_in {V : Type} (v0 : V) (symbols : list string)
    (s : string) :
  s ∈ symbols -> dict_of_symbols v0 symbols !! s = Some v0.
Proof.
  unfold dict_of_symbols.
  assert (G : forall d : gmap string V,
             s ∈ symbols \/ d !! s = Some v0 ->
             foldl (fun d s => <[s := v0]> d) d symbols !! s = Some v0).
  { induction symbols as [|s' symbols IH]; intros d H.
    - destruct H as [H|H]; [inversion H | exact H].
    - cbn [foldl]. apply IH.
      destruct (decide (s ∈ symbols)) as [Hin|Hout]; [now left|right].
      destruct (decide (s' = s)) as [->|Hne]; [apply lookup_insert_eq|].
      rewrite lookup_insert_ne by exact Hne.
      destruct H as [H|H]; [|exact H].
      apply elem_of_cons in H. destruct H as [->|H]; contradiction. }
  intros Hs. apply G. now left.
Qed.

Lemma is_Some_insert {V : Type} (d : gmap string V) (k k' : string) (v : V) :
  is_Some (d !! k') -> is_Some (<[k := v]> d !! k').
Proof.
  intros H. destruct (decide (k = k')) as [->|Hne].
  - rewrite lookup_insert_eq. eauto.
  - now rewrite lookup_insert_ne.
Qed.

Lemma Portfolio_init_entries (bars : DataHandler) (start : timestamp)
    (capital : Q) :
  let p := Portfolio_init bars start capital in
  (forall s, s ∈ symbol_list bars ->
             is_Some (current_positions p !! s)
             /\ is_Some (current_holdings p !! s))
  /\ current_holdings p !! "cash" = Some capital
  /\ current_holdings p !! "commission" = Some 0%Q
  /\ current_holdings p !! "total" = Some capital.
Proof.
  cbn [Portfolio_init current_positions current_holdings].
  unfold construct_current_holdings. split; [|split; [|split]].
  - intros s Hs. split.
    + rewrite (dict_of_symbols_lookup_in 0 _ s Hs). eauto.
    + repeat apply is_Some_insert.
      rewrite (dict_of_symbols_lookup_in 0%Q _ s Hs). eauto.
  - rewrite !lookup_insert_ne by discriminate. apply lookup_insert_eq.
  - rewrite lookup_insert_ne by discriminate. apply lookup_insert_eq.
  - apply lookup_insert_eq.
Qed.

Lemma ledger_step_entries (p p' : Portfolio) (c : ledger_call) :
  ledger_step p c = Ok p' ->
  forall k : string,
    (is_Some (current_positions p !! k) -> is_Some (current_positions p' !! k))
    /\ (is_Some (current_holdings p !! k) -> is_Some (current_holdings p' !! k)).
Proof.
  intros H k. destruct c as [bars|q e|bars e]; cbn [ledger_step] in H.
  - destruct (update_timeindex_keeps_current _ _ _ H) as (-> & -> & _). auto.
  - bind_inversion H. injection H as <-. auto.
  - unfold update_fill in H.
    destruct (String.eqb (event_type e) "FILL"); [|injection H as <-; auto].
    destruct e; try discriminate H. bind_inversion H.
    unfold update_positions_from_fill in E. bind_inversion E.
    injection E as <-.
    unfold update_holdings_from_fill in H. bind_inversion H.
    injection H as <-.
    cbn [set_current_holdings set_current_positions current_positions
           current_holdings].
    split; intros Hk; repeat apply is_Some_insert; exact Hk.
Qed.

Lemma reached_ledger_entries (bars : DataHandler) (start : timestamp)
    (capital : Q) (calls : list ledger_call) (p : Portfolio) :
  for_each ledger_step calls (Portfolio_init bars start capital) = Ok p ->
  (forall s, s ∈ symbol_list bars ->
             is_Some (current_positions p !! s)
             /\ is_Some (current_holdings p !! s))
  /\ is_Some (current_holdings p !! "cash")
  /\ is_Some (current_holdings p !! "commission")
  /\ is_Some (current_holdings p !! "total").
Proof.
  destruct (Portfolio_init_entries bars start capital) as (Hs & Hc & Hm & Ht).
  assert (G : forall p0 : Portfolio,
             for_each ledger_step calls p0 = Ok p ->
             forall k,
               (is_Some (current_positions p0 !! k) ->
                is_Some (current_positions p !! k))
               /\ (is_Some (current_holdings p0 !! k) ->
                   is_Some (current_holdings p !! k))).
  { induction calls as [|c calls IH]; intros p0 H k.
    - injection H as <-. auto.
    - cbn [for_each] in H. bind_inversion H.
      destruct (ledger_step_entries _ _ _ E k) as [H1 H2].
      destruct (IH _ H k) as [H3 H4]. auto. }
  intros H. split; [|split; [|split]].
  - intros s Hin. destruct (Hs s Hin) as [H1 H2].
    destruct (G _ H s) as [G1 G2]. auto.
  - apply (G _ H "cash"). rewrite Hc. eauto.
  - apply (G _ H "commission"). rewrite Hm. eauto.
  - apply (G _ H "total"). rewrite Ht. eauto.
Qed.

(** The scenario of the specification: two signals, two orders, two fills;
    the position is closed and the cash is the initial capital less the two
    commissions, the entry and exit prices being equal. *)
Example scenario_run :
  match run_backtest replay_signals simulated_execute_order 10
          scenario_backtest with
  | Finished bt =>
      signals bt = 2 /\ orders bt = 2 /\ fills bt = 2
      /\ current_positions (portfolio bt) !! "AAPL" = Some 0
      /\ current_holdings (portfolio bt) !! "cash" = Some (99998 # 1)
  | Aborted _ => False
  | OutOfFuel => False
  end.
Proof. vm_compute. auto. Qed.

(** ** Runs as sequences of ledger calls

    The ledger a Drain or a whole run leaves is reached from the one it
    started with by ledger calls: one [update_timeindex] per MARKET item
    taken, one [update_signal] per SIGNAL item, one [update_fill] per FILL
    item.  So the statements about ledgers reached by calls apply to the
    ledgers of runs. *)

Lemma for_each_app {S A : Type} (body : S -> A -> result S) (xs ys : list A) :
  forall st : S,
    for_each body (xs ++ ys) st
    = (st' <-- for_each body xs st ;; for_each body ys st').
Proof.
  induction xs as [|x xs IH]; intros st; [reflexivity|].
  cbn [for_each app result_bind]. destruct (body st x); [apply IH|reflexivity].
Qed.

Lemma stamped_times_app (symbols : list string) (xs ys : list ledger_call) :
  stamped_times symbols (xs ++ ys)
  = stamped_times symbols xs ++ stamped_times symbols ys.
Proof.
  induction xs as [|c xs IH]; [reflexivity|].
  destruct c; cbn [stamped_times app]; now rewrite IH.
Qed.

Section RunsAsCalls.

Context {StrategyState ExecutionState : Type}.

Variable calculate_signals :
  StrategyState -> DataHandler -> event ->
  result (StrategyState * list (option event)).

Variable execute_order :
  ExecutionState -> event -> result (ExecutionState * list (option event)).

Local Abbreviation BT := (Backtest StrategyState ExecutionState).
Local Abbreviation handle_ := (handle calculate_signals execute_order).
Local Abbreviation drain_ := (drain calculate_signals execute_order).
Local Abbreviation run_ := (run_backtest calculate_signals execute_order).

Lemma handle_as_calls (symbols : list string) (bt bt' : BT) (x : option event) :
  handle_ bt x = Ok bt' ->
  data_handler bt' = data_handler bt
  /\ exists calls : list ledger_call,
      for_each ledger_step calls (portfolio bt) = Ok (portfolio bt')
      /\ Z.of_nat (length (stamped_times symbols calls))
         = count_type "MARKET" [x].
Proof.
  rewrite count_type_single.
  destruct x as [e|]; cbn [handle].
  2:{ intros [= <-]. split; [reflexivity|]. exists []. split; reflexivity. }
  unfold dispatch.
  destruct (String.eqb_spec (event_type e) "MARKET") as [EM|EM].
  { intros H. bind_inversion H. injection H as <-.
    cbn [data_handler portfolio]. split; [reflexivity|].
    exists [CallTimeindex (data_handler bt)].
    cbn [for_each ledger_step result_bind stamped_times length].
    match goal with
    | Ht : update_timeindex _ _ = Ok _ |- _ => rewrite Ht
    end.
    split; reflexivity. }
  destruct (String.eqb_spec (event_type e) "SIGNAL") as [ES|ES].
  { intros H. bind_inversion H. injection H as <-.
    cbn [data_handler portfolio]. split; [reflexivity|].
    exists [CallSignal (events bt) e].
    cbn [for_each ledger_step result_bind stamped_times length].
    match goal with
    | Hs : update_signal _ _ _ = Ok _ |- _ => rewrite Hs
    end.
    split; reflexivity. }
  destruct (String.eqb_spec (event_type e) "ORDER") as [EO|EO].
  { intros H. bind_inversion H. injection H as <-.
    cbn [data_handler portfolio]. split; [reflexivity|].
    exists []. split; reflexivity. }
  destruct (String.eqb_spec (event_type e) "FILL") as [EF|EF].
  { intros H. bind_inversion H. injection H as <-.
    cbn [data_handler portfolio]. split; [reflexivity|].
    exists [CallFill (data_handler bt) e].
    cbn [for_each ledger_step result_bind stamped_times length].
    match goal with
    | Hf : update_fill _ _ _ = Ok _ |- _ => rewrite Hf
    end.
    split; reflexivity. }
  intros [= <-]. split; [reflexivity|]. exists []. split; reflexivity.
Qed.

Lemma drain_as_calls (symbols : list string) (fuel : nat) :
  forall (bt bt' : BT) (taken added : Queue),
    drain_ fuel bt = Finished (bt', (taken, added)) ->
    data_handler bt' = data_handler bt
    /\ exists calls : list ledger_call,
        for_each ledger_step calls (portfolio bt) = Ok (portfolio bt')
        /\ Z.of_nat (length (stamped_times symbols calls))
           = count_type "MARKET" taken.
Proof.
  induction fuel as [|fuel IH]; intros bt bt' taken added H; [discriminate|].
  cbn [drain] in H.
  destruct (events bt) as [|x rest] eqn:Hq; cbn [get] in H.
  { injection H as <- <- <-. split; [reflexivity|].
    exists []. split; reflexivity. }
  destruct (handle_ (set_events bt rest) x) as [bt1|] eqn:Hh; [|discriminate].
  destruct (drain_ fuel bt1) as [[bt2 [tk ad]]| |] eqn:Hd; try discriminate.
  injection H as <- <- <-.
  destruct (handle_as_calls symbols _ _ _ Hh) as (Hdh1 & calls1 & Hc1 & Hn1).
  destruct (IH _ _ _ _ Hd) as (Hdh2 & calls2 & Hc2 & Hn2).
  cbn [set_events data_handler portfolio] in Hdh1, Hc1.
  split; [congruence|].
  exists (calls1 ++ calls2). split.
  - rewrite for_each_app, Hc1. exact Hc2.
  - rewrite stamped_times_app, length_app, Nat2Z.inj_add, Hn1, Hn2.
    change (x :: tk) with ([x] ++ tk). now rewrite count_type_app.
Qed.

Lemma run_as_calls (fuel : nat) :
  forall bt bt' : BT,
    run_ fuel bt = Finished bt' ->
    exists calls : list ledger_call,
      for_each ledger_step calls (portfolio bt) = Ok (portfolio bt').
Proof.
  induction fuel as [|fuel IH]; intros bt bt' H; [discriminate|].
  cbn [run_backtest] in H.
  destruct (continue_backtest (data_handler bt)).
  2:{ injection H as <-. exists []. reflexivity. }
  destruct (advance bt) as [bt1|] eqn:Hadv; [|discriminate].
  destruct (drain_ (S fuel) bt1) as [[bt2 [tk ad]]| |] eqn:Hd;
    try discriminate.
  destruct (drain_as_calls [] _ _ _ _ _ Hd) as (_ & calls1 & Hc1 & _).
  destruct (IH _ _ H) as (calls2 & Hc2).
  assert (Hp : portfolio bt1 = portfolio bt).
  { unfold advance in Hadv. bind_inversion Hadv. injection Hadv as <-.
    reflexivity. }
  rewrite Hp in Hc1.
  exists (calls1 ++ calls2). rewrite for_each_app, Hc1. exact Hc2.
Qed.

(** Every run that ends leaves a ledger with an entry for each symbol and
    for cash, commission and total. *)
Lemma run_ledger_entries (fuel : nat) (symbols : list string)
    (frames : gmap string (list bar)) (capital : Q) (start : timestamp)
    (strategy0 : StrategyState) (execution0 : ExecutionState) (bt' : BT) :
  run_ fuel (Backtest_init symbols frames capital start strategy0 execution0)
  = Finished bt' ->
  (forall s, s ∈ symbols ->
             is_Some (current_positions (portfolio bt') !! s)
             /\ is_Some (current_holdings (portfolio bt') !! s))
  /\ is_Some (current_holdings (portfolio bt') !! "cash")
  /\ is_Some (current_holdings (portfolio bt') !! "commission")
  /\ is_Some (current_holdings (portfolio bt') !! "total").
Proof.
  intros H. destruct (run_as_calls fuel _ _ H) as [calls Hcalls].
  cbn [Backtest_init portfolio] in Hcalls.
  apply (reached_ledger_entries _ _ _ _ _ Hcalls).
Qed.

End RunsAsCalls.

(** * Further properties *)

(** ** The data feed *)

Lemma update_bars_symbol_effect (dh dh' : DataHandler) (s : string) :
  update_bars_symbol dh s = Ok dh' ->
  symbol_list dh' = symbol_list dh
  /\ (forall k, bars_of dh' k = bars_of dh k)
  /\ (continue_backtest dh = false -> continue_backtest dh' = false)
  /\ (forall k l, latest_symbol_data dh !! k = Some l ->
                  exists new, latest_symbol_data dh' !! k = Some (l ++ new)).
Proof.
  unfold update_bars_symbol. intros H. bind_inversion H.
  apply subscript_Ok in E. destruct a as [|b rest].
  - injection H as <-. cbn. repeat split; auto.
    intros k l Hl. exists []. now rewrite app_nil_r.
  - bind_inversion H. apply subscript_Ok in E0. injection H as <-.
    cbn [symbol_list continue_backtest latest_symbol_data].
    split; [reflexivity|]. split; [|split; [auto|]].
    + intros k. unfold bars_of. cbn [latest_symbol_data symbol_data].
      destruct (decide (s = k)) as [<-|Hne].
      * rewrite !lookup_insert_eq, E, E0. cbn. now rewrite <- app_assoc.
      * now rewrite !lookup_insert_ne.
    + intros k l Hl. destruct (decide (s = k)) as [<-|Hne].
      * rewrite lookup_insert_eq. rewrite E0 in Hl. injection Hl as <-. eauto.
      * rewrite lookup_insert_ne by exact Hne. exists [].
        now rewrite app_nil_r.
Qed.

Lemma for_each_update_bars_effect (symbols : list string) :
  forall dh dh' : DataHandler,
    for_each update_bars_symbol symbols dh = Ok dh' ->
    symbol_list dh' = symbol_list dh
    /\ (forall k, bars_of dh' k = bars_of dh k)
    /\ (continue_backtest dh = false -> continue_backtest dh' = false)
    /\ (forall k l, latest_symbol_data dh !! k = Some l ->
                    exists new, latest_symbol_data dh' !! k = Some (l ++ new)).
Proof.
  induction symbols as [|s symbols IH]; intros dh dh' H.
  { injection H as <-. repeat split; auto.
    intros k l Hl. exists []. now rewrite app_nil_r. }
  cbn [for_each] in H. bind_inversion H.
  destruct (update_bars_symbol_effect _ _ _ E) as (H1 & H2 & H3 & H4).
  destruct (IH _ _ H) as (I1 & I2 & I3 & I4).
  split; [congruence|]. split; [|split; [auto|]].
  - intros k. now rewrite I2, H2.
  - intros k l Hl. destruct (H4 k l Hl) as [new1 Hn1].
    destruct (I4 k _ Hn1) as [new2 Hn2].
    exists (new1 ++ new2). now rewrite app_assoc.
Qed.

(** X1: [update_bars] puts exactly one [MarketEvent] at the tail of the
    queue; it loses, duplicates or reorders no bar (for every symbol the
    released bars followed by the remaining ones are the same list as
    before), it only appends to the released bars, and it never switches
    [continue_backtest] back on. *)
Theorem update_bars_conserves_bars :
  forall (dh dh' : DataHandler) (q q' : Queue),
    update_bars dh q = Ok (dh', q') ->
    q' = q ++ [Some Market]
    /\ symbol_list dh' = symbol_list dh
    /\ (forall s, bars_of dh' s = bars_of dh s)
    /\ (forall s l, latest_symbol_data dh !! s = Some l ->
                    exists new, latest_symbol_data dh' !! s = Some (l ++ new))
    /\ (continue_backtest dh = false -> continue_backtest dh' = false).
Proof.
  intros dh dh' q q' H. unfold update_bars in H. bind_inversion H.
  injection H as <- <-.
  destruct (for_each_update_bars_effect _ _ _ E) as (H1 & H2 & H3 & H4).
  unfold put. auto.
Qed.

Lemma update_bars_conserves_bars_witness :
  exists dh' : DataHandler,
    update_bars sample_bars [] = Ok (dh', [Some Market])
    /\ bars_of dh' "AAPL" = [flat_bar 1 10; flat_bar 2 10; flat_bar 3 10].
Proof.
  destruct (update_bars sample_bars []) as [[dh' q']|] eqn:E;
    [|vm_compute in E; discriminate E].
  destruct (update_bars_conserves_bars _ _ _ _ E) as (Hq & _ & Hb & _).
  exists dh'. rewrite Hq, Hb. split; reflexivity.
Defined.

Lemma for_each_update_bars_step (symbols : list string) :
  forall dh : DataHandler,
    NoDup symbols ->
    (forall s, s ∈ symbols ->
               is_Some (symbol_data dh !! s)
               /\ is_Some (latest_symbol_data dh !! s)) ->
    exists dh' : DataHandler,
      for_each update_bars_symbol symbols dh = Ok dh'
      /\ (forall k, k ∉ symbols ->
                    symbol_data dh' !! k = symbol_data dh !! k
                    /\ latest_symbol_data dh' !! k = latest_symbol_data dh !! k)
      /\ (forall s released,
             s ∈ symbols ->
             latest_symbol_data dh !! s = Some released ->
             match symbol_data dh !! s with
             | Some (b :: rest) =>
                 symbol_data dh' !! s = Some rest
                 /\ latest_symbol_data dh' !! s = Some (released ++ [b])
             | _ =>
                 symbol_data dh' !! s = symbol_data dh !! s
                 /\ latest_symbol_data dh' !! s = Some released
             end)
      /\ (continue_backtest dh' = true <->
          continue_backtest dh = true
          /\ forall s, s ∈ symbols -> symbol_data dh !! s <> Some []).
Proof.
  induction symbols as [|s symbols IH]; intros dh Hnd Hkeys.
  { exists dh. split; [reflexivity|]. split; [auto|]. split.
    - intros s released Hs. inversion Hs.
    - split; [intros H; split; [exact H|intros s Hs; inversion Hs]|].
      intros [H _]. exact H. }
  apply NoDup_cons in Hnd. destruct Hnd as [Hs Hnd].
  destruct (Hkeys s ltac:(now left)) as [[rows Hrows] [released Hrel]].
  cbn [for_each]. unfold update_bars_symbol at 1.
  rewrite (proj2 (subscript_Ok _ _ _) Hrows). cbn [result_bind].
  destruct rows as [|b rest].
  - cbn [result_bind].
    set (dh1 := {| symbol_list := symbol_list dh;
                   symbol_data := symbol_data dh;
                   latest_symbol_data := latest_symbol_data dh;
                   continue_backtest := false |}).
    destruct (IH dh1 Hnd) as (dh' & Hrun & Hout & Hin & Hcont).
    { intros k Hk. apply Hkeys. now right. }
    exists dh'. split; [exact Hrun|]. split; [|split].
    + intros k Hk. apply Hout. intros H. apply Hk. now right.
    + intros k rel Hk Hrelk. apply elem_of_cons in Hk.
      destruct Hk as [->|Hk].
      * rewrite Hrows. destruct (Hout s Hs) as [H1 H2].
        rewrite H1, H2. cbn. auto.
      * apply (Hin k rel Hk Hrelk).
    + split.
      * intros H. apply Hcont in H. destruct H as [H _]. discriminate H.
      * intros [_ H]. exfalso. apply (H s); [now left|exact Hrows].
  - rewrite (proj2 (subscript_Ok _ _ _) Hrel). cbn [result_bind].
    set (dh1 := {| symbol_list := symbol_list dh;
                   symbol_data := <[s := rest]> (symbol_data dh);
                   latest_symbol_data :=
                     <[s := released ++ [b]]> (latest_symbol_data dh);
                   continue_backtest := continue_backtest dh |}).
    destruct (IH dh1 Hnd) as (dh' & Hrun & Hout & Hin & Hcont).
    { intros k Hk. assert (Hne : s <> k) by (intros ->; contradiction).
      cbn [dh1 symbol_data latest_symbol_data].
      rewrite !lookup_insert_ne by exact Hne. apply Hkeys. now right. }
    exists dh'. split; [exact Hrun|]. split; [|split].
    + intros k Hk.
      assert (Hne : s <> k) by (intros ->; apply Hk; now left).
      destruct (Hout k ltac:(intros H; apply Hk; now right)) as [H1 H2].
      rewrite H1, H2. cbn [dh1 symbol_data latest_symbol_data].
      now rewrite !lookup_insert_ne.
    + intros k rel Hk Hrelk. apply elem_of_cons in Hk.
      destruct Hk as [->|Hk].
      * rewrite Hrows. destruct (Hout s Hs) as [H1 H2].
        rewrite H1, H2. cbn [dh1 symbol_data latest_symbol_data].
        rewrite !lookup_insert_eq. rewrite Hrel in Hrelk.
        injection Hrelk as <-. auto.
      * assert (Hne : s <> k) by (intros ->; contradiction).
        specialize (Hin k rel Hk).
        cbn [dh1 symbol_data latest_symbol_data] in Hin.
        rewrite !lookup_insert_ne in Hin by exact Hne. apply Hin, Hrelk.
    + rewrite Hcont. cbn [dh1 continue_backtest symbol_data]. split.
      * intros [Hc Hall]. split; [exact Hc|].
        intros k Hk. apply elem_of_cons in Hk. destruct Hk as [->|Hk].
        -- rewrite Hrows. discriminate.
        -- assert (Hne : s <> k) by (intros ->; contradiction).
           specialize (Hall k Hk).
           now rewrite lookup_insert_ne in Hall.
      * intros [Hc Hall]. split; [exact Hc|].
        intros k Hk. assert (Hne : s <> k) by (intros ->; contradiction).
        rewrite lookup_insert_ne by exact Hne. apply Hall. now right.
Qed.

(** X2: on a feed whose symbols are distinct and all loaded, [update_bars]
    returns; it releases exactly the next bar of every symbol that has one
    left, which is then the symbol's latest bar, leaves the other symbols as
    they are, and keeps [continue_backtest] on exactly when it was on and no
    symbol was exhausted. *)
Theorem update_bars_releases_one_bar :
  forall (dh : DataHandler) (q : Queue),
    NoDup (symbol_list dh) ->
    (forall s, s ∈ symbol_list dh ->
               is_Some (symbol_data dh !! s)
               /\ is_Some (latest_symbol_data dh !! s)) ->
    exists dh' : DataHandler,
      update_bars dh q = Ok (dh', q ++ [Some Market])
      /\ (forall s released b rest,
             s ∈ symbol_list dh ->
             latest_symbol_data dh !! s = Some released ->
             symbol_data dh !! s = Some (b :: rest) ->
             symbol_data dh' !! s = Some rest
             /\ latest_symbol_data dh' !! s = Some (released ++ [b])
             /\ get_latest_bar dh' s = Ok b)
      /\ (forall s released,
             s ∈ symbol_list dh ->
             latest_symbol_data dh !! s = Some released ->
             symbol_data dh !! s = Some [] ->
             symbol_data dh' !! s = Some []
             /\ latest_symbol_data dh' !! s = Some released)
      /\ (forall k, k ∉ symbol_list dh ->
                    symbol_data dh' !! k = symbol_data dh !! k
                    /\ latest_symbol_data dh' !! k = latest_symbol_data dh !! k)
      /\ (continue_backtest dh' = true <->
          continue_backtest dh = true
          /\ forall s, s ∈ symbol_list dh -> symbol_data dh !! s <> Some []).
Proof.
  intros dh q Hnd Hkeys.
  destruct (for_each_update_bars_step (symbol_list dh) dh Hnd Hkeys)
    as (dh' & Hrun & Hout & Hin & Hcont).
  exists dh'. unfold update_bars. rewrite Hrun. cbn [result_bind].
  split; [reflexivity|]. split; [|split; [|split; [exact Hout|exact Hcont]]].
  - intros s released b rest Hs Hrel Hrows.
    specialize (Hin s released Hs Hrel). rewrite Hrows in Hin.
    destruct Hin as [H1 H2]. split; [exact H1|]. split; [exact H2|].
    unfold get_latest_bar. rewrite (proj2 (subscript_Ok _ _ _) H2).
    cbn [result_bind]. unfold last_item. now rewrite last_snoc.
  - intros s released Hs Hrel Hrows.
    specialize (Hin s released Hs Hrel). rewrite Hrows in Hin.
    destruct Hin as [H1 H2]. rewrite H1. auto.
Qed.

Lemma update_bars_releases_one_bar_witness :
  exists dh' : DataHandler,
    update_bars sample_bars [] = Ok (dh', [Some Market])
    /\ get_latest_bar dh' "AAPL" = Ok (flat_bar 2 10)
    /\ continue_backtest dh' = true.
Proof.
  destruct (update_bars_releases_one_bar sample_bars [])
    as (dh' & Hrun & Hone & _ & _ & Hcont).
  - apply NoDup_singleton.
  - intros s Hs. apply list_elem_of_singleton in Hs. subst s.
    split; eexists; reflexivity.
  - exists dh'. split; [exact Hrun|]. split.
    + apply (Hone "AAPL" [flat_bar 1 10] (flat_bar 2 10) [flat_bar 3 10]);
        [apply list_elem_of_singleton|..]; reflexivity.
    + apply Hcont. split; [reflexivity|].
      intros s Hs. apply list_elem_of_singleton in Hs. subst s. discriminate.
Defined.

Lemma slice_last_suffix {A : Type} (n : Z) (l : list A) :
  exists pre : list A, l = pre ++ slice_last n l.
Proof.
  unfold slice_last. destruct (0 <? n); eexists; symmetry; apply take_drop.
Qed.

Lemma slice_last_length {A : Type} (n : Z) (l : list A) :
  1 <= n -> length (slice_last n l) = Nat.min (Z.to_nat n) (length l).
Proof.
  intros Hn. unfold slice_last.
  destruct (Z.ltb_spec 0 n); [|lia]. rewrite length_drop. lia.
Qed.

Lemma slice_last_all {A : Type} (n : Z) (l : list A) :
  n = 0 \/ Z.of_nat (length l) <= n -> slice_last n l = l.
Proof.
  intros H. unfold slice_last. destruct (Z.ltb_spec 0 n).
  - replace (length l - Z.to_nat n)%nat with 0%nat by lia. reflexivity.
  - replace (Z.to_nat (- n)) with 0%nat by lia. reflexivity.
Qed.

(** X3: [get_latest_bars] never fails for under-supply: for a symbol of the
    feed it returns a suffix of the released bars, of length [min(N, len)]
    when [N >= 1]; for [N = 0] the slice [[-0:]] is the whole list of
    released bars, not the empty one. *)
Theorem get_latest_bars_undersupply :
  forall (dh : DataHandler) (s : string) (released : list bar) (N : Z),
    latest_symbol_data dh !! s = Some released ->
    exists bars : list bar,
      get_latest_bars dh s N = Ok bars
      /\ (exists older, released = older ++ bars)
      /\ (1 <= N -> length bars = Nat.min (Z.to_nat N) (length released))
      /\ (N = 0 -> bars = released)
      /\ (N = 1 -> forall b, get_latest_bar dh s = Ok b -> bars = [b]).
Proof.
  intros dh s released N Hrel. exists (slice_last N released).
  unfold get_latest_bars, get_latest_bar.
  rewrite (proj2 (subscript_Ok _ _ _) Hrel). cbn [result_bind].
  split; [reflexivity|]. split; [apply slice_last_suffix|].
  split; [apply slice_last_length|]. split.
  - intros ->. apply slice_last_all. now left.
  - intros -> b Hb. unfold last_item in Hb.
    destruct (last released) as [b'|] eqn:E; [|discriminate].
    injection Hb as ->.
    destruct released as [|x l _] using rev_ind; [discriminate|].
    rewrite last_snoc in E. injection E as ->.
    unfold slice_last. change (0 <? 1) with true. cbv iota.
    replace (length (l ++ [b]) - Z.to_nat 1)%nat with (length l)
      by (rewrite length_app; cbn [length]; lia).
    apply drop_app_length.
Qed.

Lemma get_latest_bars_undersupply_witness :
  exists bars : list bar,
    get_latest_bars sample_bars "AAPL" 5 = Ok bars /\ length bars = 1%nat.
Proof.
  destruct (get_latest_bars_undersupply sample_bars "AAPL" [flat_bar 1 10] 5
              eq_refl) as (bars & Hrun & _ & Hlen & _).
  exists bars. split; [exact Hrun|]. rewrite Hlen by lia. reflexivity.
Defined.

(** X4: the getters of the feed on a symbol it does not know raise
    [KeyError]; on a symbol with no bar released yet, [get_latest_bar],
    [get_latest_bar_datetime] and [get_latest_bar_value] raise [IndexError],
    while [get_latest_bars] and [get_latest_bars_values] return an empty
    list, whatever the field asked for. *)
Theorem feed_getters_without_bars :
  forall (dh : DataHandler) (s val_type : string) (N : Z),
    (latest_symbol_data dh !! s = None ->
     get_latest_bar dh s = Raise KeyError
     /\ get_latest_bar_datetime dh s = Raise KeyError
     /\ get_latest_bar_value dh s val_type = Raise KeyError
     /\ get_latest_bars dh s N = Raise KeyError
     /\ get_latest_bars_values dh s val_type N = Raise KeyError)
    /\ (latest_symbol_data dh !! s = Some [] ->
        get_latest_bar dh s = Raise IndexError
        /\ get_latest_bar_datetime dh s = Raise IndexError
        /\ get_latest_bar_value dh s val_type = Raise IndexError
        /\ get_latest_bars dh s N = Ok []
        /\ get_latest_bars_values dh s val_type N = Ok []).
Proof.
  intros dh s val_type N. split; intros H.
  - unfold get_latest_bar, get_latest_bar_datetime, get_latest_bar_value,
      get_latest_bars_values, get_latest_bars, subscript.
    rewrite H. cbn. auto.
  - unfold get_latest_bar, get_latest_bar_datetime, get_latest_bar_value,
      get_latest_bars_values, get_latest_bars, subscript.
    rewrite H. cbn [result_bind last_item last].
    assert (Hs : slice_last N (@nil bar) = []).
    { unfold slice_last. destruct (0 <? N); apply drop_nil. }
    rewrite Hs. cbn. auto.
Qed.

Lemma feed_getters_without_bars_witness :
  get_latest_bar (DataHandler_init ["AAPL"] sample_frames) "AAPL"
  = Raise IndexError
  /\ get_latest_bars_values (DataHandler_init ["AAPL"] sample_frames) "AAPL"
       "close" 3 = Ok [].
Proof.
  destruct (proj2 (feed_getters_without_bars
                     (DataHandler_init ["AAPL"] sample_frames) "AAPL" "close" 3)
              eq_refl) as (H1 & _ & _ & _ & H5).
  split; [exact H1|exact H5].
Defined.

Lemma map_result_close (bars : list bar) :
  map_result (fun b : bar => getattr_row (snd b) "close") bars
  = Ok (map (fun b : bar => row_close (snd b)) bars).
Proof.
  induction bars as [|b bars IH]; [reflexivity|].
  cbn [map_result map]. rewrite IH. reflexivity.
Qed.

Lemma last_map {A B : Type} (f : A -> B) (l : list A) :
  last (map f l) = option_map f (last l).
Proof.
  induction l as [|x l IH]; [reflexivity|].
  destruct l as [|y l]; [reflexivity|]. exact IH.
Qed.

Lemma last_slice_last {A : Type} (n : Z) (l : list A) :
  1 <= n -> last (slice_last n l) = last l.
Proof.
  intros Hn. destruct l as [|x l _] using rev_ind.
  { unfold slice_last. destruct (0 <? n); now rewrite drop_nil. }
  unfold slice_last. destruct (Z.ltb_spec 0 n); [|lia].
  rewrite length_app. cbn [length].
  rewrite drop_app_le by lia. now rewrite !last_snoc.
Qed.

(** X5: for a symbol of the feed, [get_latest_bars_values] with the field
    ["close"] returns the closes of the bars [get_latest_bars] returns, in
    the same order; when [N >= 1] and a bar has been released its last entry
    is the value [get_latest_bar_value] returns. *)
Theorem latest_values_are_closes :
  forall (dh : DataHandler) (s : string) (released : list bar) (N : Z),
    latest_symbol_data dh !! s = Some released ->
    exists (bars : list bar) (values : list Q),
      get_latest_bars dh s N = Ok bars
      /\ get_latest_bars_values dh s "close" N = Ok values
      /\ values = map (fun b : bar => row_close (snd b)) bars
      /\ length values = length bars
      /\ (1 <= N -> forall v,
            get_latest_bar_value dh s "close" = Ok v -> last values = Some v).
Proof.
  intros dh s released N Hrel.
  exists (slice_last N released),
    (map (fun b : bar => row_close (snd b)) (slice_last N released)).
  unfold get_latest_bars_values, get_latest_bars, get_latest_bar_value.
  rewrite (proj2 (subscript_Ok _ _ _) Hrel). cbn [result_bind].
  split; [reflexivity|]. split; [apply map_result_close|].
  split; [reflexivity|]. split; [apply length_map|].
  intros HN v Hv. unfold last_item in Hv.
  rewrite last_map, (last_slice_last N released HN).
  destruct (last released) as [b|]; [|discriminate].
  cbn [result_bind getattr_row String.eqb Ascii.eqb Bool.eqb] in Hv.
  injection Hv as <-. reflexivity.
Qed.

Lemma latest_values_are_closes_witness :
  exists values : list Q,
    get_latest_bars_values sample_bars "AAPL" "close" 2 = Ok values
    /\ last values = Some 10%Q.
Proof.
  destruct (latest_values_are_closes sample_bars "AAPL" [flat_bar 1 10] 2
              eq_refl) as (bars & values & _ & Hv & _ & _ & Hlast).
  exists values. split; [exact Hv|].
  apply Hlast; [lia|reflexivity].
Defined.

(** ** The ledger *)

(** What [update_fill] does to a ledger, for a fill whose symbol is not one
    of the three keys of the current holdings that are not symbols. *)
Lemma update_fill_effect (bars : DataHandler) (p p' : Portfolio)
    (f : FillEvent) :
  fill_symbol f <> "cash" -> fill_symbol f <> "commission" ->
  fill_symbol f <> "total" ->
  update_fill bars p (Fill f) = Ok p' ->
  exists (pos : Z) (price held comm cash total : Q),
    current_positions p !! fill_symbol f = Some pos
    /\ get_latest_bar_value bars (fill_symbol f) "close" = Ok price
    /\ current_holdings p !! fill_symbol f = Some held
    /\ current_holdings p !! "commission" = Some comm
    /\ current_holdings p !! "cash" = Some cash
    /\ current_holdings p !! "total" = Some total
    /\ current_positions p' =
       <[fill_symbol f := pos + fill_dir (fill_direction f) * fill_quantity f]>
         (current_positions p)
    /\ (let cost := (inject_Z (fill_dir (fill_direction f)) * price
                     * inject_Z (fill_quantity f))%Q in
        current_holdings p' =
        <["total" := (total - (cost + fill_commission f))%Q]>
          (<["cash" := (cash - (cost + fill_commission f))%Q]>
             (<["commission" := (comm + fill_commission f)%Q]>
                (<[fill_symbol f := (held + cost)%Q]> (current_holdings p)))))
    /\ all_positions p' = all_positions p
    /\ all_holdings p' = all_holdings p
    /\ pf_symbol_list p' = pf_symbol_list p.
Proof.
  intros Hc Hm Ht H. unfold update_fill in H.
  cbn [event_type String.eqb Ascii.eqb Bool.eqb] in H.
  bind_inversion H. unfold update_positions_from_fill in E.
  bind_inversion E. injection E as <-. apply subscript_Ok in E0.
  unfold update_holdings_from_fill in H.
  cbn [set_current_positions current_holdings] in H.
  bind_inversion H. injection H as <-.
  repeat match goal with
         | Hs : subscript _ _ = Ok _ |- _ => apply subscript_Ok in Hs
         end.
  rewrite !lookup_insert_ne in E4 by congruence.
  rewrite !lookup_insert_ne in E3 by congruence.
  rewrite !lookup_insert_ne in E2 by congruence.
  eexists _, _, _, _, _, _.
  split; [exact E0|]. split; [reflexivity|]. split; [exact E1|].
  split; [exact E2|]. split; [exact E3|]. split; [exact E4|].
  cbn. auto.
Qed.

(** X6: a fill applied by [update_fill] moves the position of its symbol by
    [fill_dir * quantity] and no other position; in the current holdings it
    adds the cost to the entry of its symbol, the commission to
    ['commission'], and touches no entry of another symbol; the two
    histories are left as they are. *)
Theorem fill_moves_only_its_symbol :
  forall (bars : DataHandler) (p p' : Portfolio) (f : FillEvent),
    fill_symbol f <> "cash" -> fill_symbol f <> "commission" ->
    fill_symbol f <> "total" ->
    update_fill bars p (Fill f) = Ok p' ->
    exists (pos : Z) (price held comm : Q),
      current_positions p !! fill_symbol f = Some pos
      /\ get_latest_bar_value bars (fill_symbol f) "close" = Ok price
      /\ current_holdings p !! fill_symbol f = Some held
      /\ current_holdings p !! "commission" = Some comm
      /\ current_positions p' !! fill_symbol f
         = Some (pos + fill_dir (fill_direction f) * fill_quantity f)
      /\ (forall k, k <> fill_symbol f ->
                    current_positions p' !! k = current_positions p !! k)
      /\ current_holdings p' !! fill_symbol f
         = Some (held + inject_Z (fill_dir (fill_direction f)) * price
                        * inject_Z (fill_quantity f))%Q
      /\ current_holdings p' !! "commission"
         = Some (comm + fill_commission f)%Q
      /\ (forall k, k <> fill_symbol f -> k <> "cash" -> k <> "commission" ->
                    k <> "total" ->
                    current_holdings p' !! k = current_holdings p !! k)
      /\ all_positions p' = all_positions p
      /\ all_holdings p' = all_holdings p.
Proof.
  intros bars p p' f Hc Hm Ht H.
  destruct (update_fill_effect bars p p' f Hc Hm Ht H)
    as (pos & price & held & comm & cash & total & Hpos & Hprice & Hheld
        & Hcomm & Hcash & Htot & Hp' & Hh' & Hap & Hah & _).
  cbv zeta in Hh'.
  exists pos, price, held, comm.
  split; [exact Hpos|]. split; [exact Hprice|]. split; [exact Hheld|].
  split; [exact Hcomm|]. rewrite Hp', Hh'.
  split; [apply lookup_insert_eq|].
  split; [intros k Hk; now rewrite lookup_insert_ne|].
  split.
  { rewrite !lookup_insert_ne by congruence. apply lookup_insert_eq. }
  split.
  { rewrite !lookup_insert_ne by congruence. apply lookup_insert_eq. }
  split; [|auto].
  intros k H1 H2 H3 H4. now rewrite !lookup_insert_ne by congruence.
Qed.

Lemma fill_moves_only_its_symbol_witness :
  exists p' : Portfolio,
    update_fill sample_bars sample_portfolio (Fill sample_fill) = Ok p'
    /\ current_positions p' !! "AAPL" = Some 100.
Proof.
  destruct (update_fill sample_bars sample_portfolio (Fill sample_fill))
    as [p'|] eqn:E; [|vm_compute in E; discriminate E].
  destruct (fill_moves_only_its_symbol sample_bars sample_portfolio p'
              sample_fill) as (pos & price & held & comm & Hpos & _ & _ & _
                               & Hnew & _);
    [discriminate | discriminate | discriminate | exact E |].
  exists p'. split; [reflexivity|].
  change (fill_symbol sample_fill) with "AAPL" in Hnew, Hpos.
  rewrite Hnew. vm_compute in Hpos. injection Hpos as <-. reflexivity.
Defined.

(** X7: a fill whose direction is neither ['BUY'] nor ['SELL'] has the sign
    0: [update_fill] leaves every position as it is, and still charges the
    commission, so the cash goes down by exactly the commission. *)
Theorem fill_with_unknown_direction :
  forall (bars : DataHandler) (p p' : Portfolio) (f : FillEvent),
    fill_direction f <> "BUY" -> fill_direction f <> "SELL" ->
    fill_symbol f <> "cash" -> fill_symbol f <> "commission" ->
    fill_symbol f <> "total" ->
    update_fill bars p (Fill f) = Ok p' ->
    current_positions p' = current_positions p
    /\ exists cash cash' : Q,
        current_holdings p !! "cash" = Some cash
        /\ current_holdings p' !! "cash" = Some cash'
        /\ (cash' == cash - fill_commission f)%Q.
Proof.
  intros bars p p' f HB HS Hc Hm Ht H.
  destruct (update_fill_effect bars p p' f Hc Hm Ht H)
    as (pos & price & held & comm & cash & total & Hpos & Hprice & Hheld
        & Hcomm & Hcash & Htot & Hp' & Hh' & _).
  cbv zeta in Hh'.
  assert (Hdir : fill_dir (fill_direction f) = 0).
  { unfold fill_dir.
    destruct (String.eqb_spec (fill_direction f) "BUY"); [contradiction|].
    destruct (String.eqb_spec (fill_direction f) "SELL"); [contradiction|].
    reflexivity. }
  rewrite Hdir in Hp', Hh'. split.
  - rewrite Hp'. apply insert_id. rewrite Hpos. f_equal. lia.
  - exists cash, (cash - (inject_Z 0 * price * inject_Z (fill_quantity f)
                          + fill_commission f))%Q.
    split; [exact Hcash|]. split.
    + rewrite Hh'. rewrite lookup_insert_ne by discriminate.
      apply lookup_insert_eq.
    + change (inject_Z 0) with 0%Q. ring.
Qed.

Lemma fill_with_unknown_direction_witness :
  exists p' : Portfolio,
    update_fill sample_bars sample_portfolio
      (Fill (FillEvent_init 0 "AAPL" "ARCA" 100 "HOLD" None None)) = Ok p'
    /\ current_positions p' = current_positions sample_portfolio.
Proof.
  destruct (update_fill sample_bars sample_portfolio
              (Fill (FillEvent_init 0 "AAPL" "ARCA" 100 "HOLD" None None)))
    as [p'|] eqn:E; [|vm_compute in E; discriminate E].
  exists p'. split; [reflexivity|].
  apply (fill_with_unknown_direction sample_bars sample_portfolio p'
           (FillEvent_init 0 "AAPL" "ARCA" 100 "HOLD" None None));
    try discriminate. exact E.
Defined.

(** X8: a BUY fill followed by a SELL fill of the same symbol and quantity,
    priced by the same feed: the second fill is accepted whenever the first
    was, and the positions, which are integers, are back where they were.
    The entries of the current holdings are those of the two updates in
    turn, the cost added and then added back with the opposite sign, the
    two commissions added one after the other; nothing is said to cancel,
    since in floating point it need not. *)
Theorem buy_then_sell_round_trip :
  forall (bars : DataHandler) (p p1 : Portfolio) (buy sell : FillEvent),
    fill_direction buy = "BUY" -> fill_direction sell = "SELL" ->
    fill_symbol sell = fill_symbol buy ->
    fill_quantity sell = fill_quantity buy ->
    fill_symbol buy <> "cash" -> fill_symbol buy <> "commission" ->
    fill_symbol buy <> "total" ->
    update_fill bars p (Fill buy) = Ok p1 ->
    exists (p2 : Portfolio) (price cash held paid : Q),
      update_fill bars p1 (Fill sell) = Ok p2
      /\ current_positions p2 = current_positions p
      /\ get_latest_bar_value bars (fill_symbol buy) "close" = Ok price
      /\ current_holdings p !! "cash" = Some cash
      /\ current_holdings p !! fill_symbol buy = Some held
      /\ current_holdings p !! "commission" = Some paid
      /\ (let cost := (inject_Z 1 * price * inject_Z (fill_quantity buy))%Q in
          let back := (inject_Z (-1) * price * inject_Z (fill_quantity buy))%Q in
          current_holdings p2 !! fill_symbol buy = Some (held + cost + back)%Q
          /\ current_holdings p2 !! "commission"
             = Some (paid + fill_commission buy + fill_commission sell)%Q
          /\ current_holdings p2 !! "cash"
             = Some (cash - (cost + fill_commission buy)
                     - (back + fill_commission sell))%Q).
Proof.
  intros bars p p1 buy sell HB HS Hsym Hqty Hc Hm Ht H1.
  destruct (update_fill_effect bars p p1 buy Hc Hm Ht H1)
    as (pos & price & held & comm & cash & total & Hpos & Hprice & Hheld
        & Hcomm & Hcash & Htot & Hp1 & Hh1 & _).
  cbv zeta in Hh1. rewrite HB in Hp1, Hh1.
  change (fill_dir "BUY") with 1 in Hp1, Hh1.
  destruct (update_fill bars p1 (Fill sell)) as [p2|err] eqn:H2.
  2:{ exfalso. unfold update_fill in H2.
      cbn [event_type String.eqb Ascii.eqb Bool.eqb] in H2.
      unfold update_positions_from_fill, update_holdings_from_fill in H2.
      rewrite Hsym, Hp1 in H2. unfold subscript in H2.
      rewrite lookup_insert_eq in H2.
      cbn [result_bind set_current_positions current_holdings] in H2.
      rewrite Hprice, Hh1 in H2. cbn [result_bind] in H2.
      rewrite !lookup_insert_ne, lookup_insert_eq in H2 by congruence.
      cbn [result_bind] in H2.
      rewrite !lookup_insert_ne, lookup_insert_eq in H2 by congruence.
      cbn [result_bind] in H2.
      rewrite !lookup_insert_ne, lookup_insert_eq in H2 by congruence.
      cbn [result_bind] in H2.
      rewrite !lookup_insert_ne, lookup_insert_eq in H2 by congruence.
      discriminate H2. }
  assert (Hc' : fill_symbol sell <> "cash") by (now rewrite Hsym).
  assert (Hm' : fill_symbol sell <> "commission") by (now rewrite Hsym).
  assert (Ht' : fill_symbol sell <> "total") by (now rewrite Hsym).
  destruct (update_fill_effect bars p1 p2 sell Hc' Hm' Ht' H2)
    as (pos1 & price1 & held1 & comm1 & cash1 & total1 & Hpos1 & Hprice1
        & Hheld1 & Hcomm1 & Hcash1 & Htot1 & Hp2 & Hh2 & _).
  cbv zeta in Hh2. rewrite HS, Hsym, Hqty in *.
  change (fill_dir "SELL") with (-1) in Hp2, Hh2.
  rewrite Hprice in Hprice1. injection Hprice1 as <-.
  rewrite Hp1, lookup_insert_eq in Hpos1. injection Hpos1 as <-.
  rewrite Hh1 in Hheld1, Hcash1.
  rewrite !lookup_insert_ne, lookup_insert_eq in Hheld1 by congruence.
  rewrite lookup_insert_ne, lookup_insert_eq in Hcash1 by congruence.
  injection Hheld1 as <-. injection Hcash1 as <-.
  rewrite Hh1 in Hcomm1.
  rewrite !lookup_insert_ne, lookup_insert_eq in Hcomm1 by congruence.
  injection Hcomm1 as <-.
  exists p2, price, cash, held, comm.
  split; [reflexivity|]. split.
  { rewrite Hp2, Hp1, insert_insert_eq. apply insert_id.
    rewrite Hpos. f_equal. lia. }
  split; [exact Hprice|]. split; [exact Hcash|]. split; [exact Hheld|].
  split; [exact Hcomm|]. cbv zeta. rewrite Hh2. split; [|split].
  - rewrite !lookup_insert_ne by congruence. apply lookup_insert_eq.
  - rewrite !lookup_insert_ne by congruence. apply lookup_insert_eq.
  - rewrite lookup_insert_ne by discriminate. apply lookup_insert_eq.
Qed.

Lemma buy_then_sell_round_trip_witness :
  exists p1 p2 : Portfolio,
    update_fill sample_bars sample_portfolio (Fill sample_fill) = Ok p1
    /\ update_fill sample_bars p1
         (Fill (FillEvent_init 0 "AAPL" "ARCA" 100 "SELL" None None)) = Ok p2
    /\ current_positions p2 = current_positions sample_portfolio.
Proof.
  destruct (update_fill sample_bars sample_portfolio (Fill sample_fill))
    as [p1|] eqn:E; [|vm_compute in E; discriminate E].
  destruct (buy_then_sell_round_trip sample_bars sample_portfolio p1
              sample_fill (FillEvent_init 0 "AAPL" "ARCA" 100 "SELL" None None))
    as (p2 & price & cash & held & paid & H2 & Hpos & _);
    try reflexivity; try discriminate; [exact E|].
  exists p1, p2. auto.
Defined.
Lemma update_fill_needs_position (bars : DataHandler) (p p' : Portfolio)
    (f : FillEvent) :
  update_fill bars p (Fill f) = Ok p' ->
  is_Some (current_positions p !! fill_symbol f).
Proof.
  unfold update_fill. cbn [event_type String.eqb Ascii.eqb Bool.eqb].
  intros H. bind_inversion H. unfold update_positions_from_fill in E.
  bind_inversion E. apply subscript_Ok in E0. eauto.
Qed.

Lemma update_fill_not_fill (bars : DataHandler) (p p' : Portfolio) (e : event) :
  update_fill bars p e = Ok p' ->
  p' = p \/ exists f, e = Fill f.
Proof.
  unfold update_fill.
  destruct (String.eqb (event_type e) "FILL"); [|intros [= <-]; now left].
  destruct e; try discriminate. eauto.
Qed.

(** A fill subtracts the same amount from ['cash'] and from ['total']. *)
Lemma update_fill_total_and_cash (bars : DataHandler) (p p' : Portfolio)
    (f : FillEvent) (cash : Q) :
  fill_symbol f <> "cash" -> fill_symbol f <> "total" ->
  update_fill bars p (Fill f) = Ok p' ->
  current_holdings p !! "cash" = Some cash ->
  current_holdings p !! "total" = Some cash ->
  exists cash' : Q,
    current_holdings p' !! "cash" = Some cash'
    /\ current_holdings p' !! "total" = Some cash'
    /\ pf_symbol_list p' = pf_symbol_list p
    /\ forall k, is_Some (current_positions p' !! k) ->
                 is_Some (current_positions p !! k).
Proof.
  intros Hc Ht H Hcash Htot. unfold update_fill in H.
  cbn [event_type String.eqb Ascii.eqb Bool.eqb] in H.
  bind_inversion H. unfold update_positions_from_fill in E.
  bind_inversion E. injection E as <-. apply subscript_Ok in E0.
  unfold update_holdings_from_fill in H.
  cbn [set_current_positions current_holdings] in H.
  bind_inversion H. injection H as <-.
  repeat match goal with
         | Hs : subscript _ _ = Ok _ |- _ => apply subscript_Ok in Hs
         end.
  rewrite !lookup_insert_ne in E4 by congruence.
  rewrite !lookup_insert_ne in E3 by congruence.
  rewrite Hcash in E3. injection E3 as <-.
  rewrite Htot in E4. injection E4 as <-.
  eexists. cbn [set_current_holdings set_current_positions current_holdings
                current_positions pf_symbol_list].
  split; [|split; [|split]].
  - rewrite lookup_insert_ne by discriminate. apply lookup_insert_eq.
  - apply lookup_insert_eq.
  - reflexivity.
  - intros k Hk. destruct (decide (fill_symbol f = k)) as [<-|Hne].
    + eauto.
    + now rewrite lookup_insert_ne in Hk by exact Hne.
Qed.

(** X9: the ['total'] of the current holdings is the cash.  In every ledger
    reached from a fresh one by calls that return (no symbol being named
    ['cash'] or ['total']), the entries ['total'] and ['cash'] of the
    current holdings are the same number: both start at the initial capital
    and every fill subtracts the same amount from both.  The market value
    of the positions enters the ['total'] of the records that
    [update_timeindex] appends, never the current one. *)
Theorem current_total_is_the_cash :
  forall (bars : DataHandler) (start : timestamp) (capital : Q)
         (calls : list ledger_call) (p : Portfolio),
    "cash" ∉ symbol_list bars -> "total" ∉ symbol_list bars ->
    for_each ledger_step calls (Portfolio_init bars start capital) = Ok p ->
    exists cash : Q,
      current_holdings p !! "cash" = Some cash
      /\ current_holdings p !! "total" = Some cash.
Proof.
  intros bars start capital calls p Hc Ht Hrun.
  assert (G : forall (cs : list ledger_call) (p0 : Portfolio),
             for_each ledger_step cs p0 = Ok p ->
             (forall k, is_Some (current_positions p0 !! k) ->
                        k ∈ symbol_list bars) ->
             (exists cash : Q,
                 current_holdings p0 !! "cash" = Some cash
                 /\ current_holdings p0 !! "total" = Some cash) ->
             exists cash : Q,
               current_holdings p !! "cash" = Some cash
               /\ current_holdings p !! "total" = Some cash).
  { induction cs as [|c cs IH]; intros p0 H Hdom Hinv.
    - injection H as <-. exact Hinv.
    - cbn [for_each] in H. bind_inversion H. rename a into p1.
      destruct Hinv as (cash & Hcash & Htot).
      destruct c as [bars1|q e|bars1 e]; cbn [ledger_step] in E.
      + destruct (update_timeindex_keeps_current _ _ _ E) as (H1 & H2 & _).
        apply (IH _ H); [now rewrite H2|]. exists cash. now rewrite H1.
      + bind_inversion E. injection E as <-. apply (IH _ H Hdom). eauto.
      + destruct (update_fill_not_fill _ _ _ _ E) as [->|[f ->]];
          [apply (IH _ H Hdom); eauto|].
        assert (Hin : fill_symbol f ∈ symbol_list bars).
        { apply Hdom. apply (update_fill_needs_position _ _ _ _ E). }
        assert (H1 : fill_symbol f <> "cash")
          by (intros Heq; rewrite Heq in Hin; contradiction).
        assert (H2 : fill_symbol f <> "total")
          by (intros Heq; rewrite Heq in Hin; contradiction).
        destruct (update_fill_total_and_cash bars1 p0 p1 f cash H1 H2 E
                    Hcash Htot) as (cash' & Hc' & Ht' & _ & Hdom').
        apply (IH _ H); [|eauto].
        intros k Hk. apply Hdom, Hdom', Hk. }
  apply (G _ _ Hrun).
  - intros k [v Hk]. cbn [Portfolio_init current_positions] in Hk.
    destruct (decide (k ∈ symbol_list bars)) as [Hin|Hout]; [exact Hin|].
    rewrite dict_of_symbols_lookup_other in Hk by exact Hout. discriminate.
  - destruct (Portfolio_init_entries bars start capital) as (_ & H1 & _ & H3).
    exists capital. split; [exact H1|exact H3].
Qed.

Lemma current_total_is_the_cash_witness :
  exists (p : Portfolio) (cash : Q),
    for_each ledger_step
      [CallFill sample_bars (Fill sample_fill); CallTimeindex sample_bars]
      (Portfolio_init sample_bars 0 100000) = Ok p
    /\ current_holdings p !! "cash" = Some cash
    /\ current_holdings p !! "total" = Some cash.
Proof.
  destruct (for_each ledger_step
              [CallFill sample_bars (Fill sample_fill); CallTimeindex sample_bars]
              (Portfolio_init sample_bars 0 100000)) as [p|] eqn:E;
    [|vm_compute in E; discriminate E].
  destruct (current_total_is_the_cash sample_bars 0 100000
              [CallFill sample_bars (Fill sample_fill); CallTimeindex sample_bars]
              p) as (cash & H1 & H2).
  - intros H. apply list_elem_of_singleton in H. discriminate H.
  - intros H. apply list_elem_of_singleton in H. discriminate H.
  - exact E.
  - exists p, cash. auto.
Defined.

Lemma update_timeindex_shape (bars : DataHandler) (p p' : Portfolio) :
  update_timeindex bars p = Ok p' ->
  exists dp dh : gmap string pyval,
    p' = set_histories p (all_positions p ++ [dp]) (all_holdings p ++ [dh])
    /\ exists (s0 : string) (t : timestamp),
        first_item (pf_symbol_list p) = Ok s0
        /\ get_latest_bar_datetime bars s0 = Ok t
        /\ for_each (positions_row_step p) (pf_symbol_list p)
             (<["datetime" := VTime t]>
                (dict_of_symbols (VInt 0) (pf_symbol_list p))) = Ok dp.
Proof.
  intros H. unfold update_timeindex in H. bind_inversion H.
  injection H as <-. eexists _, _. split; [reflexivity|].
  eexists _, _. split; [reflexivity|]. split; [exact E0|]. exact E1.
Qed.

(** X10: the two histories are append-only and grow in lock-step: whatever
    calls are made on a ledger, the records it had are still there, in
    place and unchanged, followed by as many new records in the one history
    as in the other, one per [update_timeindex] call. *)
Theorem histories_are_append_only :
  forall (symbols : list string) (calls : list ledger_call) (p p' : Portfolio),
    for_each ledger_step calls p = Ok p' ->
    exists new_positions new_holdings : list (gmap string pyval),
      all_positions p' = all_positions p ++ new_positions
      /\ all_holdings p' = all_holdings p ++ new_holdings
      /\ length new_positions = length new_holdings
      /\ length new_positions = length (stamped_times symbols calls).
Proof.
  intros symbols calls. induction calls as [|c calls IH]; intros p p' H.
  { injection H as <-. exists [], []. now rewrite !app_nil_r. }
  cbn [for_each] in H. bind_inversion H.
  destruct (IH _ _ H) as (np & nh & Hp & Hh & Hl & Hn).
  destruct c as [bars|q e|bars e]; cbn [ledger_step] in E;
    cbn [stamped_times].
  - destruct (update_timeindex_shape _ _ _ E) as (dp & dh & -> & _).
    cbn [set_histories all_positions all_holdings] in Hp, Hh.
    exists (dp :: np), (dh :: nh).
    rewrite Hp, Hh, <- !app_assoc. cbn [app length]. auto.
  - bind_inversion E. injection E as <-. exists np, nh. auto.
  - destruct (update_fill_keeps_histories _ _ _ _ E) as (H1 & H2 & _).
    exists np, nh. rewrite <- H1, <- H2. auto.
Qed.

Lemma histories_are_append_only_witness :
  exists (p' : Portfolio) (new_holdings : list (gmap string pyval)),
    for_each ledger_step
      [CallTimeindex sample_bars; CallFill sample_bars (Fill sample_fill)]
      sample_portfolio = Ok p'
    /\ all_holdings p' = all_holdings sample_portfolio ++ new_holdings
    /\ length new_holdings = 1%nat.
Proof.
  destruct (for_each ledger_step
              [CallTimeindex sample_bars; CallFill sample_bars (Fill sample_fill)]
              sample_portfolio) as [p'|] eqn:E;
    [|vm_compute in E; discriminate E].
  destruct (histories_are_append_only ["AAPL"] _ _ _ E)
    as (np & nh & _ & Hh & Hl & Hn).
  exists p', nh. split; [reflexivity|]. split; [exact Hh|].
  rewrite <- Hl, Hn. reflexivity.
Defined.

Lemma positions_rows_copy (p : Portfolio) (symbols : list string) :
  forall dp dp' : gmap string pyval,
    for_each (positions_row_step p) symbols dp = Ok dp' ->
    forall s, s ∈ symbols ->
              exists q, current_positions p !! s = Some q
                        /\ dp' !! s = Some (VInt q).
Proof.
  induction symbols as [|x symbols IH]; intros dp dp' H s Hs;
    [inversion Hs|].
  cbn [for_each] in H. bind_inversion H.
  destruct (decide (s ∈ symbols)) as [Hin|Hout]; [apply (IH _ _ H s Hin)|].
  apply elem_of_cons in Hs. destruct Hs as [->|Hs]; [|contradiction].
  unfold positions_row_step in E. bind_inversion E. injection E as <-.
  apply subscript_Ok in E0. exists a0. split; [exact E0|].
  rewrite (positions_rows_frame _ _ _ _ H x Hout). apply lookup_insert_eq.
Qed.

(** X11: the record [update_timeindex] appends to the positions history is
    a copy of the current positions: under every symbol of the list it has
    the position held at the call, and it has no entry besides the symbols
    and ['datetime']; the current positions themselves are not touched. *)
Theorem positions_snapshot_is_a_copy :
  forall (bars : DataHandler) (p p' : Portfolio),
    update_timeindex bars p = Ok p' ->
    exists dp : gmap string pyval,
      all_positions p' = all_positions p ++ [dp]
      /\ current_positions p' = current_positions p
      /\ (forall s, s ∈ pf_symbol_list p ->
                    exists q, current_positions p !! s = Some q
                              /\ dp !! s = Some (VInt q))
      /\ (forall k, k ∉ pf_symbol_list p -> k <> "datetime" -> dp !! k = None).
Proof.
  intros bars p p' H.
  destruct (update_timeindex_shape _ _ _ H)
    as (dp & dh & -> & s0 & t & _ & _ & Hrows).
  exists dp. split; [reflexivity|]. split; [reflexivity|]. split.
  - apply (positions_rows_copy _ _ _ _ Hrows).
  - intros k Hk Hdt. rewrite (positions_rows_frame _ _ _ _ Hrows k Hk).
    rewrite lookup_insert_ne by congruence.
    now apply dict_of_symbols_lookup_other.
Qed.

Lemma positions_snapshot_is_a_copy_witness :
  exists (p' : Portfolio) (dp : gmap string pyval),
    update_timeindex sample_bars (portfolio sample_rejected_backtest) = Ok p'
    /\ all_positions p'
       = all_positions (portfolio sample_rejected_backtest) ++ [dp]
    /\ dp !! "AAPL" = Some (VInt 100).
Proof.
  destruct (update_timeindex sample_bars (portfolio sample_rejected_backtest))
    as [p'|] eqn:E; [|vm_compute in E; discriminate E].
  destruct (positions_snapshot_is_a_copy _ _ _ E) as (dp & H1 & _ & H3 & _).
  exists p', dp. split; [reflexivity|]. split; [exact H1|].
  destruct (H3 "AAPL" ltac:(apply list_elem_of_singleton; reflexivity))
    as (q & Hq & Hdp).
  vm_compute in Hq. injection Hq as <-. exact Hdp.
Defined.

(** X12: [update_timeindex] needs a bar of the first symbol.  With an empty
    symbol list it raises [IndexError]; when the feed does not know the
    first symbol it raises [KeyError]; when the feed has released no bar of
    the first symbol yet it raises [IndexError].  In each case no record is
    appended. *)
Theorem update_timeindex_needs_a_bar :
  forall (bars : DataHandler) (p : Portfolio),
    (pf_symbol_list p = [] -> update_timeindex bars p = Raise IndexError)
    /\ (forall s0 rest,
           pf_symbol_list p = s0 :: rest ->
           (latest_symbol_data bars !! s0 = None ->
            update_timeindex bars p = Raise KeyError)
           /\ (latest_symbol_data bars !! s0 = Some [] ->
               update_timeindex bars p = Raise IndexError)).
Proof.
  intros bars p. split.
  - intros H. unfold update_timeindex. now rewrite H.
  - intros s0 rest H. unfold update_timeindex. rewrite H.
    cbn [first_item result_bind].
    unfold get_latest_bar_datetime, subscript.
    split; intros Hl; rewrite Hl; reflexivity.
Qed.

Lemma update_timeindex_needs_a_bar_witness :
  update_timeindex (DataHandler_init ["AAPL"] sample_frames) sample_portfolio
  = Raise IndexError.
Proof.
  apply (proj2 (update_timeindex_needs_a_bar
                  (DataHandler_init ["AAPL"] sample_frames) sample_portfolio)
           "AAPL" []); reflexivity.
Defined.

(** X13: [generate_naive_order] raises [KeyError] exactly for a signal on a
    symbol the ledger holds no position entry for.  Every order it does
    generate is a market order for the signal's symbol, to BUY or to SELL,
    of a strictly positive quantity. *)
Theorem generated_orders_are_well_formed :
  forall (p : Portfolio) (s : SignalEvent),
    (current_positions p !! sig_symbol s = None <->
     generate_naive_order p s = Raise KeyError)
    /\ (forall e : event,
           generate_naive_order p s = Ok (Some e) ->
           exists o : OrderEvent,
             e = Order o
             /\ ord_symbol o = sig_symbol s
             /\ ord_order_type o = "MKT"
             /\ 0 < ord_quantity o
             /\ (ord_direction o = "BUY" \/ ord_direction o = "SELL")).
Proof.
  intros p s. split.
  - unfold generate_naive_order, subscript.
    destruct (current_positions p !! sig_symbol s); cbn [result_bind];
      split; intros H; try reflexivity; discriminate.
  - intros e H. unfold generate_naive_order in H. bind_inversion H.
    injection H as H.
    repeat match type of H with
           | context [if ?b then _ else _] => destruct b eqn:?
           end; try discriminate; injection H as <-;
      eexists; (split; [reflexivity|]); cbn;
      repeat match goal with
             | Hb : _ && _ = true |- _ =>
                 apply andb_true_iff in Hb; destruct Hb
             end;
      repeat split; auto; lia.
Qed.

Lemma generated_orders_are_well_formed_witness :
  exists o : OrderEvent,
    generate_naive_order sample_portfolio (long_signal "AAPL")
    = Ok (Some (Order o))
    /\ 0 < ord_quantity o.
Proof.
  destruct (proj2 (generated_orders_are_well_formed sample_portfolio
                     (long_signal "AAPL"))
              (Order (mkOrderEvent "AAPL" "MKT" 100 "BUY")) eq_refl)
    as (o & Ho & _ & _ & Hq & _).
  exists o. split; [now rewrite <- Ho|exact Hq].
Defined.

(** X14: an order and its fill.  When the fill of the order generated for
    a signal (same symbol, direction and quantity) is applied to the ledger
    that generated it, the position of the symbol becomes 100 for a LONG
    signal, -100 for a SHORT signal and 0 for an EXIT signal. *)
Theorem order_fill_sets_position :
  forall (bars : DataHandler) (p p' : Portfolio) (s : SignalEvent)
         (o : OrderEvent) (f : FillEvent),
    generate_naive_order p s = Ok (Some (Order o)) ->
    fill_symbol f = ord_symbol o ->
    fill_direction f = ord_direction o ->
    fill_quantity f = ord_quantity o ->
    update_fill bars p (Fill f) = Ok p' ->
    exists q : Z,
      current_positions p' !! sig_symbol s = Some q
      /\ (sig_signal_type s = "LONG" -> q = 100)
      /\ (sig_signal_type s = "SHORT" -> q = -100)
      /\ (sig_signal_type s = "EXIT" -> q = 0).
Proof.
  intros bars p p' s o f Hgen Hsym Hdir Hqty Hfill.
  destruct (current_positions p !! sig_symbol s) as [cur|] eqn:Hcur.
  2:{ unfold generate_naive_order, subscript in Hgen. rewrite Hcur in Hgen.
      discriminate Hgen. }
  destruct (generate_naive_order_cases p s cur Hcur)
    as (o' & Hgen' & HL & HS & HX & HO).
  rewrite Hgen in Hgen'. injection Hgen' as <-.
  assert (Hos : ord_symbol o = sig_symbol s).
  { unfold generate_naive_order in Hgen. bind_inversion Hgen.
    injection Hgen as Hgen.
    repeat match type of Hgen with
           | context [if ?b then _ else _] => destruct b
           end; try discriminate; injection Hgen as <-; reflexivity. }
  rewrite Hos in Hsym. rewrite <- Hsym in Hcur |- *.
  rewrite (update_fill_position bars p p' f cur Hcur Hfill).
  eexists. split; [reflexivity|]. rewrite Hdir, Hqty.
  split; [|split].
  - intros E. destruct (Z.eq_dec cur 0) as [->|Hne].
    + destruct (HL E) as [H1 _]. specialize (H1 eq_refl).
      injection H1 as ->. reflexivity.
    + destruct (HL E) as [_ H1]. discriminate (H1 Hne).
  - intros E. destruct (Z.eq_dec cur 0) as [->|Hne].
    + destruct (HS E) as [H1 _]. specialize (H1 eq_refl).
      injection H1 as ->. reflexivity.
    + destruct (HS E) as [_ H1]. discriminate (H1 Hne).
  - intros E. destruct (HX E) as (Hp & Hn & Hz).
    destruct (Z.lt_trichotomy cur 0) as [Hlt|[->|Hgt]].
    + specialize (Hn Hlt). injection Hn as ->. cbn. lia.
    + discriminate (Hz eq_refl).
    + specialize (Hp Hgt). injection Hp as ->. cbn. lia.
Qed.

Lemma order_fill_sets_position_witness :
  exists (p' : Portfolio) (q : Z),
    update_fill sample_bars (portfolio sample_rejected_backtest)
      (Fill (FillEvent_init 0 "AAPL" "ARCA" 100 "SELL" None None)) = Ok p'
    /\ current_positions p' !! "AAPL" = Some q /\ q = 0.
Proof.
  destruct (update_fill sample_bars (portfolio sample_rejected_backtest)
              (Fill (FillEvent_init 0 "AAPL" "ARCA" 100 "SELL" None None)))
    as [p'|] eqn:E; [|vm_compute in E; discriminate E].
  destruct (order_fill_sets_position sample_bars
              (portfolio sample_rejected_backtest) p' (exit_signal "AAPL")
              (mkOrderEvent "AAPL" "MKT" 100 "SELL")
              (FillEvent_init 0 "AAPL" "ARCA" 100 "SELL" None None)
              eq_refl eq_refl eq_refl eq_refl E) as (q & Hq & _ & _ & Hx).
  exists p', q. split; [reflexivity|]. split; [exact Hq|].
  apply Hx. reflexivity.
Defined.

(** ** The simulation loop *)

Lemma update_bars_symbol_rows (dh dh' : DataHandler) (s : string) :
  update_bars_symbol dh s = Ok dh' ->
  (forall k, (length (default [] (symbol_data dh' !! k))
              <= length (default [] (symbol_data dh !! k)))%nat)
  /\ (continue_backtest dh' = false
      \/ (length (default [] (symbol_data dh' !! s))
          < length (default [] (symbol_data dh !! s)))%nat).
Proof.
  unfold update_bars_symbol. intros H. bind_inversion H.
  apply subscript_Ok in E. destruct a as [|b rest].
  - injection H as <-. cbn. split; [intros k; lia | now left].
  - bind_inversion H. injection H as <-. cbn [symbol_data continue_backtest].
    split.
    + intros k. destruct (decide (s = k)) as [<-|Hne].
      * rewrite lookup_insert_eq, E. cbn. lia.
      * rewrite lookup_insert_ne by exact Hne. lia.
    + right. rewrite lookup_insert_eq, E. cbn. lia.
Qed.

Lemma for_each_update_bars_rows (symbols : list string) :
  forall dh dh' : DataHandler,
    for_each update_bars_symbol symbols dh = Ok dh' ->
    forall k, (length (default [] (symbol_data dh' !! k))
               <= length (default [] (symbol_data dh !! k)))%nat.
Proof.
  induction symbols as [|s symbols IH]; intros dh dh' H k.
  { injection H as <-. lia. }
  cbn [for_each] in H. bind_inversion H.
  destruct (update_bars_symbol_rows _ _ _ E) as [H1 _].
  specialize (IH _ _ H k). specialize (H1 k). lia.
Qed.

Lemma advance_progress {StrategyState ExecutionState : Type}
    (bt bt1 : Backtest StrategyState ExecutionState) (s0 : string)
    (rest : list string) :
  symbol_list (data_handler bt) = s0 :: rest ->
  advance bt = Ok bt1 ->
  symbol_list (data_handler bt1) = s0 :: rest
  /\ (continue_backtest (data_handler bt1) = false
      \/ (length (default [] (symbol_data (data_handler bt1) !! s0))
          < length (default [] (symbol_data (data_handler bt) !! s0)))%nat).
Proof.
  intros Hs H. unfold advance, update_bars in H. bind_inversion H.
  injection H as <-. bind_inversion E. injection E as <-.
  cbn [data_handler fst].
  destruct (for_each_update_bars_effect _ _ _ E0) as (Hl & _).
  split; [congruence|].
  rewrite Hs in E0. cbn [for_each] in E0. bind_inversion E0.
  destruct (update_bars_symbol_rows _ _ _ E) as [_ [Hc|Hlt]].
  - left. destruct (for_each_update_bars_effect _ _ _ E0) as (_ & _ & H3 & _).
    auto.
  - right. pose proof (for_each_update_bars_rows _ _ _ E0 s0). lia.
Qed.

Section RunFacts.

Context {StrategyState ExecutionState : Type}.

Variable calculate_signals :
  StrategyState -> DataHandler -> event ->
  result (StrategyState * list (option event)).

Variable execute_order :
  ExecutionState -> event -> result (ExecutionState * list (option event)).

Local Abbreviation BT := (Backtest StrategyState ExecutionState).
Local Abbreviation handle_ := (handle calculate_signals execute_order).
Local Abbreviation drain_ := (drain calculate_signals execute_order).
Local Abbreviation run_ := (run_backtest calculate_signals execute_order).

Lemma run_fuel_mono (fuel : nat) :
  forall (bt : BT) (extra : nat),
    run_ fuel bt <> OutOfFuel -> run_ (fuel + extra) bt = run_ fuel bt.
Proof.
  induction fuel as [|fuel IH]; intros bt extra H; [contradiction|].
  cbn [run_backtest Nat.add] in H |- *.
  destruct (continue_backtest (data_handler bt)); [|reflexivity].
  destruct (advance bt) as [bt1|]; [|reflexivity].
  change (S (fuel + extra)) with (S fuel + extra)%nat.
  destruct (drain_ (S fuel) bt1) as [[bt2 logs]| |] eqn:Hd;
    try contradiction.
  - rewrite drain_fuel_mono by (rewrite Hd; discriminate).
    rewrite Hd. apply IH, H.
  - rewrite drain_fuel_mono by (rewrite Hd; discriminate).
    now rewrite Hd.
Qed.

Lemma handle_counters (bt bt' : BT) (x : option event) :
  handle_ bt x = Ok bt' ->
  orders bt' = orders bt + count_type "ORDER" [x]
  /\ fills bt' = fills bt + count_type "FILL" [x].
Proof.
  rewrite !count_type_single.
  destruct x as [e|]; cbn [handle].
  2:{ intros [= <-]. lia. }
  unfold dispatch.
  destruct (String.eqb_spec (event_type e) "MARKET") as [EM|EM].
  { rewrite EM. cbn [String.eqb Ascii.eqb Bool.eqb].
    intros H. bind_inversion H. injection H as <-. cbn. lia. }
  destruct (String.eqb_spec (event_type e) "SIGNAL") as [ES|ES].
  { rewrite ES. cbn [String.eqb Ascii.eqb Bool.eqb].
    intros H. bind_inversion H. injection H as <-. cbn. lia. }
  destruct (String.eqb_spec (event_type e) "ORDER") as [EO|EO].
  { rewrite EO. cbn [String.eqb Ascii.eqb Bool.eqb].
    intros H. bind_inversion H. injection H as <-. cbn. lia. }
  destruct (String.eqb_spec (event_type e) "FILL") as [EF|EF].
  { intros H. bind_inversion H. injection H as <-. cbn. lia. }
  intros [= <-]. lia.
Qed.

Lemma drain_counters (fuel : nat) :
  forall (bt bt' : BT) (taken added : Queue),
    drain_ fuel bt = Finished (bt', (taken, added)) ->
    orders bt' = orders bt + count_type "ORDER" taken
    /\ fills bt' = fills bt + count_type "FILL" taken.
Proof.
  induction fuel as [|fuel IH]; intros bt bt' taken added H; [discriminate|].
  cbn [drain] in H.
  destruct (events bt) as [|x rest] eqn:Hq; cbn [get] in H.
  { injection H as <- <- <-. unfold count_type. cbn. lia. }
  destruct (handle_ (set_events bt rest) x) as [bt1|] eqn:Hh; [|discriminate].
  destruct (drain_ fuel bt1) as [[bt2 [tk ad]]| |] eqn:Hd; try discriminate.
  injection H as <- <- <-.
  destruct (handle_counters _ _ _ Hh) as [Ho Hf].
  destruct (IH _ _ _ _ Hd) as [Io If].
  cbn [set_events orders fills] in Ho, Hf.
  change (x :: tk) with ([x] ++ tk). rewrite !count_type_app. lia.
Qed.

(** X15: a Drain that finishes has counted every ORDER item and every FILL
    item it took from the queue, once each, and nothing else; and it has
    left the market data as they were: only the Advance phase moves the
    feed. *)
Theorem drain_counts_what_it_takes :
  forall (fuel : nat) (bt bt' : BT) (taken added : Queue),
    drain_ fuel bt = Finished (bt', (taken, added)) ->
    orders bt' = orders bt + count_type "ORDER" taken
    /\ fills bt' = fills bt + count_type "FILL" taken
    /\ orders bt <= orders bt'
    /\ fills bt <= fills bt'
    /\ data_handler bt' = data_handler bt.
Proof.
  intros fuel bt bt' taken added H.
  destruct (drain_counters fuel _ _ _ _ H) as [Ho Hf].
  destruct (drain_as_calls calculate_signals execute_order [] fuel _ _ _ _ H)
    as [Hd _].
  split; [exact Ho|]. split; [exact Hf|].
  assert (Hnn : forall ty q, 0 <= count_type ty q)
    by (intros; unfold count_type; lia).
  pose proof (Hnn "ORDER" taken). pose proof (Hnn "FILL" taken).
  split; [lia|]. split; [lia|exact Hd].
Qed.

Hypothesis strategy_contract : puts_only_signals calculate_signals.
Hypothesis execution_contract : puts_only_fills execute_order.

Lemma run_terminates_from (n : nat) :
  forall (bt : BT) (s0 : string) (rest : list string),
    symbol_list (data_handler bt) = s0 :: rest ->
    (length (default [] (symbol_data (data_handler bt) !! s0)) < n)%nat ->
    exists fuel : nat, run_ fuel bt <> OutOfFuel.
Proof.
  induction n as [|n IH]; intros bt s0 rest Hs Hn; [lia|].
  destruct (continue_backtest (data_handler bt)) eqn:Hc.
  2:{ exists 1%nat. cbn [run_backtest]. rewrite Hc. discriminate. }
  destruct (advance bt) as [bt1|err] eqn:Hadv.
  2:{ exists 1%nat. cbn [run_backtest]. rewrite Hc, Hadv. discriminate. }
  destruct (drain_terminates calculate_signals execute_order
              strategy_contract execution_contract bt1) as [fd Hfd].
  destruct fd as [|fd]; [contradiction|].
  destruct (advance_progress bt bt1 s0 rest Hs Hadv) as [Hs1 Hprog].
  destruct (drain_ (S fd) bt1) as [[bt2 [tk ad]]|err|] eqn:Hd;
    try contradiction.
  2:{ exists (S fd). cbn [run_backtest]. rewrite Hc, Hadv, Hd. discriminate. }
  destruct (drain_as_calls calculate_signals execute_order [] _ _ _ _ _ Hd)
    as [Hdh _].
  assert (Hnext : exists f2, run_ f2 bt2 <> OutOfFuel).
  { destruct Hprog as [Hoff|Hlt].
    - exists 1%nat. cbn [run_backtest]. rewrite Hdh, Hoff. discriminate.
    - apply (IH bt2 s0 rest); rewrite Hdh; [exact Hs1|lia]. }
  destruct Hnext as [f2 Hf2].
  exists (S (fd + f2)). cbn [run_backtest]. rewrite Hc, Hadv.
  change (S (fd + f2)) with (S fd + f2)%nat.
  rewrite drain_fuel_mono by (rewrite Hd; discriminate). rewrite Hd.
  rewrite (Nat.add_comm fd f2).
  rewrite run_fuel_mono by exact Hf2. exact Hf2.
Qed.

Lemma run_without_symbols (bt : BT) :
  symbol_list (data_handler bt) = [] ->
  pf_symbol_list (portfolio bt) = [] ->
  events bt = [] ->
  exists fuel : nat, run_ fuel bt <> OutOfFuel.
Proof.
  intros Hs Hp Hq.
  destruct (continue_backtest (data_handler bt)) eqn:Hc.
  2:{ exists 1%nat. cbn [run_backtest]. rewrite Hc. discriminate. }
  destruct (advance bt) as [bt1|err] eqn:Hadv.
  2:{ exists 1%nat. cbn [run_backtest]. rewrite Hc, Hadv. discriminate. }
  assert (H1 : events bt1 = [Some Market] /\ portfolio bt1 = portfolio bt).
  { unfold advance, update_bars in Hadv. rewrite Hs, Hq in Hadv.
    cbn in Hadv. injection Hadv as <-. split; reflexivity. }
  destruct H1 as [Hq1 Hp1].
  exists 2%nat. cbn [run_backtest]. rewrite Hc, Hadv.
  cbn [drain]. rewrite Hq1. cbn [get handle]. unfold dispatch.
  cbn [event_type String.eqb Ascii.eqb Bool.eqb].
  destruct (calculate_signals _ _ Market) as [r|err]; cbn [result_bind];
    [|discriminate].
  cbn [set_events portfolio]. rewrite Hp1. unfold update_timeindex.
  rewrite Hp. cbn [first_item result_bind]. discriminate.
Qed.

(** X16: every backtest ends.  With a strategy that puts only signals and
    an execution handler that puts only fills, a run started by
    [Backtest.__init__] on any symbols and frames either finishes or is
    aborted by an exception, and more fuel does not change which. *)
Theorem run_backtest_terminates :
  forall (symbols : list string) (frames : gmap string (list bar))
         (capital : Q) (start : timestamp) (strategy0 : StrategyState)
         (execution0 : ExecutionState),
    exists fuel : nat,
      run_ fuel (Backtest_init symbols frames capital start strategy0
                   execution0) <> OutOfFuel
      /\ forall extra : nat,
          run_ (fuel + extra)
            (Backtest_init symbols frames capital start strategy0 execution0)
          = run_ fuel
              (Backtest_init symbols frames capital start strategy0
                 execution0).
Proof.
  intros symbols frames capital start st0 ex0.
  assert (H : exists fuel : nat,
             run_ fuel (Backtest_init symbols frames capital start st0 ex0)
             <> OutOfFuel).
  { destruct symbols as [|s0 rest].
    - apply run_without_symbols; reflexivity.
    - eapply run_terminates_from; [reflexivity|]. apply Nat.lt_succ_diag_r. }
  destruct H as [fuel Hfuel]. exists fuel. split; [exact Hfuel|].
  intros extra. apply run_fuel_mono, Hfuel.
Qed.

End RunFacts.

Lemma run_backtest_terminates_witness :
  exists fuel : nat,
    run_backtest replay_signals simulated_execute_order fuel scenario_backtest
    <> OutOfFuel.
Proof.
  destruct (run_backtest_terminates replay_signals simulated_execute_order
              replay_signals_contract simulated_execute_order_contract
              ["AAPL"] sample_frames 100000 0
              [[]; [long_signal "AAPL"]; [exit_signal "AAPL"]] tt)
    as (fuel & Hfuel & _).
  exists fuel. exact Hfuel.
Defined.

Lemma drain_counts_what_it_takes_witness :
  match drain replay_signals simulated_execute_order 10 scenario_second_bar with
  | Finished (bt', _) => orders bt' = 1 /\ fills bt' = 1
  | Aborted _ => False
  | OutOfFuel => False
  end.
Proof.
  pose proof (drain_counts_what_it_takes replay_signals
                simulated_execute_order 10 scenario_second_bar) as H.
  destruct (drain replay_signals simulated_execute_order 10
              scenario_second_bar) as [[bt' [taken added]]|err|] eqn:E.
  - destruct (H bt' taken added eq_refl) as (Ho & Hf & _).
    rewrite Ho, Hf. vm_compute in E. injection E as <- <- <-.
    split; reflexivity.
  - vm_compute in E. discriminate E.
  - vm_compute in E. discriminate E.
Defined.

Lemma count_type_signals_only (ty : string) (puts : Queue) :
  ty <> "SIGNAL" ->
  Forall (fun x => exists s, x = Some (Signal s)) puts ->
  count_type ty puts = 0.
Proof.
  intros Hty H. induction H as [|x puts [s ->] _ IH]; [reflexivity|].
  change (Some (Signal s) :: puts) with ([Some (Signal s)] ++ puts).
  rewrite count_type_app, IH, count_type_single. cbn [event_type].
  destruct (String.eqb_spec "SIGNAL" ty); [congruence|reflexivity].
Qed.

Lemma count_type_fills_only (ty : string) (puts : Queue) :
  ty <> "FILL" ->
  Forall (fun x => x = None \/ exists f, x = Some (Fill f)) puts ->
  count_type ty puts = 0.
Proof.
  intros Hty H. induction H as [|x puts Hx _ IH]; [reflexivity|].
  change (x :: puts) with ([x] ++ puts).
  rewrite count_type_app, IH, count_type_single.
  destruct Hx as [->|[f ->]]; [reflexivity|]. cbn [event_type].
  destruct (String.eqb_spec "FILL" ty); [congruence|reflexivity].
Qed.

Lemma count_type_nonneg (ty : string) (q : Queue) : 0 <= count_type ty q.
Proof. unfold count_type. lia. Qed.

Section OrderBudget.

Context {StrategyState ExecutionState : Type}.

Variable calculate_signals :
  StrategyState -> DataHandler -> event ->
  result (StrategyState * list (option event)).

Variable execute_order :
  ExecutionState -> event -> result (ExecutionState * list (option event)).

Hypothesis strategy_contract : puts_only_signals calculate_signals.
Hypothesis execution_contract : puts_only_fills execute_order.

Local Abbreviation BT := (Backtest StrategyState ExecutionState).
Local Abbreviation handle_ := (handle calculate_signals execute_order).
Local Abbreviation drain_ := (drain calculate_signals execute_order).
Local Abbreviation run_ := (run_backtest calculate_signals execute_order).

(** Orders counted or still queued never outnumber the signals counted. *)
Lemma handle_order_budget (bt bt' : BT) (x : option event) (rest : Queue) :
  handle_ (set_events bt rest) x = Ok bt' ->
  orders bt + count_type "ORDER" (x :: rest) <= signals bt ->
  orders bt' + count_type "ORDER" (events bt') <= signals bt'
  /\ count_type "MARKET" (events bt') = count_type "MARKET" rest.
Proof.
  change (x :: rest) with ([x] ++ rest).
  rewrite count_type_app, count_type_single.
  destruct x as [e|]; cbn [handle].
  2:{ intros [= <-]. cbn [set_events orders events signals]. lia. }
  unfold dispatch.
  destruct (String.eqb_spec (event_type e) "MARKET") as [EM|EM].
  { rewrite EM. cbn [String.eqb Ascii.eqb Bool.eqb].
    intros H. bind_inversion H. injection H as <-.
    cbn [set_events orders events signals strategy data_handler] in *.
    destruct a as [st' puts]. apply strategy_contract in E. cbn [snd].
    rewrite !count_type_app.
    rewrite (count_type_signals_only "ORDER" puts) by (discriminate || exact E).
    rewrite (count_type_signals_only "MARKET" puts) by (discriminate || exact E).
    lia. }
  destruct (String.eqb_spec (event_type e) "SIGNAL") as [ES|ES].
  { rewrite ES. cbn [String.eqb Ascii.eqb Bool.eqb].
    intros H. bind_inversion H. injection H as <-.
    cbn [set_events orders events signals portfolio] in *.
    unfold update_signal in E. rewrite ES in E.
    cbn [String.eqb Ascii.eqb Bool.eqb] in E.
    destruct e; try discriminate E. bind_inversion E. injection E as <-.
    unfold put. rewrite !count_type_app, !count_type_single. intros Hb.
    unfold generate_naive_order in E0. bind_inversion E0.
    injection E0 as <-.
    repeat match goal with
           | |- context [if ?b && ?c then _ else _] => destruct (b && c)
           end; cbn [event_type String.eqb Ascii.eqb Bool.eqb]; lia. }
  destruct (String.eqb_spec (event_type e) "ORDER") as [EO|EO].
  { intros H. bind_inversion H. injection H as <-.
    cbn [set_events orders events signals execution_handler] in *.
    destruct a as [ex' puts]. apply execution_contract in E. cbn [snd].
    rewrite !count_type_app.
    rewrite (count_type_fills_only "ORDER" puts) by (discriminate || exact E).
    rewrite (count_type_fills_only "MARKET" puts) by (discriminate || exact E).
    lia. }
  destruct (String.eqb_spec (event_type e) "FILL") as [EF|EF].
  { intros H. bind_inversion H. injection H as <-.
    cbn [set_events orders events signals]. lia. }
  intros [= <-]. cbn [set_events orders events signals]. lia.
Qed.

Lemma drain_order_budget (fuel : nat) :
  forall (bt bt' : BT) (taken added : Queue),
    drain_ fuel bt = Finished (bt', (taken, added)) ->
    orders bt + count_type "ORDER" (events bt) <= signals bt ->
    orders bt' <= signals bt'
    /\ count_type "MARKET" taken = count_type "MARKET" (events bt).
Proof.
  induction fuel as [|fuel IH]; intros bt bt' taken added H Hb; [discriminate|].
  cbn [drain] in H.
  destruct (events bt) as [|x rest] eqn:Hq; cbn [get] in H.
  { injection H as <- <- <-. unfold count_type in *. cbn in *. lia. }
  destruct (handle_ (set_events bt rest) x) as [bt1|] eqn:Hh; [|discriminate].
  destruct (drain_ fuel bt1) as [[bt2 [tk ad]]| |] eqn:Hd; try discriminate.
  injection H as <- <- <-.
  destruct (handle_order_budget _ _ _ _ Hh Hb) as [Hb1 Hm1].
  destruct (IH _ _ _ _ Hd Hb1) as [Hb2 Hm2].
  split; [exact Hb2|].
  change (x :: tk) with ([x] ++ tk). change (x :: rest) with ([x] ++ rest).
  rewrite !count_type_app. lia.
Qed.

Lemma advance_effect (bt bt1 : BT) :
  advance bt = Ok bt1 ->
  events bt1 = events bt ++ [Some Market]
  /\ signals bt1 = signals bt /\ orders bt1 = orders bt
  /\ fills bt1 = fills bt /\ portfolio bt1 = portfolio bt
  /\ strategy bt1 = strategy bt
  /\ execution_handler bt1 = execution_handler bt
  /\ for_each update_bars_symbol (symbol_list (data_handler bt))
       (data_handler bt) = Ok (data_handler bt1).
Proof.
  intros H. unfold advance, update_bars in H. bind_inversion H.
  injection H as <-. bind_inversion E. injection E as <-.
  cbn. unfold put. auto 10.
Qed.

Lemma run_order_budget (fuel : nat) :
  forall bt bt' : BT,
    run_ fuel bt = Finished bt' ->
    events bt = [] ->
    orders bt <= signals bt ->
    orders bt' <= signals bt'.
Proof.
  induction fuel as [|fuel IH]; intros bt bt' H Hq Hb; [discriminate|].
  cbn [run_backtest] in H.
  destruct (continue_backtest (data_handler bt)).
  2:{ injection H as <-. exact Hb. }
  destruct (advance bt) as [bt1|] eqn:Hadv; [|discriminate].
  destruct (drain_ (S fuel) bt1) as [[bt2 [tk ad]]| |] eqn:Hd;
    try discriminate.
  destruct (advance_effect _ _ Hadv) as (Hq1 & Hs1 & Ho1 & _).
  destruct (drain_order_budget _ _ _ _ _ Hd) as [Hb2 _].
  { rewrite Hq1, Hq, Hs1, Ho1. unfold count_type. cbn. lia. }
  apply (IH _ _ H); [|exact Hb2].
  apply (drain_finished calculate_signals execute_order _ _ _ _ _ Hd).
Qed.

(** X17: there are never more orders than signals.  With a strategy that
    puts only signals and an execution handler that puts only fills, the
    order counter of a finished run is at most its signal counter: every
    order comes from one signal, and a signal gives at most one order. *)
Theorem orders_never_outnumber_signals :
  forall (fuel : nat) (symbols : list string)
         (frames : gmap string (list bar)) (capital : Q) (start : timestamp)
         (strategy0 : StrategyState) (execution0 : ExecutionState) (bt' : BT),
    run_ fuel (Backtest_init symbols frames capital start strategy0 execution0)
    = Finished bt' ->
    orders bt' <= signals bt'.
Proof.
  intros fuel symbols frames capital start st0 ex0 bt' H.
  apply (run_order_budget fuel _ _ H); reflexivity.
Qed.

Lemma init_feed_keyed (symbols : list string)
    (frames : gmap string (list bar)) :
  (forall s, s ∈ symbols -> is_Some (frames !! s)) ->
  forall s, s ∈ symbols ->
            is_Some (symbol_data (DataHandler_init symbols frames) !! s)
            /\ latest_symbol_data (DataHandler_init symbols frames) !! s
               = Some [].
Proof.
  intros H s Hs. split; [apply H, Hs|].
  apply (dict_of_symbols_lookup_in (V := list bar) [] symbols s Hs).
Qed.

(** X18: a first symbol without rows aborts the run.  When the frame of the
    first symbol is empty, the first [update_bars] releases no bar for it,
    and the [MarketEvent] it puts all the same makes [update_timeindex] ask
    for the latest bar of that symbol: the run ends with an exception and
    not with a result, an [IndexError] unless the strategy has raised
    first. *)
Theorem first_symbol_without_rows_aborts :
  forall (fuel : nat) (s0 : string) (rest : list string)
         (frames : gmap string (list bar)) (capital : Q) (start : timestamp)
         (strategy0 : StrategyState) (execution0 : ExecutionState),
    NoDup (s0 :: rest) ->
    frames !! s0 = Some [] ->
    (forall s, s ∈ rest -> is_Some (frames !! s)) ->
    exists err : pyerror,
      run_ (S (S fuel))
        (Backtest_init (s0 :: rest) frames capital start strategy0 execution0)
      = Aborted err
      /\ ((forall dh, exists r, calculate_signals strategy0 dh Market = Ok r) ->
          err = IndexError).
Proof.
  intros fuel s0 rest frames capital start st0 ex0 Hnd Hs0 Hrest.
  assert (Hkeys : forall s, s ∈ s0 :: rest -> is_Some (frames !! s)).
  { intros s Hs. apply elem_of_cons in Hs. destruct Hs as [->|Hs]; eauto. }
  pose proof (init_feed_keyed _ _ Hkeys) as Hk.
  destruct (for_each_update_bars_step (s0 :: rest)
              (DataHandler_init (s0 :: rest) frames) Hnd)
    as (dh1 & Hrun & _ & Hin & _).
  { intros s Hs. destruct (Hk s Hs) as [H1 H2]. split; [exact H1|].
    rewrite H2. eauto. }
  specialize (Hin s0 [] ltac:(now left) (proj2 (Hk s0 ltac:(now left)))).
  cbn [DataHandler_init symbol_data] in Hin. rewrite Hs0 in Hin.
  destruct Hin as [_ Hlatest].
  set (bt0 := Backtest_init (s0 :: rest) frames capital start st0 ex0).
  assert (Hadv : advance bt0
                 = Ok {| events := [Some Market];
                         signals := 0;
                         orders := 0;
                         fills := 0;
                         data_handler := dh1;
                         strategy := st0;
                         portfolio :=
                           Portfolio_init
                             (DataHandler_init (s0 :: rest) frames)
                             start capital;
                         execution_handler := ex0 |}).
  { unfold advance, update_bars.
    change (data_handler bt0) with (DataHandler_init (s0 :: rest) frames).
    change (symbol_list (DataHandler_init (s0 :: rest) frames))
      with (s0 :: rest).
    rewrite Hrun. reflexivity. }
  cbn [run_backtest].
  change (continue_backtest (data_handler bt0)) with true. cbv iota.
  rewrite Hadv.
  cbn [drain get events handle set_events dispatch event_type
       String.eqb Ascii.eqb Bool.eqb strategy data_handler portfolio].
  destruct (calculate_signals st0 dh1 Market) as [r|e] eqn:Hcs;
    cbn [result_bind].
  - assert (Hti : update_timeindex dh1
                    (Portfolio_init (DataHandler_init (s0 :: rest) frames)
                       start capital)
                  = Raise IndexError).
    { unfold update_timeindex.
      change (pf_symbol_list
                (Portfolio_init (DataHandler_init (s0 :: rest) frames)
                   start capital)) with (s0 :: rest).
      cbn [first_item result_bind]. unfold get_latest_bar_datetime.
      rewrite (proj2 (subscript_Ok _ _ _) Hlatest). reflexivity. }
    rewrite Hti. cbn [result_bind]. exists IndexError. auto.
  - exists e. split; [reflexivity|]. intros Hcontract.
    destruct (Hcontract dh1) as [r Hr]. congruence.
Qed.

Lemma run_record_count (fuel : nat) :
  forall (bt bt' : BT) (m : nat),
    run_ fuel bt = Finished bt' ->
    events bt = [] ->
    orders bt <= signals bt ->
    continue_backtest (data_handler bt) = true ->
    NoDup (symbol_list (data_handler bt)) ->
    (forall s, s ∈ symbol_list (data_handler bt) ->
               is_Some (latest_symbol_data (data_handler bt) !! s)
               /\ exists rows, symbol_data (data_handler bt) !! s = Some rows
                               /\ (m <= length rows)%nat) ->
    (exists s rows, s ∈ symbol_list (data_handler bt)
                    /\ symbol_data (data_handler bt) !! s = Some rows
                    /\ length rows = m) ->
    length (all_positions (portfolio bt'))
    = (length (all_positions (portfolio bt)) + m + 1)%nat
    /\ length (all_holdings (portfolio bt'))
       = (length (all_holdings (portfolio bt)) + m + 1)%nat
    /\ continue_backtest (data_handler bt') = false.
Proof.
  induction fuel as [|fuel IH]; intros bt bt' m H Hq Hb Hc Hnd Hall Hmin;
    [discriminate|].
  cbn [run_backtest] in H. rewrite Hc in H.
  destruct (advance bt) as [bt1|] eqn:Hadv; [|discriminate].
  destruct (drain_ (S fuel) bt1) as [[bt2 [tk ad]]| |] eqn:Hd;
    try discriminate.
  destruct (advance_effect _ _ Hadv)
    as (Hq1 & Hs1 & Ho1 & _ & Hp1 & _ & _ & Hfeed).
  destruct (for_each_update_bars_step _ (data_handler bt) Hnd)
    as (dh1 & Hrun & _ & Hin & Hcont).
  { intros s Hs. destruct (Hall s Hs) as [H1 (rows & H2 & _)].
    split; [rewrite H2; eauto | exact H1]. }
  rewrite Hrun in Hfeed. injection Hfeed as Hdh1.
  destruct (for_each_update_bars_effect _ _ _ Hrun) as (Hsl & _).
  destruct (drain_order_budget _ _ _ _ _ Hd) as [Hb2 Hm].
  { rewrite Hq1, Hq, Hs1, Ho1. unfold count_type. cbn. lia. }
  destruct (drain_as_calls calculate_signals execute_order
              (symbol_list (data_handler bt)) _ _ _ _ _ Hd)
    as (Hdh2 & calls & Hcalls & Hstamps).
  destruct (ledger_calls_lengths (symbol_list (data_handler bt)) calls _ _
              Hcalls) as [Lp Lh].
  assert (Hone : length (stamped_times (symbol_list (data_handler bt)) calls)
                 = 1%nat).
  { rewrite Hm, Hq1, Hq in Hstamps. unfold count_type in Hstamps.
    cbn in Hstamps. lia. }
  rewrite Hone, Hp1 in Lp, Lh.
  pose proof (drain_finished calculate_signals execute_order _ _ _ _ _ Hd)
    as Hq2.
  destruct m as [|m].
  - assert (Hc2 : continue_backtest (data_handler bt2) = false).
    { rewrite Hdh2, <- Hdh1.
      apply Bool.not_true_is_false. intros E.
      apply Hcont in E. destruct E as [_ E].
      destruct Hmin as (s & rows & Hs & Hrows & Hlen).
      destruct rows; [|discriminate Hlen]. destruct (E s Hs Hrows). }
    destruct fuel as [|fuel]; [discriminate|].
    cbn [run_backtest] in H. rewrite Hc2 in H. injection H as <-.
    split; [lia|]. split; [lia|exact Hc2].
  - assert (Hrows : forall s, s ∈ symbol_list (data_handler bt) ->
               exists released b rest,
                 latest_symbol_data (data_handler bt) !! s = Some released
                 /\ symbol_data (data_handler bt) !! s = Some (b :: rest)
                 /\ symbol_data dh1 !! s = Some rest
                 /\ latest_symbol_data dh1 !! s = Some (released ++ [b])).
    { intros s Hs. destruct (Hall s Hs) as [[released Hrel] (rows & Hr & Hlen)].
      specialize (Hin s released Hs Hrel). rewrite Hr in Hin.
      destruct rows as [|b rest]; [cbn in Hlen; lia|].
      exists released, b, rest. tauto. }
    destruct (IH bt2 bt' m H (proj1 Hq2) Hb2) as (Rp & Rh & Rc).
    + rewrite Hdh2, <- Hdh1. apply Hcont. split; [exact Hc|].
      intros s Hs. destruct (Hrows s Hs) as (released & b & rest & _ & -> & _).
      discriminate.
    + rewrite Hdh2, <- Hdh1, Hsl. exact Hnd.
    + rewrite Hdh2, <- Hdh1, Hsl. intros s Hs.
      destruct (Hrows s Hs) as (released & b & rest & _ & Hr & Hr1 & Hl1).
      rewrite Hl1, Hr1. split; [eauto|]. exists rest. split; [reflexivity|].
      destruct (Hall s Hs) as [_ (rows & Hr' & Hlen)].
      rewrite Hr in Hr'. injection Hr' as <-. cbn [length] in Hlen. lia.
    + rewrite Hdh2, <- Hdh1, Hsl.
      destruct Hmin as (s & rows & Hs & Hr' & Hlen).
      destruct (Hrows s Hs) as (released & b & rest & _ & Hr & Hr1 & _).
      exists s, rest. split; [exact Hs|]. split; [exact Hr1|].
      rewrite Hr in Hr'. injection Hr' as <-. cbn [length] in Hlen. lia.
    + split; [lia|]. split; [lia|exact Rc].
Qed.

(** X19: how many records a finished run leaves.  Over distinct symbols
    whose frames are all loaded, the shortest having [m] rows, a run that
    finishes has handled [m + 1] MarketEvents: each history holds the
    initial record and one record per MarketEvent, [m + 2] in all, and
    [continue_backtest] is off.  (The last MarketEvent is the one put by
    the [update_bars] that found a symbol exhausted.) *)
Theorem finished_run_record_count :
  forall (fuel : nat) (symbols : list string)
         (frames : gmap string (list bar)) (capital : Q) (start : timestamp)
         (strategy0 : StrategyState) (execution0 : ExecutionState) (bt' : BT)
         (m : nat),
    NoDup symbols ->
    (forall s, s ∈ symbols ->
               exists rows, frames !! s = Some rows /\ (m <= length rows)%nat) ->
    (exists s rows, s ∈ symbols /\ frames !! s = Some rows
                    /\ length rows = m) ->
    run_ fuel (Backtest_init symbols frames capital start strategy0 execution0)
    = Finished bt' ->
    length (all_positions (portfolio bt')) = (m + 2)%nat
    /\ length (all_holdings (portfolio bt')) = (m + 2)%nat
    /\ continue_backtest (data_handler bt') = false.
Proof.
  intros fuel symbols frames capital start st0 ex0 bt' m Hnd Hall Hmin H.
  destruct (run_record_count fuel _ _ m H) as (Rp & Rh & Rc);
    try reflexivity; try exact Hnd; try exact Hmin.
  - intros s Hs. split; [|apply Hall, Hs].
    cbn [Backtest_init data_handler].
    rewrite (proj2 (init_feed_keyed symbols frames
                      ltac:(intros k Hk; destruct (Hall k Hk) as (r & -> & _);
                            eauto) s Hs)).
    eauto.
  - split; [|split; [|exact Rc]].
    + rewrite Rp. cbn. lia.
    + rewrite Rh. cbn. lia.
Qed.

End OrderBudget.

Lemma orders_never_outnumber_signals_witness :
  match run_backtest replay_signals simulated_execute_order 10
          scenario_backtest with
  | Finished bt' => orders bt' <= signals bt'
  | Aborted _ => False
  | OutOfFuel => False
  end.
Proof.
  pose proof (orders_never_outnumber_signals replay_signals
                simulated_execute_order replay_signals_contract
                simulated_execute_order_contract 10 ["AAPL"] sample_frames
                100000 0 [[]; [long_signal "AAPL"]; [exit_signal "AAPL"]] tt)
    as H.
  change (Backtest_init ["AAPL"] sample_frames 100000 0
            [[]; [long_signal "AAPL"]; [exit_signal "AAPL"]] tt)
    with scenario_backtest in H.
  destruct (run_backtest replay_signals simulated_execute_order 10
              scenario_backtest) as [bt'|err|] eqn:E.
  - apply (H bt' eq_refl).
  - vm_compute in E. discriminate E.
  - vm_compute in E. discriminate E.
Defined.

Lemma first_symbol_without_rows_aborts_witness :
  run_backtest replay_signals simulated_execute_order 2
    (Backtest_init ["AAPL"] {[ "AAPL" := [] ]} 100000 0 [] tt)
  = Aborted IndexError.
Proof.
  destruct (first_symbol_without_rows_aborts replay_signals
              simulated_execute_order 0 "AAPL" [] {[ "AAPL" := [] ]}
              100000 0 [] tt) as (err & Hrun & Herr).
  - apply NoDup_singleton.
  - reflexivity.
  - intros s Hs. inversion Hs.
  - rewrite Hrun. f_equal. apply Herr. intros dh. eexists. reflexivity.
Defined.

Lemma finished_run_record_count_witness :
  match run_backtest replay_signals simulated_execute_order 10
          scenario_backtest with
  | Finished bt' =>
      length (all_positions (portfolio bt')) = 5%nat
      /\ length (all_holdings (portfolio bt')) = 5%nat
  | Aborted _ => False
  | OutOfFuel => False
  end.
Proof.
  pose proof (finished_run_record_count replay_signals
                simulated_execute_order replay_signals_contract
                simulated_execute_order_contract 10 ["AAPL"] sample_frames
                100000 0 [[]; [long_signal "AAPL"]; [exit_signal "AAPL"]] tt)
    as H.
  change (Backtest_init ["AAPL"] sample_frames 100000 0
            [[]; [long_signal "AAPL"]; [exit_signal "AAPL"]] tt)
    with scenario_backtest in H.
  destruct (run_backtest replay_signals simulated_execute_order 10
              scenario_backtest) as [bt'|err|] eqn:E.
  - destruct (H bt' 3%nat) as (Hp & Hh & _).
    + apply NoDup_singleton.
    + intros s Hs. apply list_elem_of_singleton in Hs. subst s.
      eexists. split; [reflexivity|]. cbn. lia.
    + exists "AAPL". eexists. split; [now left|]. split; reflexivity.
    + reflexivity.
    + split; [exact Hp|exact Hh].
  - vm_compute in E. discriminate E.
  - vm_compute in E. discriminate E.
Defined.

(** ** Equity curve and drawdowns, further *)






Lemma drawdown_loop_length (pnl : Series) :
  forall (h0 : Q) (d0 : option Q) (hs : list Q) (dds durs : Series),
    drawdown_loop h0 d0 pnl = (hs, dds, durs) ->
    length hs = length pnl /\ length dds = length pnl
    /\ length durs = length pnl.
Proof.
  induction pnl as [|x pnl IH]; intros h0 d0 hs dds durs H.
  { injection H as <- <- <-. auto. }
  cbn [drawdown_loop] in H.
  destruct (drawdown_loop (py_max h0 x)
              (if is_zero (fsub (Some (py_max h0 x)) x) then Some 0%Q
               else fadd d0 (Some 1%Q)) pnl)
    as [[hs' dds'] durs'] eqn:E.
  injection H as <- <- <-. destruct (IH _ _ _ _ _ E) as (H1 & H2 & H3).
  cbn [length]. auto.
Qed.

Lemma drawdown_series_shape (pnl : Series) (hwm : list Q)
    (drawdown duration : Series) :
  drawdown_series pnl = (hwm, drawdown, duration) ->
  length hwm = Nat.max 1 (length pnl)
  /\ length drawdown = length pnl
  /\ length duration = length pnl
  /\ hwm !! 0%nat = Some 0%Q
  /\ (pnl <> [] -> drawdown !! 0%nat = Some None
                   /\ duration !! 0%nat = Some None).
Proof.
  intros H. destruct pnl as [|x0 pnl].
  { injection H as <- <- <-. cbn. split; [reflexivity|].
    split; [reflexivity|]. split; [reflexivity|]. split; [reflexivity|].
    intros Hne. now destruct Hne. }
  cbn [drawdown_series] in H.
  destruct (drawdown_loop 0 None pnl) as [[hs dds] durs] eqn:E.
  injection H as <- <- <-.
  destruct (drawdown_loop_length _ _ _ _ _ _ E) as (H1 & H2 & H3).
  cbn [length]. rewrite H1, H2, H3. repeat split; auto.
Qed.

Lemma py_max_cases (a : Q) (x : option Q) :
  (a <= py_max a x)%Q
  /\ (forall y, x = Some y -> (y <= py_max a x)%Q)
  /\ (py_max a x = a \/ x = Some (py_max a x)).
Proof.
  destruct x as [y|]; cbn [py_max].
  2:{ split; [apply Qle_refl|]. split; [discriminate|now left]. }
  destruct (Qgt_bool y a) eqn:E.
  - apply Qgt_bool_true in E. split; [now apply Qlt_le_weak|].
    split; [|now right]. intros y' [= <-]. apply Qle_refl.
  - apply Qgt_bool_false in E. split; [apply Qle_refl|].
    split; [|now left]. intros y' [= <-]. exact E.
Qed.

(** X21: the high-water mark is the running maximum of the curve and 0.
    [create_drawdowns] builds three lists of the length of [pnl]; [hwm[t]]
    is never negative and never falls, it is 0 or one of [pnl[1..t]], and
    no entry of [pnl[1..t]] exceeds it ([pnl[0]] is not looked at); so
    every drawdown that is a number is at least 0, and so is the maximum
    drawdown. *)
Theorem high_water_mark_is_running_maximum :
  forall (pnl : Series) (hwm : list Q) (drawdown duration : Series),
    drawdown_series pnl = (hwm, drawdown, duration) ->
    length hwm = Nat.max 1 (length pnl)
    /\ length drawdown = length pnl
    /\ length duration = length pnl
    /\ (forall (t : nat) (h : Q),
           hwm !! t = Some h ->
           (0 <= h)%Q
           /\ (h = 0%Q \/ exists j, (1 <= j <= t)%nat
                                    /\ pnl !! j = Some (Some h))
           /\ (forall j x, (1 <= j <= t)%nat -> pnl !! j = Some (Some x) ->
                           (x <= h)%Q)
           /\ (forall h', hwm !! S t = Some h' -> (h <= h')%Q))
    /\ (forall (t : nat) (d : Q), drawdown !! t = Some (Some d) -> (0 <= d)%Q)
    /\ (forall m : Q, series_max drawdown = Some m -> (0 <= m)%Q).
Proof.
  intros pnl hwm drawdown duration H.
  destruct (drawdown_series_shape _ _ _ _ H) as (Lh & Ld & Lu & H0 & Hnan).
  split; [exact Lh|]. split; [exact Ld|]. split; [exact Lu|].
  assert (Hstep : forall t h', hwm !! S t = Some h' ->
             exists h x, hwm !! t = Some h /\ pnl !! S t = Some x
                         /\ h' = py_max h x).
  { intros t h' Ht. assert (Hlt : (S t < length pnl)%nat).
    { apply lookup_lt_Some in Ht. lia. }
    destruct (lookup_lt_is_Some_2 pnl (S t) Hlt) as [x Hx].
    destruct (drawdown_series_lookup _ _ _ _ (S t) x H ltac:(lia) Hx)
      as (hp & dp & Hp & _ & Hh & _).
    replace (S t - 1)%nat with t in Hp by lia.
    exists hp, x. rewrite Ht in Hh. injection Hh as ->. auto. }
  assert (Hinv : forall (t : nat) (h : Q),
             hwm !! t = Some h ->
             (0 <= h)%Q
             /\ (h = 0%Q \/ exists j, (1 <= j <= t)%nat
                                      /\ pnl !! j = Some (Some h))
             /\ (forall j x, (1 <= j <= t)%nat -> pnl !! j = Some (Some x) ->
                             (x <= h)%Q)).
  { induction t as [|t IH]; intros h Ht.
    - rewrite H0 in Ht. injection Ht as <-. split; [apply Qle_refl|].
      split; [now left|]. intros j x Hj. lia.
    - destruct (Hstep t h Ht) as (hp & x & Hp & Hx & ->).
      destruct (IH hp Hp) as (I0 & I1 & I2).
      destruct (py_max_cases hp x) as (M1 & M2 & M3).
      split; [eapply Qle_trans; eassumption|]. split.
      + destruct M3 as [->|M3].
        * destruct I1 as [->|(j & Hj & Hpj)]; [now left|].
          right. exists j. split; [lia|exact Hpj].
        * right. exists (S t). split; [lia|]. rewrite Hx. f_equal. exact M3.
      + intros j y Hj Hy. destruct (decide (j = S t)) as [->|Hne].
        * rewrite Hx in Hy. injection Hy as ->. now apply M2.
        * eapply Qle_trans; [apply (I2 j y); [lia|exact Hy]|exact M1]. }
  assert (Hdd : forall (t : nat) (d : Q),
             drawdown !! t = Some (Some d) -> (0 <= d)%Q).
  { intros t d Hd. destruct t as [|t].
    - destruct pnl as [|x0 pnl].
      + apply lookup_lt_Some in Hd. cbn in Ld. lia.
      + destruct (Hnan ltac:(discriminate)) as [Hn _]. congruence.
    - assert (Hlt : (S t < length pnl)%nat).
      { apply lookup_lt_Some in Hd. lia. }
      destruct (lookup_lt_is_Some_2 pnl (S t) Hlt) as [x Hx].
      destruct (drawdown_series_lookup _ _ _ _ (S t) x H ltac:(lia) Hx)
        as (hp & dp & _ & _ & _ & Hdv & _).
      rewrite Hd in Hdv. injection Hdv as Hdv.
      destruct x as [y|]; [|discriminate Hdv]. cbn [fsub] in Hdv.
      injection Hdv as ->.
      destruct (py_max_cases hp (Some y)) as (_ & M2 & _).
      specialize (M2 y eq_refl).
      apply (Qplus_le_l _ _ y). ring_simplify. exact M2. }
  split; [|split].
  - intros t h Ht. destruct (Hinv t h Ht) as (I0 & I1 & I2).
    split; [exact I0|]. split; [exact I1|]. split; [exact I2|].
    intros h' Ht'. destruct (Hstep t h' Ht') as (hp & x & Hp & Hx & ->).
    rewrite Ht in Hp. injection Hp as <-.
    exact (proj1 (py_max_cases h x)).
  - exact Hdd.
  - intros m Hm. destruct (series_max_is_maximum drawdown) as [_ Hat].
    destruct (Hat m Hm) as [t Ht]. apply (Hdd t m Ht).
Qed.

Lemma high_water_mark_is_running_maximum_witness :
  exists (hwm : list Q) (drawdown duration : Series),
    drawdown_series [None; Some 1; Some (1 # 2); Some 2]%Q
    = (hwm, drawdown, duration)
    /\ length hwm = 4%nat
    /\ forall m : Q, series_max drawdown = Some m -> (0 <= m)%Q.
Proof.
  destruct (drawdown_series [None; Some 1; Some (1 # 2); Some 2]%Q)
    as [[hwm drawdown] duration] eqn:E.
  destruct (high_water_mark_is_running_maximum _ _ _ _ E)
    as (Lh & _ & _ & _ & _ & Hm).
  exists hwm, drawdown, duration. split; [reflexivity|].
  split; [exact Lh|exact Hm].
Defined.

(** X22: the duration counts the bars since the last new high.  An entry
    of the duration series that is a number is a whole number [k < t], the
    drawdown was zero [k] bars before [t] and at no bar since; an entry
    that is [NaN] means that no drawdown up to [t] was zero.  The maximum
    duration, when it is a number, is such a count. *)
Theorem duration_counts_bars_since_high :
  forall (pnl : Series) (hwm : list Q) (drawdown duration : Series),
    drawdown_series pnl = (hwm, drawdown, duration) ->
    (forall (t : nat) (d : Q),
        duration !! t = Some (Some d) ->
        exists k : nat,
          (d == inject_Z (Z.of_nat k))%Q
          /\ (k < t)%nat
          /\ (exists z, drawdown !! (t - k)%nat = Some (Some z) /\ (z == 0)%Q)
          /\ forall j z, (t - k < j <= t)%nat ->
                         drawdown !! j = Some (Some z) -> ~ (z == 0)%Q)
    /\ (forall t : nat,
           duration !! t = Some None ->
           forall j z, (j <= t)%nat ->
                       drawdown !! j = Some (Some z) -> ~ (z == 0)%Q)
    /\ (forall m : Q,
           series_max duration = Some m ->
           exists k : nat, (m == inject_Z (Z.of_nat k))%Q
                           /\ (k + 1 < length pnl)%nat).
Proof.
  intros pnl hwm drawdown duration H.
  destruct (drawdown_series_shape _ _ _ _ H) as (Lh & Ld & Lu & H0 & Hnan).
  assert (Hstep : forall t u, duration !! S t = Some u ->
             exists (dv d_prev : option Q),
               drawdown !! S t = Some dv
               /\ duration !! t = Some d_prev
               /\ u = if is_zero dv then Some 0%Q
                      else fadd d_prev (Some 1%Q)).
  { intros t u Ht. assert (Hlt : (S t < length pnl)%nat).
    { apply lookup_lt_Some in Ht. lia. }
    destruct (lookup_lt_is_Some_2 pnl (S t) Hlt) as [x Hx].
    destruct (drawdown_series_lookup _ _ _ _ (S t) x H ltac:(lia) Hx)
      as (hp & dp & _ & Hp & _ & Hdv & Hu).
    replace (S t - 1)%nat with t in Hp by lia.
    rewrite Ht in Hu. injection Hu as ->. eauto. }
  assert (Hfirst : forall z, drawdown !! 0%nat <> Some (Some z)).
  { intros z Hz. destruct pnl as [|x0 pnl].
    - apply lookup_lt_Some in Hz. cbn in Ld. lia.
    - destruct (Hnan ltac:(discriminate)) as [Hn _]. congruence. }
  assert (Hinv : forall (t : nat) (u : option Q),
             duration !! t = Some u ->
             match u with
             | Some d =>
                 exists k : nat,
                   (d == inject_Z (Z.of_nat k))%Q
                   /\ (k < t)%nat
                   /\ (exists z, drawdown !! (t - k)%nat = Some (Some z)
                                 /\ (z == 0)%Q)
                   /\ forall j z, (t - k < j <= t)%nat ->
                                  drawdown !! j = Some (Some z) ->
                                  ~ (z == 0)%Q
             | None =>
                 forall j z, (j <= t)%nat ->
                             drawdown !! j = Some (Some z) -> ~ (z == 0)%Q
             end).
  { induction t as [|t IH]; intros u Ht.
    - destruct pnl as [|x0 pnl].
      + apply lookup_lt_Some in Ht. cbn in Lu. lia.
      + destruct (Hnan ltac:(discriminate)) as [_ Hn].
        rewrite Hn in Ht. injection Ht as <-.
        intros j z Hj Hz. replace j with 0%nat in Hz by lia.
        destruct (Hfirst z Hz).
    - destruct (Hstep t u Ht) as (dv & dp & Hdv & Hdp & ->).
      specialize (IH dp Hdp).
      destruct (is_zero dv) eqn:Ez.
      + destruct dv as [z|]; [|discriminate Ez]. cbn [is_zero] in Ez.
        apply Qeq_bool_iff in Ez.
        exists 0%nat. split; [reflexivity|]. split; [lia|]. split.
        * exists z. replace (S t - 0)%nat with (S t) by lia. auto.
        * intros j z' Hj. lia.
      + assert (Hnz : forall z, drawdown !! S t = Some (Some z) ->
                                ~ (z == 0)%Q).
        { intros z Hz. rewrite Hdv in Hz. injection Hz as ->.
          cbn [is_zero] in Ez. intros Heq. apply Qeq_bool_iff in Heq.
          congruence. }
        destruct dp as [d'|]; cbn [fadd].
        * destruct IH as (k & Hk & Hlt & Hzero & Hsince).
          exists (S k). split; [|split; [lia|split]].
          -- rewrite Hk, Nat2Z.inj_succ. unfold Z.succ.
             rewrite inject_Z_plus. reflexivity.
          -- replace (S t - S k)%nat with (t - k)%nat by lia. exact Hzero.
          -- intros j z Hj Hz. destruct (decide (j = S t)) as [->|Hne].
             ++ apply (Hnz z Hz).
             ++ apply (Hsince j z); [lia|exact Hz].
        * intros j z Hj Hz. destruct (decide (j = S t)) as [->|Hne].
          -- apply (Hnz z Hz).
          -- apply (IH j z); [lia|exact Hz]. }
  split; [|split].
  - intros t d Ht. apply (Hinv t (Some d) Ht).
  - intros t Ht. apply (Hinv t None Ht).
  - intros m Hm. destruct (series_max_is_maximum duration) as [_ Hat].
    destruct (Hat m Hm) as [t Ht].
    destruct (Hinv t (Some m) Ht) as (k & Hk & Hlt & _).
    exists k. split; [exact Hk|]. apply lookup_lt_Some in Ht. lia.
Qed.

Lemma duration_counts_bars_since_high_witness :
  exists (hwm : list Q) (drawdown duration : Series),
    drawdown_series [None; Some 1; Some (1 # 2); Some (1 # 2)]%Q
    = (hwm, drawdown, duration)
    /\ exists k : nat, (k + 1 < 4)%nat
                       /\ forall m, series_max duration = Some m ->
                                    (m == 2)%Q.
Proof.
  destruct (drawdown_series [None; Some 1; Some (1 # 2); Some (1 # 2)]%Q)
    as [[hwm drawdown] duration] eqn:E.
  destruct (duration_counts_bars_since_high _ _ _ _ E) as (_ & _ & Hm).
  exists hwm, drawdown, duration. split; [reflexivity|].
  vm_compute in E. injection E as <- <- <-.
  destruct (Hm (2 # 1)%Q eq_refl) as (k & _ & Hk).
  exists k. split; [exact Hk|].
  intros m Hmax. vm_compute in Hmax. injection Hmax as <-. reflexivity.
Defined.

(** ** The strategies *)

Lemma fgt_irrefl (a : option Q) : fgt a a = false.
Proof.
  destruct a as [x|]; [|reflexivity]. cbn [fgt].
  apply Qgt_bool_false, Qle_refl.
Qed.

(** A guard [cond and self.bought[s] == tag]: the dictionary is read only
    when [cond] holds. *)
Lemma guarded_read {A : Type} (c : bool) (bought : gmap string string)
    (s tag : string) (yes : A) (no : result A) (r : A) :
  (g <-- (if c then b <-- subscript bought s ;; Ok (String.eqb b tag)
          else Ok false) ;;
   if g : bool then Ok yes else no) = Ok r ->
  (bought !! s = Some tag /\ r = yes) \/ no = Ok r.
Proof.
  destruct c; cbn [result_bind]; [|auto].
  destruct (subscript bought s) as [b|] eqn:Hb; cbn [result_bind];
    [|discriminate].
  apply subscript_Ok in Hb.
  destruct (String.eqb_spec b tag) as [->|Hne]; [|auto].
  intros [= <-]. auto.
Qed.

Lemma mac_symbol_step_cases (clock : nat -> timestamp) (bars : DataHandler)
    (strat strat' : MovingAverageCross) (puts puts' : list (option event))
    (s : string) :
  mac_symbol_step clock bars (strat, puts) s = Ok (strat', puts') ->
  mac_symbol_list strat' = mac_symbol_list strat
  /\ mac_short_window strat' = mac_short_window strat
  /\ mac_long_window strat' = mac_long_window strat
  /\ mac_clock_reads strat' = S (mac_clock_reads strat)
  /\ ((puts' = puts /\ mac_bought strat' = mac_bought strat)
      \/ (mac_bought strat !! s = Some "OUT"
          /\ mac_bought strat' = <[s := "LONG"]> (mac_bought strat)
          /\ puts' = puts ++ [Some (Signal (mkSignalEvent 1 s
                                              (clock (mac_clock_reads strat))
                                              "LONG" 1))])
      \/ (mac_bought strat !! s = Some "LONG"
          /\ mac_bought strat' = <[s := "OUT"]> (mac_bought strat)
          /\ puts' = puts ++ [Some (Signal (mkSignalEvent 1 s
                                              (clock (mac_clock_reads strat))
                                              "EXIT" 1))])).
Proof.
  unfold mac_symbol_step. cbn [fst snd]. intros H.
  destruct (get_latest_bars_values bars s "close" (mac_long_window strat))
    as [values|]; [|discriminate H].
  destruct (get_latest_bar_datetime bars s) as [bar_date|];
    [|discriminate H].
  cbn [result_bind] in H.
  apply guarded_read in H. destruct H as [[Hb H]|H].
  { injection H as -> ->. cbn. repeat split; try reflexivity.
    right. left. cbn in Hb. auto. }
  apply guarded_read in H. destruct H as [[Hb H]|H].
  { injection H as -> ->. cbn. repeat split; try reflexivity.
    right. right. cbn in Hb. auto. }
  injection H as <- <-. cbn. repeat split; try reflexivity. now left.
Qed.

Lemma mac_for_each_cases (clock : nat -> timestamp) (bars : DataHandler)
    (symbols : list string) :
  forall (strat strat' : MovingAverageCross) (puts puts' : list (option event)),
    for_each (mac_symbol_step clock bars) symbols (strat, puts)
    = Ok (strat', puts') ->
    mac_symbol_list strat' = mac_symbol_list strat
    /\ mac_short_window strat' = mac_short_window strat
    /\ mac_long_window strat' = mac_long_window strat
    /\ mac_clock_reads strat' = (mac_clock_reads strat + length symbols)%nat
    /\ exists new : list (option event),
        puts' = puts ++ new
        /\ (length new <= length symbols)%nat
        /\ Forall (fun x => exists sg,
                       x = Some (Signal sg)
                       /\ sig_strategy_id sg = 1
                       /\ sig_symbol sg ∈ symbols
                       /\ (sig_signal_type sg = "LONG"
                           \/ sig_signal_type sg = "EXIT")
                       /\ sig_strength sg = 1%Q) new
        /\ (forall s, s ∉ symbols ->
                      mac_bought strat' !! s = mac_bought strat !! s)
        /\ (NoDup symbols ->
            forall s, s ∈ symbols ->
              (signals_for s new = []
               /\ mac_bought strat' !! s = mac_bought strat !! s)
              \/ (mac_bought strat !! s = Some "OUT"
                  /\ mac_bought strat' !! s = Some "LONG"
                  /\ exists dt, signals_for s new
                                = [mkSignalEvent 1 s dt "LONG" 1])
              \/ (mac_bought strat !! s = Some "LONG"
                  /\ mac_bought strat' !! s = Some "OUT"
                  /\ exists dt, signals_for s new
                                = [mkSignalEvent 1 s dt "EXIT" 1])).
Proof.
  induction symbols as [|s1 symbols IH]; intros strat strat' puts puts' H.
  { injection H as <- <-. split; [reflexivity|]. split; [reflexivity|].
    split; [reflexivity|]. split; [cbn [length]; lia|].
    exists []. rewrite app_nil_r. split; [reflexivity|].
    split; [cbn [length]; lia|]. split; [constructor|].
    split; [reflexivity|]. intros _ s Hs. inversion Hs. }
  cbn [for_each] in H. bind_inversion H. destruct a as [strat1 puts1].
  destruct (mac_symbol_step_cases _ _ _ _ _ _ _ E)
    as (S1 & S2 & S3 & S4 & Scase).
  destruct (IH _ _ _ _ H) as (I1 & I2 & I3 & I4 & new2 & Hp & Hlen & Hall
                              & Hout & Hin).
  split; [congruence|]. split; [congruence|]. split; [congruence|].
  split; [rewrite I4, S4; cbn [length]; lia|].
  assert (Hnew : exists new1 : list (option event),
             puts1 = puts ++ new1
             /\ (length new1 <= 1)%nat
             /\ Forall (fun x => exists sg,
                            x = Some (Signal sg)
                            /\ sig_strategy_id sg = 1
                            /\ sig_symbol sg = s1
                            /\ (sig_signal_type sg = "LONG"
                                \/ sig_signal_type sg = "EXIT")
                            /\ sig_strength sg = 1%Q) new1
             /\ ((new1 = [] /\ mac_bought strat1 = mac_bought strat)
                 \/ (mac_bought strat !! s1 = Some "OUT"
                     /\ mac_bought strat1 = <[s1 := "LONG"]> (mac_bought strat)
                     /\ exists dt, new1 = [Some (Signal (mkSignalEvent 1 s1 dt
                                                           "LONG" 1))])
                 \/ (mac_bought strat !! s1 = Some "LONG"
                     /\ mac_bought strat1 = <[s1 := "OUT"]> (mac_bought strat)
                     /\ exists dt, new1 = [Some (Signal (mkSignalEvent 1 s1 dt
                                                           "EXIT" 1))]))).
  { destruct Scase as [[-> Hb]|[(Hb0 & Hb & ->)|(Hb0 & Hb & ->)]].
    - exists []. rewrite app_nil_r. split; [reflexivity|].
      split; [cbn; lia|]. split; [constructor|]. now left.
    - eexists. split; [reflexivity|]. split; [cbn; lia|]. split.
      + constructor; [|constructor]. eexists. split; [reflexivity|].
        cbn. auto.
      + right. left. eauto.
    - eexists. split; [reflexivity|]. split; [cbn; lia|]. split.
      + constructor; [|constructor]. eexists. split; [reflexivity|].
        cbn. auto.
      + right. right. eauto. }
  destruct Hnew as (new1 & Hp1 & Hlen1 & Hall1 & Hcase1).
  assert (Hother : forall s, s <> s1 ->
             mac_bought strat1 !! s = mac_bought strat !! s
             /\ signals_for s new1 = []).
  { intros s Hne. split.
    - destruct Hcase1 as [[_ ->]|[(_ & -> & _)|(_ & -> & _)]];
        [reflexivity| |]; now rewrite lookup_insert_ne by congruence.
    - destruct Hcase1 as [[-> _]|[(_ & _ & dt & ->)|(_ & _ & dt & ->)]];
        [reflexivity| |]; unfold signals_for; cbn [flat_map sig_symbol];
        (destruct (String.eqb_spec s1 s); [congruence|reflexivity]). }
  exists (new1 ++ new2). split; [rewrite Hp, Hp1; now rewrite app_assoc|].
  split; [rewrite length_app; cbn [length]; lia|]. split; [|split].
  - apply Forall_app. split.
    + eapply Forall_impl; [exact Hall1|]. cbn beta.
      intros x (sg & -> & A & B & C & D). exists sg.
      split; [reflexivity|]. split; [exact A|]. split; [|auto].
      rewrite B. now left.
    + eapply Forall_impl; [exact Hall|]. cbn beta.
      intros x (sg & -> & A & B & C & D). exists sg.
      split; [reflexivity|]. split; [exact A|]. split; [|auto]. now right.
  - intros s Hs. rewrite Hout by (intros Hin'; apply Hs; now right).
    apply Hother. intros ->. apply Hs. now left.
  - intros Hnd s Hs. apply NoDup_cons in Hnd. destruct Hnd as [Hs1 Hnd].
    unfold signals_for in *. rewrite flat_map_app.
    apply elem_of_cons in Hs. destruct Hs as [->|Hs].
    + assert (Hnone : signals_for s1 new2 = []).
      { unfold signals_for. clear - Hall Hs1.
        induction Hall as [|x new2 (sg & -> & _ & Hsym & _) _ IHn];
          [reflexivity|].
        cbn [flat_map]. rewrite IHn.
        destruct (String.eqb_spec (sig_symbol sg) s1) as [Heq|]; [|reflexivity].
        rewrite Heq in Hsym. contradiction. }
      unfold signals_for in Hnone. rewrite Hnone, app_nil_r.
      rewrite (Hout s1 Hs1).
      destruct Hcase1 as [[-> ->]|[(Hb0 & -> & dt & ->)|(Hb0 & -> & dt & ->)]].
      * left. split; reflexivity.
      * right. left. split; [exact Hb0|].
        split; [apply lookup_insert_eq|]. exists dt.
        cbn [flat_map sig_symbol app]. now rewrite String.eqb_refl.
      * right. right. split; [exact Hb0|].
        split; [apply lookup_insert_eq|]. exists dt.
        cbn [flat_map sig_symbol app]. now rewrite String.eqb_refl.
    + assert (Hne : s <> s1) by (intros ->; contradiction).
      destruct (Hother s Hne) as [Hb Hn]. unfold signals_for in Hn.
      rewrite Hn, <- Hb. cbn [app]. apply (Hin Hnd s Hs).
Qed.

(** X23: what the moving-average strategy puts.  On any event it returns
    or raises without putting anything but [SignalEvent]s: at most one per
    symbol of its list, each for a symbol of the list, with strategy id 1,
    type LONG or EXIT and strength 1; on an event that is not a
    [MarketEvent] it puts nothing and keeps its state.  So it meets the
    contract the loop asks of a strategy. *)
Theorem mac_puts_only_signals :
  forall (clock : nat -> timestamp),
    puts_only_signals (mac_calculate_signals clock)
    /\ forall (strat strat' : MovingAverageCross) (bars : DataHandler)
              (e : event) (puts : list (option event)),
        mac_calculate_signals clock strat bars e = Ok (strat', puts) ->
        (length puts <= length (mac_symbol_list strat))%nat
        /\ Forall (fun x => exists sg,
                       x = Some (Signal sg)
                       /\ sig_strategy_id sg = 1
                       /\ sig_symbol sg ∈ mac_symbol_list strat
                       /\ (sig_signal_type sg = "LONG"
                           \/ sig_signal_type sg = "EXIT")
                       /\ sig_strength sg = 1%Q) puts
        /\ (event_type e <> "MARKET" -> strat' = strat /\ puts = []).
Proof.
  intros clock.
  assert (G : forall (strat strat' : MovingAverageCross) (bars : DataHandler)
                     (e : event) (puts : list (option event)),
             mac_calculate_signals clock strat bars e = Ok (strat', puts) ->
             (length puts <= length (mac_symbol_list strat))%nat
             /\ Forall (fun x => exists sg,
                            x = Some (Signal sg)
                            /\ sig_strategy_id sg = 1
                            /\ sig_symbol sg ∈ mac_symbol_list strat
                            /\ (sig_signal_type sg = "LONG"
                                \/ sig_signal_type sg = "EXIT")
                            /\ sig_strength sg = 1%Q) puts
             /\ (event_type e <> "MARKET" -> strat' = strat /\ puts = [])).
  { intros strat strat' bars e puts H. unfold mac_calculate_signals in H.
    destruct (String.eqb_spec (event_type e) "MARKET") as [Em|Em].
    - destruct (mac_for_each_cases _ _ _ _ _ _ _ H)
        as (_ & _ & _ & _ & new & -> & Hlen & Hall & _).
      cbn [app]. split; [exact Hlen|]. split; [exact Hall|].
      intros Hne. contradiction.
    - injection H as <- <-. split; [cbn; lia|]. split; [constructor|]. auto. }
  split; [|exact G].
  intros strat bars e strat' puts H.
  destruct (G _ _ _ _ _ H) as (_ & Hall & _).
  eapply Forall_impl; [exact Hall|]. cbn beta.
  intros x (sg & -> & _). eauto.
Qed.

(** X24: entries and exits alternate.  Over distinct symbols, one call of
    [calculate_signals] on a [MarketEvent] puts for each symbol either
    nothing, leaving its [bought] entry as it is, or a single LONG when the
    entry was "OUT", which becomes "LONG", or a single EXIT when the entry
    was "LONG", which becomes "OUT"; the entries of other keys are not
    touched.  A second LONG for a symbol can only follow an EXIT. *)
Theorem mac_entries_and_exits_alternate :
  forall (clock : nat -> timestamp) (strat strat' : MovingAverageCross)
         (bars : DataHandler) (puts : list (option event)),
    NoDup (mac_symbol_list strat) ->
    mac_calculate_signals clock strat bars Market = Ok (strat', puts) ->
    (forall s, s ∉ mac_symbol_list strat ->
               mac_bought strat' !! s = mac_bought strat !! s)
    /\ forall s, s ∈ mac_symbol_list strat ->
         (signals_for s puts = []
          /\ mac_bought strat' !! s = mac_bought strat !! s)
         \/ (mac_bought strat !! s = Some "OUT"
             /\ mac_bought strat' !! s = Some "LONG"
             /\ exists dt, signals_for s puts = [mkSignalEvent 1 s dt "LONG" 1])
         \/ (mac_bought strat !! s = Some "LONG"
             /\ mac_bought strat' !! s = Some "OUT"
             /\ exists dt, signals_for s puts
                           = [mkSignalEvent 1 s dt "EXIT" 1]).
Proof.
  intros clock strat strat' bars puts Hnd H.
  unfold mac_calculate_signals in H. cbn [event_type String.eqb Ascii.eqb
                                          Bool.eqb] in H.
  destruct (mac_for_each_cases _ _ _ _ _ _ _ H)
    as (_ & _ & _ & _ & new & -> & _ & _ & Hout & Hin).
  cbn [app]. split; [exact Hout|]. exact (Hin Hnd).
Qed.

Lemma mac_symbol_step_undersupplied (clock : nat -> timestamp)
    (bars : DataHandler) (strat : MovingAverageCross)
    (puts : list (option event)) (s : string) (released : list bar) :
  latest_symbol_data bars !! s = Some released ->
  released <> [] ->
  Z.of_nat (length released) <= mac_short_window strat ->
  Z.of_nat (length released) <= mac_long_window strat ->
  mac_symbol_step clock bars (strat, puts) s
  = Ok ({| mac_symbol_list := mac_symbol_list strat;
           mac_short_window := mac_short_window strat;
           mac_long_window := mac_long_window strat;
           mac_bought := mac_bought strat;
           mac_clock_reads := S (mac_clock_reads strat) |}, puts).
Proof.
  intros Hrel Hne Hshort Hlong. unfold mac_symbol_step. cbn [fst snd].
  unfold get_latest_bars_values, get_latest_bars.
  rewrite (proj2 (subscript_Ok _ _ _) Hrel). cbn [result_bind].
  rewrite (slice_last_all (mac_long_window strat) released) by (now right).
  rewrite map_result_close. cbn [result_bind].
  unfold get_latest_bar_datetime.
  rewrite (proj2 (subscript_Ok _ _ _) Hrel). cbn [result_bind].
  unfold last_item. destruct (last released) as [b|] eqn:Hlast.
  2:{ apply last_None in Hlast. contradiction. }
  cbn [result_bind].
  rewrite !slice_last_all by (right; rewrite length_map; assumption).
  rewrite fgt_irrefl. cbn [result_bind]. reflexivity.
Qed.

(** X25: no signal while the windows are under-supplied.  As long as every
    symbol has released at least one bar and no more bars than the shorter
    window holds, both averages are taken over the same closes, no
    comparison holds, and a [MarketEvent] gives no signal and leaves
    [bought] as it is; the clock is read once per symbol. *)
Theorem mac_is_silent_while_undersupplied :
  forall (clock : nat -> timestamp) (strat : MovingAverageCross)
         (bars : DataHandler),
    (forall s, s ∈ mac_symbol_list strat ->
               exists released,
                 latest_symbol_data bars !! s = Some released
                 /\ released <> []
                 /\ Z.of_nat (length released) <= mac_short_window strat
                 /\ Z.of_nat (length released) <= mac_long_window strat) ->
    exists strat' : MovingAverageCross,
      mac_calculate_signals clock strat bars Market = Ok (strat', [])
      /\ mac_bought strat' = mac_bought strat
      /\ mac_clock_reads strat'
         = (mac_clock_reads strat + length (mac_symbol_list strat))%nat.
Proof.
  intros clock strat bars.
  unfold mac_calculate_signals.
  cbn [event_type String.eqb Ascii.eqb Bool.eqb].
  generalize (@nil (option event)) as puts.
  assert (G : forall (symbols : list string) (st : MovingAverageCross)
                     (puts : list (option event)),
             (forall s, s ∈ symbols ->
                exists released,
                  latest_symbol_data bars !! s = Some released
                  /\ released <> []
                  /\ Z.of_nat (length released) <= mac_short_window st
                  /\ Z.of_nat (length released) <= mac_long_window st) ->
             exists st' : MovingAverageCross,
               for_each (mac_symbol_step clock bars) symbols (st, puts)
               = Ok (st', puts)
               /\ mac_bought st' = mac_bought st
               /\ mac_clock_reads st'
                  = (mac_clock_reads st + length symbols)%nat).
  { induction symbols as [|s symbols IH]; intros st puts Hall.
    - exists st. cbn. repeat split; auto.
    - destruct (Hall s ltac:(now left)) as (released & H1 & H2 & H3 & H4).
      cbn [for_each].
      rewrite (mac_symbol_step_undersupplied clock bars st puts s released
                 H1 H2 H3 H4).
      cbn [result_bind].
      destruct (IH {| mac_symbol_list := mac_symbol_list st;
                      mac_short_window := mac_short_window st;
                      mac_long_window := mac_long_window st;
                      mac_bought := mac_bought st;
                      mac_clock_reads := S (mac_clock_reads st) |} puts)
        as (st' & Hrun & Hb & Hr).
      { intros k Hk. apply Hall. now right. }
      exists st'. split; [exact Hrun|]. split; [exact Hb|].
      rewrite Hr. cbn [mac_clock_reads length]. lia. }
  intros puts Hall. apply (G (mac_symbol_list strat) strat puts Hall).
Qed.

Lemma mac_puts_only_signals_witness :
  exists (strat' : MovingAverageCross) (puts : list (option event)),
    mac_calculate_signals still_clock rising_strategy rising_bars Market
    = Ok (strat', puts)
    /\ (length puts <= 1)%nat.
Proof.
  destruct (mac_calculate_signals still_clock rising_strategy rising_bars
              Market) as [[strat' puts]|err] eqn:E;
    [|vm_compute in E; discriminate E].
  exists strat', puts. split; [reflexivity|].
  destruct (proj2 (mac_puts_only_signals still_clock) _ _ _ _ _ E)
    as (Hlen & _).
  exact Hlen.
Defined.

Lemma mac_entries_and_exits_alternate_witness :
  exists (strat' : MovingAverageCross) (puts : list (option event)),
    mac_calculate_signals still_clock rising_strategy rising_bars Market
    = Ok (strat', puts)
    /\ signals_for "AAPL" puts = [mkSignalEvent 1 "AAPL" 0 "LONG" 1]
    /\ mac_bought strat' !! "AAPL" = Some "LONG".
Proof.
  destruct (mac_calculate_signals still_clock rising_strategy rising_bars
              Market) as [[strat' puts]|err] eqn:E;
    [|vm_compute in E; discriminate E].
  exists strat', puts. split; [reflexivity|].
  destruct (mac_entries_and_exits_alternate still_clock rising_strategy
              strat' rising_bars puts) as [_ Hin].
  - apply NoDup_singleton.
  - exact E.
  - destruct (Hin "AAPL" ltac:(now left))
      as [[Hnone _]|[(_ & Hb & dt & Hs)|(Hlong & _)]].
    + vm_compute in E. injection E as <- <-. discriminate Hnone.
    + split; [|exact Hb]. rewrite Hs. vm_compute in E.
      injection E as <- <-. vm_compute in Hs. injection Hs as <-.
      reflexivity.
    + vm_compute in Hlong. discriminate Hlong.
Defined.

Lemma mac_is_silent_while_undersupplied_witness :
  exists strat' : MovingAverageCross,
    mac_calculate_signals still_clock
      (MovingAverageCross_init sample_bars 5 20) sample_bars Market
    = Ok (strat', [])
    /\ mac_bought strat' = {[ "AAPL" := "OUT" ]}.
Proof.
  destruct (mac_is_silent_while_undersupplied still_clock
              (MovingAverageCross_init sample_bars 5 20) sample_bars)
    as (strat' & Hrun & Hb & _).
  - intros s Hs. apply list_elem_of_singleton in Hs. subst s.
    exists [flat_bar 1 10]. split; [reflexivity|].
    split; [discriminate|]. split; cbn; lia.
  - exists strat'. split; [exact Hrun|]. rewrite Hb. reflexivity.
Defined.

(** X26: the decision table of the pairs signals.  Reading the hedge ratio
    before [calculate_signals_for_pairs] has set it raises
    [AttributeError].  Once it is set and the thresholds are ordered,
    [0 <= zscore_low < zscore_high], at most one kind of block fires: an
    entry below [-zscore_high] when not long (LONG the first symbol, SHORT
    the second with the absolute hedge ratio as strength), an entry above
    [zscore_high] when not short (the opposite legs), or an exit inside
    [zscore_low] when long or short, which clears both flags with a single
    EXIT pair.  Otherwise, and whenever the z-score is [NaN], both signals
    are [None] and the state is unchanged; the two signals are always both
    present or both absent. *)
Theorem xy_signals_decision_table :
  forall (st : IntradayOLSMR) (zscore_last : option Q),
    (mr_hedge_ratio st = None ->
     calculate_xy_signals st zscore_last = Raise AttributeError)
    /\ forall hedge_ratio : Q,
        mr_hedge_ratio st = Some hedge_ratio ->
        (0 <= mr_zscore_low st)%Q ->
        (mr_zscore_low st < mr_zscore_high st)%Q ->
        let p0 := fst (mr_pair st) in
        let p1 := snd (mr_pair st) in
        let dt := mr_datetime st in
        calculate_xy_signals st zscore_last
        = Ok (if fle zscore_last (- mr_zscore_high st)
                 && negb (mr_long_market st)
              then (set_markets st true (mr_short_market st),
                    (Some (mkSignalEvent 1 p0 dt "LONG" 1),
                     Some (mkSignalEvent 1 p1 dt "SHORT" (Qabs hedge_ratio))))
              else if fge zscore_last (mr_zscore_high st)
                      && negb (mr_short_market st)
              then (set_markets st (mr_long_market st) true,
                    (Some (mkSignalEvent 1 p0 dt "SHORT" 1),
                     Some (mkSignalEvent 1 p1 dt "LONG" (Qabs hedge_ratio))))
              else if fle (fabs zscore_last) (mr_zscore_low st)
                      && (mr_long_market st || mr_short_market st)
              then (set_markets st false false,
                    (Some (mkSignalEvent 1 p0 dt "EXIT" 1),
                     Some (mkSignalEvent 1 p1 dt "EXIT" 1)))
              else (st, (None, None))).
Proof.
  intros st z. split.
  { intros Hnone. unfold calculate_xy_signals. now rewrite Hnone. }
  intros hr Hhr Hlow Hhigh.
  destruct st as [low high [p0 p1] dt long short hro].
  cbn [mr_hedge_ratio mr_zscore_low mr_zscore_high] in Hhr, Hlow, Hhigh.
  subst hro. unfold calculate_xy_signals, set_markets.
  cbn [mr_hedge_ratio mr_zscore_low mr_zscore_high mr_pair mr_datetime
       mr_long_market mr_short_market fst snd].
  destruct z as [v|]; [|reflexivity].
  unfold fle, fge, fabs, option_map.
  destruct (Qle_bool v (- high)) eqn:E1;
    destruct (Qle_bool (Qabs v) low) eqn:E2;
    destruct (Qle_bool high v) eqn:E3;
    destruct long, short; cbn; repeat (rewrite ?E1, ?E2, ?E3; cbn);
    try reflexivity; exfalso;
    try (apply Qle_bool_iff in E1);
    try (apply Qle_bool_iff, Qabs_Qle_condition in E2);
    try (apply Qle_bool_iff in E3); lra.
Qed.

Lemma xy_signals_decision_table_witness :
  calculate_xy_signals sample_pairs_strategy (Some (- 4)%Q)
  = Ok (set_markets sample_pairs_strategy true false,
        (Some (mkSignalEvent 1 "SPY" 0 "LONG" 1),
         Some (mkSignalEvent 1 "QQQ" 0 "SHORT" (Qabs (- (3 # 2)))))).
Proof.
  destruct (xy_signals_decision_table sample_pairs_strategy (Some (- 4)%Q))
    as [_ H].
  rewrite (H (- (3 # 2))%Q); [reflexivity|reflexivity|cbn; lra|cbn; lra].
Defined.

(** ** The stamps of a run *)

Lemma stamps_of_run_step (released r : list bar) (b : bar) (m : nat) :
  stamps_of_run released (b :: r) (S m)
  = fst b :: stamps_of_run (released ++ [b]) r m.
Proof.
  unfold stamps_of_run. cbn [take firstn map app length].
  f_equal. f_equal. rewrite <- app_assoc. cbn [app].
  destruct (decide (S (length r) = S m)), (decide (length r = m));
    try reflexivity; lia.
Qed.

Lemma strictly_increasing_lookup (T : list timestamp) (i j : nat)
    (a b : timestamp) :
  strictly_increasing (map Some T) ->
  (i < j)%nat -> T !! i = Some a -> T !! j = Some b -> a < b.
Proof.
  intros H Hij Ha Hb. apply (H i j a b Hij); rewrite lookup_map.
  - now rewrite Ha.
  - now rewrite Hb.
Qed.

Lemma lookup_map_Some (T : list timestamp) (i : nat) (a : timestamp) :
  map Some T !! i = Some (Some a) -> T !! i = Some a.
Proof.
  rewrite lookup_map. destruct (T !! i); cbn; congruence.
Qed.

Lemma stamps_of_run_cases (rows0 : list bar) (m : nat) :
  (m <= length rows0)%nat ->
  (m < length rows0)%nat
  /\ stamps_of_run [] rows0 m = take (S m) (map fst rows0)
  \/ length rows0 = m
     /\ stamps_of_run [] rows0 m
        = map fst rows0 ++ match last (map fst rows0) with
                           | Some t => [t]
                           | None => []
                           end.
Proof.
  intros Hm. unfold stamps_of_run. cbn [app].
  destruct (decide (length rows0 = m)) as [Heq|Hne].
  - right. split; [exact Heq|]. rewrite take_ge by lia.
    rewrite last_map. f_equal.
    assert (G : forall o : option bar,
               match o with Some b => [fst b] | None => [] end
               = match option_map fst o with Some t => [t] | None => [] end)
      by (intros [b|]; reflexivity).
    apply G.
  - left. split; [lia|]. rewrite app_nil_r. symmetry. apply firstn_map.
Qed.

Lemma stamps_of_run_take (rows0 : list bar) (m : nat) :
  (m <= length rows0)%nat ->
  take m (stamps_of_run [] rows0 m) = take m (map fst rows0).
Proof.
  intros Hm. destruct (stamps_of_run_cases rows0 m Hm) as [[_ ->]|[Hl ->]].
  - rewrite take_take. now rewrite Nat.min_l by apply Nat.le_succ_diag_r.
  - apply take_app_le. rewrite length_map. rewrite <- Hl. apply Nat.le_refl.
Qed.

Lemma non_decreasing_lookup (T : list timestamp) (i j : nat)
    (a b : timestamp) :
  non_decreasing (map Some T) ->
  (i < j)%nat -> T !! i = Some a -> T !! j = Some b -> a <= b.
Proof.
  intros H Hij Ha Hb. apply (H i j a b Hij); rewrite lookup_map.
  - now rewrite Ha.
  - now rewrite Hb.
Qed.

Lemma stamps_of_run_non_decreasing (rows0 : list bar) (m : nat) :
  (m <= length rows0)%nat ->
  non_decreasing (map Some (map fst rows0)) ->
  non_decreasing (map Some (stamps_of_run [] rows0 m)).
Proof.
  intros Hm Hsorted.
  set (T := map fst rows0) in *.
  assert (HT : length T = length rows0) by apply length_map.
  destruct (stamps_of_run_cases rows0 m Hm) as [[_ ->]|[Hl ->]]; fold T.
  - intros i j a b Hij Ha Hb.
    apply lookup_map_Some, lookup_take_Some in Ha.
    apply lookup_map_Some, lookup_take_Some in Hb.
    apply (non_decreasing_lookup T i j a b Hsorted Hij); tauto.
  - intros i j a b Hij Ha Hb.
    apply lookup_map_Some in Ha. apply lookup_map_Some in Hb.
    destruct (decide (j < length T)%nat) as [Hj|Hj].
    + rewrite lookup_app_l in Ha by lia. rewrite lookup_app_l in Hb by lia.
      apply (non_decreasing_lookup T i j a b Hsorted Hij Ha Hb).
    + assert (Hi : (i < length T)%nat).
      { apply lookup_lt_Some in Hb. rewrite length_app in Hb.
        destruct (last T); cbn [length] in Hb; lia. }
      rewrite lookup_app_l in Ha by lia.
      rewrite lookup_app_r in Hb by lia.
      destruct (last T) as [t|] eqn:Hlast; [|now destruct (j - length T)%nat].
      destruct (j - length T)%nat eqn:Hd; [|now destruct n].
      injection Hb as <-. rewrite last_lookup in Hlast.
      destruct (decide (i = Nat.pred (length T))) as [->|Hne].
      * rewrite Hlast in Ha. injection Ha as <-. lia.
      * apply (non_decreasing_lookup T i (Nat.pred (length T)) a t
                 Hsorted); [lia|exact Ha|exact Hlast].
Qed.

Lemma stamps_of_run_order (rows0 : list bar) (m : nat) :
  (m <= length rows0)%nat ->
  strictly_increasing (map Some (map fst rows0)) ->
  strictly_increasing (map Some (take m (stamps_of_run [] rows0 m)))
  /\ ((m < length rows0)%nat ->
      strictly_increasing (map Some (stamps_of_run [] rows0 m)))
  /\ (forall (start : timestamp) (b : bar),
         rows0 !! 0%nat = Some b -> start < fst b ->
         strictly_increasing
           (Some start :: map Some (take m (stamps_of_run [] rows0 m)))).
Proof.
  intros Hm Hsorted.
  set (T := map fst rows0) in *.
  assert (HT : length T = length rows0) by apply length_map.
  assert (Hm' : (m <= length T)%nat) by (rewrite HT; exact Hm).
  assert (Hconv : forall k : nat, length rows0 = k -> length T = k)
    by (intros k Hk; rewrite HT; exact Hk).
  assert (Hconv' : (m < length rows0)%nat -> (m < length T)%nat)
    by (intros Hk; rewrite HT; exact Hk).
  assert (Hprefix : forall n, strictly_increasing (map Some (take n T))).
  { intros n i j a b Hij Ha Hb.
    apply lookup_map_Some, lookup_take_Some in Ha.
    apply lookup_map_Some, lookup_take_Some in Hb.
    apply (strictly_increasing_lookup T i j a b Hsorted Hij); tauto. }
  rewrite (stamps_of_run_take rows0 m Hm). fold T.
  split; [apply Hprefix|split].
  - intros Hlt. apply Hconv' in Hlt.
    destruct (stamps_of_run_cases rows0 m Hm) as [[_ ->]|[Hl _]];
      [|apply Hconv in Hl; lia]. apply Hprefix.
  - intros start b0 Hb0 Hstart i j a b Hij Ha Hb.
    destruct j as [|j]; [lia|]. cbn [lookup list_lookup] in Hb.
    change ((Some start :: map Some (take m T)) !! S j)
      with (map Some (take m T) !! j) in Hb.
    assert (HT0 : T !! 0%nat = Some (fst b0)).
    { unfold T. rewrite lookup_map. unfold bar in Hb0. now rewrite Hb0. }
    destruct i as [|i].
    + injection Ha as <-.
      pose proof Hb as Hb'. apply lookup_map_Some, lookup_take_Some in Hb'.
      destruct Hb' as [Hb' Hjm].
      destruct j as [|j].
      * rewrite HT0 in Hb'. injection Hb' as <-. exact Hstart.
      * pose proof (strictly_increasing_lookup T 0 (S j) (fst b0) b Hsorted
                      ltac:(lia) HT0 Hb'). lia.
    + change ((Some start :: map Some (take m T)) !! S i)
        with (map Some (take m T) !! i) in Ha.
      apply (Hprefix m i j a b ltac:(lia) Ha Hb).
Qed.

Lemma update_timeindex_reads_first (bars : DataHandler) (p p' : Portfolio)
    (s0 : string) (rest : list string) :
  update_timeindex bars p = Ok p' ->
  pf_symbol_list p = s0 :: rest ->
  exists t, get_latest_bar_datetime bars s0 = Ok t.
Proof.
  intros H Hs. unfold update_timeindex in H. rewrite Hs in H.
  cbn [first_item result_bind] in H.
  destruct (get_latest_bar_datetime bars s0) as [t|]; [eauto|discriminate H].
Qed.

Lemma ledger_calls_keep_symbols (calls : list ledger_call) :
  forall p p' : Portfolio,
    for_each ledger_step calls p = Ok p' ->
    pf_symbol_list p' = pf_symbol_list p.
Proof.
  induction calls as [|c calls IH]; intros p p' H.
  { now injection H as <-. }
  cbn [for_each] in H. bind_inversion H. rewrite (IH _ _ H).
  destruct c as [bars|q e|bars e]; cbn [ledger_step] in E.
  - apply (update_timeindex_keeps_current _ _ _ E).
  - bind_inversion E. now injection E as <-.
  - apply (update_fill_keeps_histories _ _ _ _ E).
Qed.

Section RunStamps.

Context {StrategyState ExecutionState : Type}.

Variable calculate_signals :
  StrategyState -> DataHandler -> event ->
  result (StrategyState * list (option event)).

Variable execute_order :
  ExecutionState -> event -> result (ExecutionState * list (option event)).

Hypothesis strategy_contract : puts_only_signals calculate_signals.
Hypothesis execution_contract : puts_only_fills execute_order.

Local Abbreviation BT := (Backtest StrategyState ExecutionState).
Local Abbreviation drain_ := (drain calculate_signals execute_order).
Local Abbreviation run_ := (run_backtest calculate_signals execute_order).

(** The Drain that follows an Advance appends one record to each history,
    stamped with the latest bar time of the first symbol. *)
Lemma drain_market_stamp (fuel : nat) (bt bt' : BT) (taken added : Queue)
    (s0 : string) (rest : list string) :
  drain_ fuel bt = Finished (bt', (taken, added)) ->
  events bt = [Some Market] ->
  orders bt <= signals bt ->
  pf_symbol_list (portfolio bt) = s0 :: rest ->
  "datetime" ∉ s0 :: rest ->
  exists t : timestamp,
    get_latest_bar_datetime (data_handler bt) s0 = Ok t
    /\ timestamps (all_positions (portfolio bt'))
       = timestamps (all_positions (portfolio bt)) ++ [Some t]
    /\ timestamps (all_holdings (portfolio bt'))
       = timestamps (all_holdings (portfolio bt)) ++ [Some t]
    /\ pf_symbol_list (portfolio bt') = s0 :: rest.
Proof.
  intros H Hq Hb Hs Hdt. destruct fuel as [|fuel]; [discriminate H|].
  cbn [drain] in H. rewrite Hq in H. cbn [get handle] in H.
  unfold dispatch in H.
  cbn [event_type String.eqb Ascii.eqb Bool.eqb set_events strategy
       data_handler portfolio events signals orders fills execution_handler]
    in H.
  destruct (calculate_signals (strategy bt) (data_handler bt) Market)
    as [[st' puts]|] eqn:Hcs; [|discriminate H].
  cbn [result_bind fst snd] in H.
  destruct (update_timeindex (data_handler bt) (portfolio bt))
    as [p1|] eqn:Hti; [|discriminate H].
  cbn [result_bind app] in H.
  match type of H with
  | match drain_ fuel ?b with _ => _ end = _ => set (bt1 := b) in *
  end.
  destruct (drain_ fuel bt1) as [[bt2 [tk ad]]| |] eqn:Hd; try discriminate H.
  injection H as <- _ _.
  apply strategy_contract in Hcs.
  destruct (drain_order_budget calculate_signals execute_order
              strategy_contract execution_contract fuel bt1 bt2 tk ad Hd)
    as [_ Hm].
  { cbn [bt1 orders signals events].
    rewrite (count_type_signals_only "ORDER" puts) by (discriminate || exact Hcs).
    lia. }
  cbn [bt1 events] in Hm.
  rewrite (count_type_signals_only "MARKET" puts) in Hm
    by (discriminate || exact Hcs).
  destruct (drain_as_calls calculate_signals execute_order (s0 :: rest)
              fuel bt1 bt2 tk ad Hd) as (_ & calls & Hcalls & Hstamps).
  cbn [bt1 portfolio] in Hcalls.
  destruct (update_timeindex_keeps_current _ _ _ Hti) as (_ & _ & Hs1).
  rewrite Hs in Hs1.
  destruct (ledger_calls_stamps calls p1 (portfolio bt2)
              ltac:(now rewrite Hs1) Hcalls) as [Tp Th].
  rewrite Hs1 in Tp, Th.
  assert (Hnil : stamped_times (s0 :: rest) calls = []).
  { destruct (stamped_times (s0 :: rest) calls); [reflexivity|].
    cbn [length] in Hstamps. lia. }
  rewrite Hnil, app_nil_r in Tp, Th.
  destruct (update_timeindex_reads_first _ _ _ s0 rest Hti Hs) as [t Ht].
  destruct (update_timeindex_stamp _ _ _ Hti ltac:(now rewrite Hs))
    as (dp & dh & Hap & Hah & Htp & Hth).
  rewrite Hs in Htp, Hth. cbn [stamped_times first_item] in Htp, Hth.
  rewrite Ht in Htp, Hth.
  exists t. split; [exact Ht|].
  rewrite Tp, Th, Hap, Hah. unfold timestamps in *. rewrite !map_app.
  rewrite Htp, Hth. split; [reflexivity|]. split; [reflexivity|].
  rewrite (ledger_calls_keep_symbols _ _ _ Hcalls). exact Hs1.
Qed.

Lemma run_stamps_from (fuel : nat) :
  forall (bt bt' : BT) (m : nat) (s0 : string) (rest : list string)
         (released remaining : list bar),
    run_ fuel bt = Finished bt' ->
    events bt = [] ->
    orders bt <= signals bt ->
    continue_backtest (data_handler bt) = true ->
    symbol_list (data_handler bt) = s0 :: rest ->
    pf_symbol_list (portfolio bt) = s0 :: rest ->
    NoDup (s0 :: rest) ->
    "datetime" ∉ s0 :: rest ->
    latest_symbol_data (data_handler bt) !! s0 = Some released ->
    symbol_data (data_handler bt) !! s0 = Some remaining ->
    (forall s, s ∈ s0 :: rest ->
               is_Some (latest_symbol_data (data_handler bt) !! s)
               /\ exists rows, symbol_data (data_handler bt) !! s = Some rows
                               /\ (m <= length rows)%nat) ->
    (exists s rows, s ∈ s0 :: rest
                    /\ symbol_data (data_handler bt) !! s = Some rows
                    /\ length rows = m) ->
    timestamps (all_positions (portfolio bt'))
    = timestamps (all_positions (portfolio bt))
      ++ map Some (stamps_of_run released remaining m)
    /\ timestamps (all_holdings (portfolio bt'))
       = timestamps (all_holdings (portfolio bt))
         ++ map Some (stamps_of_run released remaining m).
Proof.
  induction fuel as [|fuel IH];
    intros bt bt' m s0 rest released remaining H Hq Hb Hc Hsl Hpl Hnd Hdt
           Hrel Hrem Hall Hmin; [discriminate|].
  cbn [run_backtest] in H. rewrite Hc in H.
  destruct (advance bt) as [bt1|] eqn:Hadv; [|discriminate].
  destruct (drain_ (S fuel) bt1) as [[bt2 [tk ad]]| |] eqn:Hd;
    try discriminate.
  destruct (advance_effect _ _ Hadv)
    as (Hq1 & Hs1 & Ho1 & _ & Hp1 & _ & _ & Hfeed).
  rewrite Hsl in Hfeed.
  destruct (for_each_update_bars_step (s0 :: rest) (data_handler bt) Hnd)
    as (dh1 & Hrun & _ & Hin & Hcont).
  { intros s Hs. destruct (Hall s Hs) as [H1 (rows & H2 & _)].
    split; [rewrite H2; eauto | exact H1]. }
  rewrite Hrun in Hfeed. injection Hfeed as Hdh1.
  destruct (for_each_update_bars_effect _ _ _ Hrun) as (Hsl1 & _).
  destruct (drain_market_stamp (S fuel) bt1 bt2 tk ad s0 rest Hd)
    as (t & Ht & Tp & Th & Hpl2); try assumption.
  { now rewrite Hq1, Hq. }
  { now rewrite Hs1, Ho1. }
  { now rewrite Hp1. }
  rewrite Hp1 in Tp, Th. rewrite <- Hdh1 in Ht.
  destruct (drain_order_budget calculate_signals execute_order
              strategy_contract execution_contract _ _ _ _ _ Hd) as [Hb2 _].
  { rewrite Hq1, Hq, Hs1, Ho1. unfold count_type. cbn. lia. }
  destruct (drain_as_calls calculate_signals execute_order (s0 :: rest)
              _ _ _ _ _ Hd) as (Hdh2 & _).
  pose proof (drain_finished calculate_signals execute_order _ _ _ _ _ Hd)
    as Hq2.
  pose proof (Hin s0 released ltac:(now left) Hrel) as Hs0.
  rewrite Hrem in Hs0.
  destruct m as [|m].
  - assert (Hc2 : continue_backtest (data_handler bt2) = false).
    { rewrite Hdh2, <- Hdh1. apply Bool.not_true_is_false. intros E.
      apply Hcont in E. destruct E as [_ E].
      destruct Hmin as (s & rows & Hs & Hrows & Hlen).
      destruct rows; [|discriminate Hlen]. destruct (E s Hs Hrows). }
    destruct fuel as [|fuel]; [discriminate|].
    cbn [run_backtest] in H. rewrite Hc2 in H. injection H as <-.
    rewrite Tp, Th.
    assert (Hst : stamps_of_run released remaining 0 = [t]).
    { unfold get_latest_bar_datetime in Ht. unfold stamps_of_run.
      destruct remaining as [|b r].
      - destruct Hs0 as [_ Hl]. rewrite (proj2 (subscript_Ok _ _ _) Hl) in Ht.
        cbn [result_bind] in Ht. unfold last_item in Ht.
        cbn [take firstn map app length]. rewrite app_nil_r.
        destruct (decide (0 = 0)%nat); [|lia].
        destruct (last released) as [b|]; [|discriminate Ht].
        cbn [result_bind] in Ht. now injection Ht as <-.
      - destruct Hs0 as [_ Hl]. rewrite (proj2 (subscript_Ok _ _ _) Hl) in Ht.
        cbn [result_bind] in Ht. unfold last_item in Ht.
        rewrite last_snoc in Ht. cbn [result_bind] in Ht.
        injection Ht as <-. cbn [take firstn map app length].
        destruct (decide (S (length r) = 0)%nat); [lia|reflexivity]. }
    rewrite Hst. split; reflexivity.
  - assert (Hrows : forall s, s ∈ s0 :: rest ->
               exists rel b r,
                 latest_symbol_data (data_handler bt) !! s = Some rel
                 /\ symbol_data (data_handler bt) !! s = Some (b :: r)
                 /\ symbol_data dh1 !! s = Some r
                 /\ latest_symbol_data dh1 !! s = Some (rel ++ [b])).
    { intros s Hs. destruct (Hall s Hs) as [[rel Hrl] (rows & Hr & Hlen)].
      specialize (Hin s rel Hs Hrl). rewrite Hr in Hin.
      destruct rows as [|b r]; [cbn in Hlen; lia|].
      exists rel, b, r. tauto. }
    destruct remaining as [|b r].
    { destruct (Hrows s0 ltac:(now left)) as (? & ? & ? & _ & Hr & _).
      rewrite Hrem in Hr. discriminate Hr. }
    destruct Hs0 as [Hr1 Hl1].
    assert (Htb : t = fst b).
    { unfold get_latest_bar_datetime in Ht.
      rewrite (proj2 (subscript_Ok _ _ _) Hl1) in Ht.
      cbn [result_bind] in Ht. unfold last_item in Ht.
      rewrite last_snoc in Ht. cbn [result_bind] in Ht.
      now injection Ht as <-. }
    destruct (IH bt2 bt' m s0 rest (released ++ [b]) r H (proj1 Hq2) Hb2)
      as [Rp Rh].
    + rewrite Hdh2, <- Hdh1. apply Hcont. split; [exact Hc|].
      intros s Hs. destruct (Hrows s Hs) as (rel & b' & r' & _ & -> & _).
      discriminate.
    + rewrite Hdh2, <- Hdh1, Hsl1. exact Hsl.
    + exact Hpl2.
    + exact Hnd.
    + exact Hdt.
    + rewrite Hdh2, <- Hdh1. exact Hl1.
    + rewrite Hdh2, <- Hdh1. exact Hr1.
    + rewrite Hdh2, <- Hdh1. intros s Hs.
      destruct (Hrows s Hs) as (rel & b' & r' & _ & Hr & Hr' & Hl').
      rewrite Hl', Hr'. split; [eauto|]. exists r'. split; [reflexivity|].
      destruct (Hall s Hs) as [_ (rows & Hrr & Hlen)].
      rewrite Hr in Hrr. injection Hrr as <-. cbn [length] in Hlen. lia.
    + rewrite Hdh2, <- Hdh1.
      destruct Hmin as (s & rows & Hs & Hr' & Hlen).
      destruct (Hrows s Hs) as (rel & b' & r' & _ & Hr & Hr1' & _).
      exists s, r'. split; [exact Hs|]. split; [exact Hr1'|].
      rewrite Hr in Hr'. injection Hr' as <-. cbn [length] in Hlen. lia.
    + rewrite Rp, Rh, Tp, Th, stamps_of_run_step, Htb.
      cbn [map]. rewrite <- !app_assoc. split; reflexivity.
Qed.

End RunStamps.

Lemma stamps_of_run_repeat (rows0 : list bar) (m : nat) :
  length rows0 = m ->
  length (stamps_of_run [] rows0 m) = S m ->
  exists t, stamps_of_run [] rows0 m !! m = Some t
            /\ stamps_of_run [] rows0 m !! (m - 1)%nat = Some t.
Proof.
  intros Hl Hlen.
  assert (HT : length (map fst rows0) = m) by (rewrite length_map; exact Hl).
  destruct (stamps_of_run_cases rows0 m) as [[Hlt _]|[_ Hst]].
  { rewrite Hl. apply Nat.le_refl. }
  { rewrite Hl in Hlt. destruct (Nat.lt_irrefl _ Hlt). }
  rewrite Hst in *. set (T := map fst rows0) in *.
  destruct (last T) as [t|] eqn:Hlast.
  - exists t. split.
    + rewrite lookup_app_r by lia. replace (m - length T)%nat with 0%nat by lia.
      reflexivity.
    + rewrite last_lookup in Hlast. destruct T as [|x T]; [discriminate Hlast|].
      cbn [length] in HT. rewrite lookup_app_l by (cbn [length]; lia).
      replace (m - 1)%nat with (Nat.pred (length (x :: T)))
        by (cbn [length]; lia).
      exact Hlast.
  - rewrite length_app in Hlen. cbn [length] in Hlen. lia.
Qed.

Lemma stamps_of_run_lookup (rows0 : list bar) (m i : nat) (b : bar) :
  (i <= m)%nat -> rows0 !! i = Some b ->
  stamps_of_run [] rows0 m !! i = Some (fst b).
Proof.
  intros Hi Hb. unfold stamps_of_run. apply lookup_app_l_Some.
  rewrite lookup_map, lookup_take_lt by lia. unfold bar in Hb. now rewrite Hb.
Qed.

(** C2 (amended): after any calls on a freshly built ledger, [k] of them
    [update_timeindex], each history has [k + 1] records: the seed stamped
    with the start date, then one record per [update_timeindex] call,
    stamped with the feed's latest bar time of the first symbol at that
    call (["datetime"] not being used as a symbol).  In a run that finishes
    (strategy and execution handler keeping their contracts, distinct
    symbols, the shortest frame having [m] rows) these are [m + 1] stamps:
    the times of the first symbol's bars in turn, and, when the first
    symbol is exhausted with the feed, the time of its last bar once more.
    So over a feed sorted by time the stamps never decrease; when its
    bar times increase strictly, the stamps increase strictly up to the
    last record, and the last two are equal when the first symbol has [m]
    rows.  The start date is not compared with the bar times: the records
    but the last increase strictly from the seed on when the start date is
    before the first bar. *)
Theorem histories_grow_with_market_events :
  (forall (bars0 : DataHandler) (start : timestamp) (capital : Q)
          (calls : list ledger_call) (p : Portfolio),
      for_each ledger_step calls (Portfolio_init bars0 start capital) = Ok p ->
      let stamps := stamped_times (symbol_list bars0) calls in
      length (all_positions p) = S (length stamps)
      /\ length (all_holdings p) = S (length stamps)
      /\ ("datetime" ∉ symbol_list bars0 ->
          timestamps (all_positions p) = Some start :: stamps
          /\ timestamps (all_holdings p) = Some start :: stamps))
  /\ (forall (StrategyState ExecutionState : Type)
             (calculate_signals :
                StrategyState -> DataHandler -> event ->
                result (StrategyState * list (option event)))
             (execute_order :
                ExecutionState -> event ->
                result (ExecutionState * list (option event))),
        puts_only_signals calculate_signals ->
        puts_only_fills execute_order ->
        forall (fuel : nat) (s0 : string) (rest : list string)
               (frames : gmap string (list bar)) (capital : Q)
               (start : timestamp) (strategy0 : StrategyState)
               (execution0 : ExecutionState)
               (bt' : Backtest StrategyState ExecutionState)
               (rows0 : list bar) (m : nat),
          NoDup (s0 :: rest) ->
          "datetime" ∉ s0 :: rest ->
          frames !! s0 = Some rows0 ->
          (forall s, s ∈ s0 :: rest ->
                     exists rows, frames !! s = Some rows
                                  /\ (m <= length rows)%nat) ->
          (exists s rows, s ∈ s0 :: rest /\ frames !! s = Some rows
                          /\ length rows = m) ->
          run_backtest calculate_signals execute_order fuel
            (Backtest_init (s0 :: rest) frames capital start strategy0
               execution0)
          = Finished bt' ->
          let stamps := stamps_of_run [] rows0 m in
          length stamps = S m
          /\ timestamps (all_positions (portfolio bt'))
             = Some start :: map Some stamps
          /\ timestamps (all_holdings (portfolio bt'))
             = Some start :: map Some stamps
          /\ (forall i b, (i <= m)%nat -> rows0 !! i = Some b ->
                          stamps !! i = Some (fst b))
          /\ (length rows0 = m ->
              exists t, stamps !! m = Some t
                        /\ stamps !! (m - 1)%nat = Some t)
          /\ (non_decreasing (map Some (map fst rows0)) ->
              non_decreasing (map Some stamps))
          /\ (strictly_increasing (map Some (map fst rows0)) ->
              strictly_increasing (map Some (take m stamps))
              /\ ((m < length rows0)%nat ->
                  strictly_increasing (map Some stamps))
              /\ (forall b, rows0 !! 0%nat = Some b -> start < fst b ->
                            strictly_increasing
                              (Some start :: map Some (take m stamps))))).
Proof.
  split.
  - intros bars0 start capital calls p H stamps.
    destruct (ledger_calls_lengths (symbol_list bars0) calls _ _ H) as [Lp Lh].
    split; [exact Lp|]. split; [exact Lh|]. intros Hdt.
    destruct (ledger_calls_stamps calls (Portfolio_init bars0 start capital) p
                Hdt H) as [Hp Hh].
    cbn [Portfolio_init pf_symbol_list all_positions all_holdings] in Hp, Hh.
    split.
    + rewrite Hp. unfold construct_all_positions, timestamps, record_time.
      cbn [map]. rewrite lookup_insert_eq. reflexivity.
    + rewrite Hh. unfold construct_all_holdings, timestamps, record_time.
      cbn [map]. rewrite !lookup_insert_ne by discriminate.
      rewrite lookup_insert_eq. reflexivity.
  - intros SS ES cs eo Hcs Heo fuel s0 rest frames capital start st0 ex0 bt'
           rows0 m Hnd Hdt Hrows0 Hall Hmin H stamps.
    assert (Hkeys : forall s, s ∈ s0 :: rest -> is_Some (frames !! s)).
    { intros s Hs. destruct (Hall s Hs) as (rows & -> & _). eauto. }
    pose proof (init_feed_keyed _ _ Hkeys) as Hk.
    assert (Hall' : forall s, s ∈ s0 :: rest ->
               is_Some (latest_symbol_data
                          (DataHandler_init (s0 :: rest) frames) !! s)
               /\ exists rows,
                   symbol_data (DataHandler_init (s0 :: rest) frames) !! s
                   = Some rows /\ (m <= length rows)%nat).
    { intros s Hs. split; [|apply Hall, Hs].
      rewrite (proj2 (Hk s Hs)). eauto. }
    destruct (run_stamps_from cs eo Hcs Heo fuel _ bt' m s0 rest [] rows0 H)
      as [Tp Th]; try reflexivity; try assumption.
    { apply (proj2 (Hk s0 ltac:(now left))). }
    destruct (run_record_count cs eo Hcs Heo fuel _ bt' m H)
      as (_ & Lh & _); try reflexivity; try assumption.
    assert (Tp0 : timestamps
                    (all_positions
                       (portfolio
                          (Backtest_init (s0 :: rest) frames capital start
                             st0 ex0))) = [Some start]).
    { cbn [Backtest_init portfolio Portfolio_init all_positions].
      unfold construct_all_positions, timestamps, record_time.
      cbn [map]. rewrite lookup_insert_eq. reflexivity. }
    assert (Th0 : timestamps
                    (all_holdings
                       (portfolio
                          (Backtest_init (s0 :: rest) frames capital start
                             st0 ex0))) = [Some start]).
    { cbn [Backtest_init portfolio Portfolio_init all_holdings].
      unfold construct_all_holdings, timestamps, record_time.
      cbn [map]. rewrite !lookup_insert_ne by discriminate.
      rewrite lookup_insert_eq. reflexivity. }
    rewrite Tp0 in Tp. rewrite Th0 in Th. cbn [app] in Tp, Th.
    fold stamps in Tp, Th.
    assert (Hlen : length stamps = S m).
    { assert (L : length (timestamps (all_holdings (portfolio bt')))
                  = (1 + m + 1)%nat).
      { unfold timestamps. rewrite length_map, Lh.
        assert (L0 : length (timestamps
                               (all_holdings
                                  (portfolio
                                     (Backtest_init (s0 :: rest) frames capital
                                        start st0 ex0)))) = 1%nat)
          by now rewrite Th0.
        unfold timestamps in L0. rewrite length_map in L0. rewrite L0.
        reflexivity. }
      rewrite Th in L. cbn [length] in L. rewrite length_map in L. lia. }
    assert (Hm : (m <= length rows0)%nat).
    { destruct (Hall s0 ltac:(now left)) as (rows & Hr & Hle).
      rewrite Hrows0 in Hr. injection Hr as <-. exact Hle. }
    split; [exact Hlen|]. split; [exact Tp|]. split; [exact Th|].
    split; [intros i b; apply stamps_of_run_lookup|].
    split; [intros Hl; apply (stamps_of_run_repeat rows0 m Hl Hlen)|].
    split; [apply (stamps_of_run_non_decreasing rows0 m Hm)|].
    intros Hsorted.
    destruct (stamps_of_run_order rows0 m Hm Hsorted) as (O2 & O3 & O4).
    split; [exact O2|]. split; [exact O3|].
    intros b. apply O4.
Qed.

Lemma histories_grow_with_market_events_witness :
  match run_backtest replay_signals simulated_execute_order 10
          scenario_backtest with
  | Finished bt' =>
      timestamps (all_holdings (portfolio bt'))
      = [Some 0; Some 1; Some 2; Some 3; Some 3]
  | Aborted _ => False
  | OutOfFuel => False
  end.
Proof.
  pose proof (proj2 histories_grow_with_market_events _ _
                replay_signals simulated_execute_order
                replay_signals_contract simulated_execute_order_contract
                10%nat "AAPL" [] sample_frames 100000%Q 0
                [[]; [long_signal "AAPL"]; [exit_signal "AAPL"]] tt) as H.
  change (Backtest_init ["AAPL"] sample_frames 100000 0
            [[]; [long_signal "AAPL"]; [exit_signal "AAPL"]] tt)
    with scenario_backtest in H.
  destruct (run_backtest replay_signals simulated_execute_order 10
              scenario_backtest) as [bt'|err|] eqn:E.
  - destruct (H bt' [flat_bar 1 10; flat_bar 2 10; flat_bar 3 10] 3%nat)
      as (_ & _ & Th & _).
    + apply NoDup_singleton.
    + intros Hin. apply list_elem_of_singleton in Hin. discriminate Hin.
    + reflexivity.
    + intros s Hs. apply list_elem_of_singleton in Hs. subst s.
      eexists. split; [reflexivity|]. cbn. lia.
    + exists "AAPL". eexists. split; [now left|]. split; reflexivity.
    + reflexivity.
    + rewrite Th. reflexivity.
  - vm_compute in E. discriminate E.
  - vm_compute in E. discriminate E.
Defined.
